(** * Memory-traffic and latency model of the CGRA performance analyzer

    A shallow embedding of [hardware_config.py], [gemm_analyzer.py],
    [conv_analyzer.py] and [analyzer.py], followed by the properties of the
    analysis that the specification states.

    Conventions of the embedding.
    - A Python [int] is a [Z]; [//] is [Z.div] (both round towards minus
      infinity) guarded by an explicit [ZeroDivisionError].
    - A Python [float] is an IEEE 754 binary64 value: a finite one is held as
      the rational it denotes, and every operation that produces a float
      rounds its exact result to the nearest binary64 value, ties to even
      ([B64.round]), or overflows.  The sign of a zero, which no operation
      used here can observe, is not kept.
    - [int / int] is the correctly rounded quotient and raises
      [OverflowError] when it is too large; an [int] met by a [float] in
      [*], [+] or [/] is first converted, which raises [OverflowError] when
      it is too large; float arithmetic itself overflows silently to an
      infinity; [int(np.ceil(x))] raises [OverflowError] on an infinity and
      [ValueError] on a NaN.
    - A raised exception is a value of [result]; the functions that can raise
      are written in the error monad [result]. *)

From Stdlib Require Import Morphisms ZArith QArith Qround Qreduction Qminmax.
From Stdlib Require Import Qabs Qpower List String Ascii Lia Lqa Bool.
Import ListNotations.

Local Open Scope Z_scope.

(* ================================================================== *)
(** * Binary64 rounding *)
(* ================================================================== *)

Module B64.

Definition pow2 (e : Z) : Q := (2 ^ e)%Q.

(** [floor(log2 a)] for a positive rational [a]. *)
Definition ilog2 (a : Q) : Z :=
  let l := Z.log2 (Qnum a) - Z.log2 (Zpos (Qden a)) in
  if Qle_bool (pow2 l) a then l else l - 1.

(** The exponent of the unit in the last place at [a]: 53 significant bits,
    and the subnormal spacing [2^-1074] below [2^-1022]. *)
Definition ulp_exponent (a : Q) : Z := Z.max (ilog2 a - 52) (-1074).

(** The nearest integer, ties to the even one. *)
Definition rne (x : Q) : Z :=
  let f := Qfloor x in
  match (x - inject_Z f ?= 1 # 2)%Q with
  | Lt => f
  | Gt => f + 1
  | Eq => if Z.even f then f else f + 1
  end.

Definition round_pos (a : Q) : Q :=
  let e := ulp_exponent a in
  (inject_Z (rne (a / pow2 e)) * pow2 e)%Q.

(** The binary64 value nearest to [x], with an unbounded exponent range
    upwards; [overflows] then tells whether it is beyond the largest finite
    binary64 value. *)
Definition round (x : Q) : Q :=
  match (x ?= 0)%Q with
  | Eq => 0%Q
  | Gt => round_pos x
  | Lt => (- round_pos (- x))%Q
  end.

Definition overflows (r : Q) : bool := Qle_bool (pow2 1024) (Qabs r).

End B64.

(* ================================================================== *)
(** * Python values *)
(* ================================================================== *)

Module Py.

(** The exceptions the analyzers can raise on integer input. *)
Inductive exn : Set :=
| ZeroDivisionError
| OverflowError
| ValueError.

Inductive result (A : Type) : Type :=
| Ok (a : A)
| Raise (e : exn).

Arguments Ok {A} a.
Arguments Raise {A} e.

Definition bind {A B : Type} (m : result A) (k : A -> result B) : result B :=
  match m with
  | Ok a => k a
  | Raise e => Raise e
  end.

(** [for x in xs: ys.append(f x)], stopping at the first exception. *)
Fixpoint for_each {A B : Type} (f : A -> result B) (xs : list A)
  : result (list B) :=
  match xs with
  | [] => Ok []
  | x :: xs' =>
      bind (f x) (fun y => bind (for_each f xs') (fun ys => Ok (y :: ys)))
  end.

(** A [float]: a finite binary64 value, an infinity or a NaN. *)
Inductive float : Set :=
| Finite (q : Q)
| Infinity (negative : bool)
| NaN.

(** [int] or [float]. *)
Inductive number : Set :=
| PyInt (z : Z)
| Float (f : float).

(** The finite float of value [q]. *)
Definition PyFloat (q : Q) : number := Float (Finite q).

Definition is_negative (q : Q) : bool := negb (Qle_bool 0 q).

(** The float an exact result [x] is rounded to. *)
Definition round_float (x : Q) : float :=
  let r := B64.round x in
  if B64.overflows r then Infinity (is_negative r) else Finite (Qred r).

(** [float(z)], as the mixed operations convert an [int] operand. *)
Definition float_of_int (z : Z) : result float :=
  match round_float (inject_Z z) with
  | Infinity _ => Raise OverflowError
  | f => Ok f
  end.

Definition to_float (x : number) : result float :=
  match x with
  | PyInt z => float_of_int z
  | Float f => Ok f
  end.

(** [a * b] on floats. *)
Definition fmul (a b : float) : float :=
  match a, b with
  | NaN, _ | _, NaN => NaN
  | Finite x, Finite y => round_float (x * y)
  | Infinity s, Finite y | Finite y, Infinity s =>
      if Qeq_bool y 0 then NaN else Infinity (xorb s (is_negative y))
  | Infinity s, Infinity t => Infinity (xorb s t)
  end.

(** [a + b] on floats. *)
Definition fadd (a b : float) : float :=
  match a, b with
  | NaN, _ | _, NaN => NaN
  | Finite x, Finite y => round_float (x + y)
  | Infinity s, Finite _ | Finite _, Infinity s => Infinity s
  | Infinity s, Infinity t => if Bool.eqb s t then Infinity s else NaN
  end.

(** [a / b] on floats: raises on a zero divisor. *)
Definition fdiv (a b : float) : result float :=
  match b with
  | Finite y =>
      if Qeq_bool y 0 then Raise ZeroDivisionError
      else
        match a with
        | Finite x => Ok (round_float (x / y))
        | Infinity s => Ok (Infinity (xorb s (is_negative y)))
        | NaN => Ok NaN
        end
  | Infinity _ =>
      match a with
      | Finite _ => Ok (Finite 0)
      | _ => Ok NaN
      end
  | NaN => Ok NaN
  end.

(** The value of a number as an extended rational: the comparison of an
    [int] with a [float] is exact. *)
Definition exact (x : number) : float :=
  match x with
  | PyInt z => Finite (inject_Z z)
  | Float f => f
  end.

Definition below (a b : float) : bool :=
  match a, b with
  | NaN, _ | _, NaN => false
  | Finite x, Finite y => negb (Qle_bool y x)
  | Finite _, Infinity t => negb t
  | Infinity s, Finite _ => s
  | Infinity s, Infinity t => s && negb t
  end.

(** [a < b]. *)
Definition lt (a b : number) : bool :=
  below (exact a) (exact b).

(** [a * b]: an [int] when both are, a [float] otherwise. *)
Definition mul (a b : number) : result number :=
  match a, b with
  | PyInt x, PyInt y => Ok (PyInt (x * y))
  | _, _ =>
      bind (to_float a) (fun fa =>
      bind (to_float b) (fun fb => Ok (Float (fmul fa fb))))
  end.

(** [a + b]: an [int] when both are, a [float] otherwise. *)
Definition add (a b : number) : result number :=
  match a, b with
  | PyInt x, PyInt y => Ok (PyInt (x + y))
  | _, _ =>
      bind (to_float a) (fun fa =>
      bind (to_float b) (fun fb => Ok (Float (fadd fa fb))))
  end.

(** [a / b]: always a [float].  On two [int]s it is the correctly rounded
    quotient. *)
Definition truediv (a b : number) : result float :=
  match a, b with
  | PyInt x, PyInt y =>
      if y =? 0 then Raise ZeroDivisionError
      else
        match round_float (inject_Z x / inject_Z y) with
        | Infinity _ => Raise OverflowError
        | f => Ok f
        end
  | _, _ =>
      bind (to_float a) (fun fa =>
      bind (to_float b) (fun fb => fdiv fa fb))
  end.

(** [a // b] on [int]s. *)
Definition floordiv (a b : Z) : result Z :=
  if b =? 0 then Raise ZeroDivisionError else Ok (a / b).

(** [max(a, b)]: the first argument unless the second is strictly larger. *)
Definition max (a b : number) : number :=
  if lt a b then b else a.

(** [min(a, b)]: the first argument unless the second is strictly smaller. *)
Definition min (a b : number) : number :=
  if lt b a then b else a.

(** [int(np.ceil(x))] on a float. *)
Definition ceil_int (x : float) : result Z :=
  match x with
  | Finite q => Ok (Qceiling q)
  | Infinity _ => Raise OverflowError
  | NaN => Raise ValueError
  end.

(** [sum(xs)]: a left fold of [+] from the [int] 0.  In the lists summed
    here a float, when there is one, is the last item. *)
Definition sum (xs : list number) : result number :=
  fold_left (fun acc x => bind acc (fun a => add a x)) xs (Ok (PyInt 0)).

End Py.

Import Py.

Declare Scope py_scope.
Delimit Scope py_scope with py.
Notation "x <- m ;; k" := (bind m (fun x => k))
  (at level 61, m at next level, right associativity) : py_scope.
Local Open Scope py_scope.

(** [config_dict.get(key, default)] on a dictionary of integers. *)
Fixpoint dict_get (d : list (string * Z)) (key : string) (default : Z) : Z :=
  match d with
  | [] => default
  | (k, v) :: d' => if String.eqb k key then v else dict_get d' key default
  end.

(* ================================================================== *)
(** * hardware_config.py *)
(* ================================================================== *)

Record HardwareConfig : Set := {
  dram_size : Z;
  central_sram_size : Z;
  cgra_sram_size : Z;
  dram_latency : Z;
  central_sram_latency : Z;
  cgra_sram_latency : Z;
  dma_transfer_rate : Z;
  bus_frequency : Z;
  cgra_frequency : Z
}.

(** [HardwareConfig.__init__]. *)
Definition HardwareConfig_init (config_dict : list (string * Z))
  : HardwareConfig :=
  {| dram_size := dict_get config_dict "dram_size" 32 * 1024 * 1024;
     central_sram_size := dict_get config_dict "central_sram_size" 512 * 1024;
     cgra_sram_size := dict_get config_dict "cgra_sram_size" 32 * 1024;
     dram_latency := dict_get config_dict "dram_latency" 100;
     central_sram_latency := dict_get config_dict "central_sram_latency" 10;
     cgra_sram_latency := dict_get config_dict "cgra_sram_latency" 1;
     dma_transfer_rate := dict_get config_dict "dma_transfer_rate" 16;
     bus_frequency := dict_get config_dict "bus_frequency" 100;
     cgra_frequency := dict_get config_dict "cgra_frequency" 100 |}.

(** The dictionary [_calculate_memory_utilization] returns. *)
Record Utilization : Set := {
  util_cgra_sram : number;
  util_central_sram : number;
  util_dram : number
}.

Module BaseAnalyzer.

Definition _calculate_memory_utilization (hw_config : HardwareConfig)
  (total_memory : Z) : result Utilization :=
  a <- truediv (PyInt total_memory) (PyInt (cgra_sram_size hw_config)) ;;
  b <- truediv (PyInt total_memory) (PyInt (central_sram_size hw_config)) ;;
  c <- truediv (PyInt total_memory) (PyInt (dram_size hw_config)) ;;
  Ok {| util_cgra_sram := min (PyFloat 1) (Float a);
        util_central_sram := min (PyFloat 1) (Float b);
        util_dram := min (PyFloat 1) (Float c) |}.

Definition _calculate_transfer_latency (hw_config : HardwareConfig)
  (size_bytes : number) : result Z :=
  q <- truediv size_bytes (PyInt (dma_transfer_rate hw_config)) ;;
  ceil_int q.

End BaseAnalyzer.

Import BaseAnalyzer.

(** The three latencies a [_calculate_latencies] returns, in the order of the
    dictionary's keys. *)
Record Latencies : Set := {
  lat_dram_to_central : Z;
  lat_central_to_cgra : Z;
  lat_computation : number
}.

(** [latencies.values()]. *)
Definition latencies_values (l : Latencies) : list number :=
  [PyInt (lat_dram_to_central l); PyInt (lat_central_to_cgra l);
   lat_computation l].

(* ================================================================== *)
(** * gemm_analyzer.py *)
(* ================================================================== *)

Module GEMM.

Record GEMMConfig : Set := {
  dimensions : list Z;
  data_type_size : Z;
  tiling_size : option Z
}.

(** The keys [GEMMConfig.__init__] reads; [None] is an absent key. *)
Record config_dict : Set := {
  cd_dimensions : option (list Z);
  cd_data_type_size : option Z;
  cd_tiling_size : option Z
}.

Definition GEMMConfig_init (d : config_dict) : GEMMConfig :=
  {| dimensions :=
       match cd_dimensions d with
       | Some l => l
       | None => [16; 32; 64; 128; 256]
       end;
     data_type_size :=
       match cd_data_type_size d with Some s => s | None => 4 end;
     tiling_size := cd_tiling_size d |}.

Record Breakdown : Set := {
  input_a : Z;
  input_b : Z;
  output : Z
}.

Record MemReq : Set := {
  per_matrix : Z;
  total : Z;
  breakdown : Breakdown
}.

Definition _calculate_memory_requirements (dim : Z) (config : GEMMConfig)
  : MemReq :=
  let matrix_size := dim * dim * data_type_size config in
  let total_memory := matrix_size * 3 in
  {| per_matrix := matrix_size;
     total := total_memory;
     breakdown := {| input_a := matrix_size;
                     input_b := matrix_size;
                     output := matrix_size |} |}.

Record DebugInfo : Set := {
  matrix_a_load : Z;
  matrix_b_load : Z;
  matrix_c_load : Z;
  matrix_c_store : Z;
  working_set : Z;
  reloads : number
}.

Record MemoryLatencies : Set := {
  dram_to_central : Z;
  central_to_cgra : Z;
  debug_info : DebugInfo
}.

(** [if config.tiling_size: ... else: ...]: [None] and [0] are false; in
    the true branch [tile_size = config.tiling_size]. *)
Definition if_tiling {A : Type} (tiling : option Z)
  (then_ : Z -> A) (else_ : A) : A :=
  match tiling with
  | Some tile_size => if tile_size =? 0 then else_ else then_ tile_size
  | None => else_
  end.

(** The locals [matrix_a_load], [matrix_b_load], [matrix_c_load] and
    [matrix_c_store]. *)
Record Loads : Set := {
  a_load : Z;
  b_load : Z;
  c_load : Z;
  c_store : Z
}.

(** The tiled branch: the same statements under both placements. *)
Definition tiled_loads (dim tile_size : Z) (config : GEMMConfig)
  : result Loads :=
  num_tiles_m <- floordiv (dim + tile_size - 1) tile_size ;;
  num_tiles_n <- floordiv (dim + tile_size - 1) tile_size ;;
  num_tiles_k <- floordiv (dim + tile_size - 1) tile_size ;;
  let tile_elements := tile_size * tile_size in
  let tile_bytes := tile_elements * data_type_size config in
  let matrix_a_load := tile_bytes * num_tiles_m * num_tiles_k in
  let matrix_b_load := tile_bytes * num_tiles_k * num_tiles_n in
  let matrix_c_load := tile_bytes * num_tiles_m * num_tiles_n in
  let matrix_c_store := matrix_c_load in
  Ok {| a_load := matrix_a_load; b_load := matrix_b_load;
        c_load := matrix_c_load; c_store := matrix_c_store |}.

(** The untiled branch: the same statements under both placements. *)
Definition untiled_loads (matrix_size : Z) : Loads :=
  {| a_load := matrix_size; b_load := matrix_size;
     c_load := matrix_size; c_store := matrix_size |}.

(** The locals the placement branch leaves behind. *)
Record Placement : Set := {
  p_dram_to_central : Z;
  p_total_central_cgra : Z;
  p_loads : Loads
}.

Definition loads_total (l : Loads) : Z :=
  a_load l + b_load l + c_load l + c_store l.

Definition calculate_memory_access_latency (hw_config : HardwareConfig)
  (dim : Z) (mem_req : MemReq) (config : GEMMConfig)
  : result MemoryLatencies :=
  let matrix_size := per_matrix mem_req in
  let total_size := matrix_size * 3 in
  placement <-
    (if total_size <=? central_sram_size hw_config then
       let dram_to_central := 0 in
       loads <-
         if_tiling (tiling_size config)
           (fun tile_size => tiled_loads dim tile_size config)
           (Ok (untiled_loads matrix_size)) ;;
       let total_central_cgra := loads_total loads in
       Ok {| p_dram_to_central := dram_to_central;
             p_total_central_cgra := total_central_cgra;
             p_loads := loads |}
     else
       loads <-
         if_tiling (tiling_size config)
           (fun tile_size => tiled_loads dim tile_size config)
           (Ok (untiled_loads matrix_size)) ;;
       let total_dram_central := loads_total loads in
       let total_central_cgra := total_dram_central in
       dram_to_central <-
         _calculate_transfer_latency hw_config (PyInt total_dram_central) ;;
       Ok {| p_dram_to_central := dram_to_central;
             p_total_central_cgra := total_central_cgra;
             p_loads := loads |}) ;;
  let buffer_size := cgra_sram_size hw_config in
  let working_set :=
    if_tiling (tiling_size config)
      (fun tile_size =>
         (2 * tile_size * tile_size + tile_size * tile_size)
         * data_type_size config)
      (Z.min total_size (3 * matrix_size)) in
  ratio <- truediv (PyInt working_set) (PyInt buffer_size) ;;
  let reloads := max (PyInt 1) (Float ratio) in
  total_central_cgra <-
    mul (PyInt (p_total_central_cgra placement)) reloads ;;
  central_to_cgra <-
    _calculate_transfer_latency hw_config total_central_cgra ;;
  Ok {| dram_to_central := p_dram_to_central placement;
        central_to_cgra := central_to_cgra;
        debug_info :=
          {| matrix_a_load := a_load (p_loads placement);
             matrix_b_load := b_load (p_loads placement);
             matrix_c_load := c_load (p_loads placement);
             matrix_c_store := c_store (p_loads placement);
             working_set := working_set;
             reloads := reloads |} |}.

Definition _calculate_latencies (hw_config : HardwareConfig) (dim : Z)
  (mem_req : MemReq) (config : GEMMConfig) : result Latencies :=
  memory_latencies <-
    calculate_memory_access_latency hw_config dim mem_req config ;;
  let computation := 2 * dim * dim * dim in
  computation <- truediv (PyInt computation) (PyInt 4) ;;
  Ok {| lat_dram_to_central := dram_to_central memory_latencies;
        lat_central_to_cgra := central_to_cgra memory_latencies;
        lat_computation := Float computation |}.

Record Result : Set := {
  dimension : Z;
  memory : MemReq;
  latencies : Latencies;
  utilization : Utilization;
  total_latency : number
}.

(** The body of the loop of [analyze], for one [dim]. *)
Definition analyze_point (hw_config : HardwareConfig) (config : GEMMConfig)
  (dim : Z) : result Result :=
  let mem_req := _calculate_memory_requirements dim config in
  latencies <- _calculate_latencies hw_config dim mem_req config ;;
  utilization <- _calculate_memory_utilization hw_config (total mem_req) ;;
  total_latency <- sum (latencies_values latencies) ;;
  Ok {| dimension := dim;
        memory := mem_req;
        latencies := latencies;
        utilization := utilization;
        total_latency := total_latency |}.

Definition analyze (hw_config : HardwareConfig) (config : GEMMConfig)
  : result (list Result) :=
  for_each (analyze_point hw_config config) (dimensions config).

End GEMM.

(* ================================================================== *)
(** * conv_analyzer.py *)
(* ================================================================== *)

Module Conv.

(** The dictionary [memory_pattern]; [None] is an absent key. *)
Record MemoryPattern : Set := {
  mp_input_layout : option string;
  mp_kernel_layout : option string;
  mp_vectorization : option Z
}.

Record ConvConfig : Set := {
  input_dimensions : list Z;
  kernel_sizes : list Z;
  num_channels : Z;
  num_filters : Z;
  data_type_size : Z;
  padding : Z;
  stride : Z;
  dilation : Z;
  groups : Z;
  tiling_size : option (Z * Z);
  memory_pattern : MemoryPattern;
  input_layout : string;
  kernel_layout : string;
  vectorization : Z
}.

(** The dictionary under the key [tiling]. *)
Record TilingDict : Set := {
  td_enabled : option bool;
  td_input_tile_size : option (Z * Z)
}.

(** The keys [ConvConfig.__init__] reads; [None] is an absent key. *)
Record config_dict : Set := {
  cd_input_dimensions : option (list Z);
  cd_kernel_sizes : option (list Z);
  cd_num_channels : option Z;
  cd_num_filters : option Z;
  cd_data_type_size : option Z;
  cd_padding : option Z;
  cd_stride : option Z;
  cd_dilation : option Z;
  cd_groups : option Z;
  cd_tiling : option TilingDict;
  cd_memory_pattern : option MemoryPattern
}.

(** [d.get(key, default)] for a key read as an option. *)
Definition get {A : Type} (o : option A) (default : A) : A :=
  match o with
  | Some a => a
  | None => default
  end.

Definition ConvConfig_init (d : config_dict) : ConvConfig :=
  let tiling_config :=
    get (cd_tiling d) {| td_enabled := None; td_input_tile_size := None |} in
  let memory_pattern :=
    get (cd_memory_pattern d)
      {| mp_input_layout := None; mp_kernel_layout := None;
         mp_vectorization := None |} in
  {| input_dimensions := get (cd_input_dimensions d) [16; 32; 64; 128];
     kernel_sizes := get (cd_kernel_sizes d) [3];
     num_channels := get (cd_num_channels d) 1;
     num_filters := get (cd_num_filters d) 1;
     data_type_size := get (cd_data_type_size d) 4;
     padding := get (cd_padding d) 0;
     stride := get (cd_stride d) 1;
     dilation := get (cd_dilation d) 1;
     groups := get (cd_groups d) 1;
     tiling_size :=
       if get (td_enabled tiling_config) false
       then Some (fst (get (td_input_tile_size tiling_config) (32, 32)),
                  snd (get (td_input_tile_size tiling_config) (32, 32)))
       else None;
     memory_pattern := memory_pattern;
     input_layout := get (mp_input_layout memory_pattern) "NCHW"%string;
     kernel_layout := get (mp_kernel_layout memory_pattern) "KCRS"%string;
     vectorization := get (mp_vectorization memory_pattern) 4 |}.

(** The locals [input_load], [kernel_load] and [output_load]. *)
Record Loads : Set := {
  input_load : Z;
  kernel_load : Z;
  output_load : Z
}.

Definition loads_total (l : Loads) : Z :=
  input_load l + kernel_load l + output_load l.

(** The tiled branch: the same statements under both placements. *)
Definition tiled_loads (dim kernel_size : Z) (tile : Z * Z)
  (input_size kernel_size_bytes output_size : Z) : result Loads :=
  let '(tile_h, tile_w) := tile in
  num_tiles_h <- floordiv (dim + tile_h - 1) tile_h ;;
  num_tiles_w <- floordiv (dim + tile_w - 1) tile_w ;;
  effective_tile_size <-
    floordiv input_size (num_tiles_h * num_tiles_w) ;;
  let input_load :=
    effective_tile_size * num_tiles_h * num_tiles_w
    * (1 + (kernel_size - 1)) in
  let kernel_load := kernel_size_bytes in
  let output_load := output_size in
  Ok {| input_load := input_load; kernel_load := kernel_load;
        output_load := output_load |}.

(** The untiled branch: the same statements under both placements. *)
Definition untiled_loads (kernel_size : Z)
  (input_size kernel_size_bytes output_size : Z) : Loads :=
  let input_load := input_size * kernel_size * kernel_size in
  let kernel_load := kernel_size_bytes in
  let output_load := output_size * 2 in
  {| input_load := input_load; kernel_load := kernel_load;
     output_load := output_load |}.

(** The locals of [calculate_memory_access_latency] at its [return];
    [total_dram_central] is bound only when the data goes through DRAM, and
    [total_central_cgra] is recorded before and after [*= reloads]. *)
Record Locals : Set := {
  input_size : Z;
  kernel_size_bytes : Z;
  output_dim : Z;
  output_size : Z;
  total_size : Z;
  loads : Loads;
  total_dram_central : option Z;
  total_central_cgra_before : Z;
  working_set : Z;
  reloads : number;
  total_central_cgra : number;
  l_dram_to_central : Z;
  l_central_to_cgra : Z
}.

(** The locals the placement branch leaves behind. *)
Record Placement : Set := {
  p_dram_to_central : Z;
  p_total_dram_central : option Z;
  p_total_central_cgra : Z;
  p_loads : Loads
}.

Definition calculate_memory_access_latency_locals
  (hw_config : HardwareConfig) (dim kernel_size : Z) (config : ConvConfig)
  : result Locals :=
  let input_size := dim * dim * num_channels config * data_type_size config in
  let kernel_size_bytes :=
    kernel_size * kernel_size * num_channels config * num_filters config
    * data_type_size config in
  q <- floordiv (dim + 2 * padding config - kernel_size) (stride config) ;;
  let output_dim := q + 1 in
  let output_size :=
    output_dim * output_dim * num_filters config * data_type_size config in
  let total_size := input_size + kernel_size_bytes + output_size in
  placement <-
    (if total_size <=? central_sram_size hw_config then
       let dram_to_central := 0 in
       loads <-
         match tiling_size config with
         | Some tile =>
             tiled_loads dim kernel_size tile
               input_size kernel_size_bytes output_size
         | None =>
             Ok (untiled_loads kernel_size
                   input_size kernel_size_bytes output_size)
         end ;;
       let total_central_cgra := loads_total loads in
       Ok {| p_dram_to_central := dram_to_central;
             p_total_dram_central := None;
             p_total_central_cgra := total_central_cgra;
             p_loads := loads |}
     else
       loads <-
         match tiling_size config with
         | Some tile =>
             tiled_loads dim kernel_size tile
               input_size kernel_size_bytes output_size
         | None =>
             Ok (untiled_loads kernel_size
                   input_size kernel_size_bytes output_size)
         end ;;
       let total_dram_central := loads_total loads in
       let total_central_cgra := total_dram_central in
       dram_to_central <-
         _calculate_transfer_latency hw_config (PyInt total_dram_central) ;;
       Ok {| p_dram_to_central := dram_to_central;
             p_total_dram_central := Some total_dram_central;
             p_total_central_cgra := total_central_cgra;
             p_loads := loads |}) ;;
  let buffer_size := cgra_sram_size hw_config in
  let working_set :=
    Z.min total_size
      match tiling_size config with
      | Some tile =>
          fst tile * snd tile * num_channels config * data_type_size config
      | None => total_size
      end in
  ratio <- truediv (PyInt working_set) (PyInt buffer_size) ;;
  let reloads := max (PyInt 1) (Float ratio) in
  total_central_cgra <-
    mul (PyInt (p_total_central_cgra placement)) reloads ;;
  central_to_cgra <-
    _calculate_transfer_latency hw_config total_central_cgra ;;
  Ok {| input_size := input_size;
        kernel_size_bytes := kernel_size_bytes;
        output_dim := output_dim;
        output_size := output_size;
        total_size := total_size;
        loads := p_loads placement;
        total_dram_central := p_total_dram_central placement;
        total_central_cgra_before := p_total_central_cgra placement;
        working_set := working_set;
        reloads := reloads;
        total_central_cgra := total_central_cgra;
        l_dram_to_central := p_dram_to_central placement;
        l_central_to_cgra := central_to_cgra |}.

Record MemoryLatencies : Set := {
  dram_to_central : Z;
  central_to_cgra : Z
}.

Definition calculate_memory_access_latency (hw_config : HardwareConfig)
  (dim kernel_size : Z) (config : ConvConfig) : result MemoryLatencies :=
  l <- calculate_memory_access_latency_locals
         hw_config dim kernel_size config ;;
  Ok {| dram_to_central := l_dram_to_central l;
        central_to_cgra := l_central_to_cgra l |}.

Record Dimensions : Set := {
  dims_input : Z * Z * Z;
  dims_kernel : Z * Z * Z * Z;
  dims_output : Z * Z * Z
}.

Record MemReq : Set := {
  input : Z;
  kernel : Z;
  output : Z;
  total : Z;
  dimensions : Dimensions
}.

Definition _calculate_memory_requirements (input_dim kernel_size : Z)
  (config : ConvConfig) : result MemReq :=
  let input_size :=
    input_dim * input_dim * num_channels config * data_type_size config in
  let kernel_total_size :=
    kernel_size * kernel_size * num_channels config * num_filters config
    * data_type_size config in
  q <- floordiv (input_dim + 2 * padding config - kernel_size)
         (stride config) ;;
  let output_dim := q + 1 in
  let output_size :=
    output_dim * output_dim * num_filters config * data_type_size config in
  let total_memory := input_size + kernel_total_size + output_size in
  Ok {| input := input_size;
        kernel := kernel_total_size;
        output := output_size;
        total := total_memory;
        dimensions :=
          {| dims_input := (input_dim, input_dim, num_channels config);
             dims_kernel := (kernel_size, kernel_size, num_channels config,
                             num_filters config);
             dims_output := (output_dim, output_dim, num_filters config) |}
     |}.

Definition _calculate_latencies (hw_config : HardwareConfig)
  (input_dim kernel_size : Z) (mem_req : MemReq) (config : ConvConfig)
  : result Latencies :=
  memory_latencies <-
    calculate_memory_access_latency hw_config input_dim kernel_size config ;;
  q <- floordiv (input_dim + 2 * padding config - kernel_size)
         (stride config) ;;
  let output_dim := q + 1 in
  let computation :=
    2 * kernel_size * kernel_size * num_channels config
    * output_dim * output_dim * num_filters config in
  Ok {| lat_dram_to_central := dram_to_central memory_latencies;
        lat_central_to_cgra := central_to_cgra memory_latencies;
        lat_computation := PyInt computation |}.

Record Result : Set := {
  input_dimension : Z;
  kernel_size : Z;
  memory : MemReq;
  latencies : Latencies;
  utilization : Utilization;
  total_latency : number
}.

(** The body of the inner loop of [analyze], for one [dim] and one
    [kernel_size]. *)
Definition analyze_point (hw_config : HardwareConfig) (config : ConvConfig)
  (dim kernel_size : Z) : result Result :=
  mem_req <- _calculate_memory_requirements dim kernel_size config ;;
  latencies <- _calculate_latencies hw_config dim kernel_size mem_req config ;;
  utilization <- _calculate_memory_utilization hw_config (total mem_req) ;;
  total_latency <- sum (latencies_values latencies) ;;
  Ok {| input_dimension := dim;
        kernel_size := kernel_size;
        memory := mem_req;
        latencies := latencies;
        utilization := utilization;
        total_latency := total_latency |}.

Definition analyze (hw_config : HardwareConfig) (config : ConvConfig)
  : result (list Result) :=
  rows <-
    for_each
      (fun dim =>
         for_each (analyze_point hw_config config dim) (kernel_sizes config))
      (input_dimensions config) ;;
  Ok (List.concat rows).

End Conv.

(* ================================================================== *)
(** * analyzer.py *)
(* ================================================================== *)

Module Main.

(** A subscript [d[key]] either finds its value or raises [KeyError]. *)
Inductive lookup (A : Type) : Type :=
| Found (a : A)
| KeyError (key : string).

Arguments Found {A} a.
Arguments KeyError {A} key.

Definition lookup_bind {A B : Type} (m : lookup A) (k : A -> lookup B)
  : lookup B :=
  match m with
  | Found a => k a
  | KeyError key => KeyError key
  end.

(** [d[key]], for a key read as an option. *)
Definition item {A : Type} (o : option A) (key : string) : lookup A :=
  match o with
  | Some a => Found a
  | None => KeyError key
  end.

(** The parsed hardware file: [None] is an absent key. *)
Record MemoryYaml : Set := {
  y_size : option Z;
  y_latency : option Z
}.

Record DmaYaml : Set := {
  y_transfer_rate : option Z
}.

Record HardwareYaml : Set := {
  y_dram : option MemoryYaml;
  y_central_sram : option MemoryYaml;
  y_cgra_sram : option MemoryYaml;
  y_dma : option DmaYaml;
  y_bits_per_cycle : option Z;
  y_bus_frequency : option Z;
  y_cgra_frequency : option Z
}.

Record HwConfigYaml : Set := {
  y_hardware : option HardwareYaml
}.

Declare Scope main_scope.
Notation "x <- m ;; k" := (lookup_bind m (fun x => k))
  (at level 61, m at next level, right associativity) : main_scope.
Local Open Scope main_scope.

(** The entries of the returned dictionary are evaluated in the order they
    are written, each [hw[a][b]] as [hw[a]] then [[b]]. *)
Definition convert_hw_config (hw_config : HwConfigYaml)
  : lookup (list (string * Z)) :=
  hw <- item (y_hardware hw_config) "hardware" ;;
  d <- item (y_dram hw) "dram" ;;
  dram_size <- item (y_size d) "size" ;;
  c <- item (y_central_sram hw) "central_sram" ;;
  central_sram_size <- item (y_size c) "size" ;;
  g <- item (y_cgra_sram hw) "cgra_sram" ;;
  cgra_sram_size <- item (y_size g) "size" ;;
  d <- item (y_dram hw) "dram" ;;
  dram_latency <- item (y_latency d) "latency" ;;
  c <- item (y_central_sram hw) "central_sram" ;;
  central_sram_latency <- item (y_latency c) "latency" ;;
  g <- item (y_cgra_sram hw) "cgra_sram" ;;
  cgra_sram_latency <- item (y_latency g) "latency" ;;
  m <- item (y_dma hw) "dma" ;;
  dma_transfer_rate <- item (y_transfer_rate m) "transfer_rate" ;;
  bits_per_cycle <- item (y_bits_per_cycle hw) "bits_per_cycle" ;;
  bus_frequency <- item (y_bus_frequency hw) "bus_frequency" ;;
  cgra_frequency <- item (y_cgra_frequency hw) "cgra_frequency" ;;
  Found [("dram_size", dram_size);
         ("central_sram_size", central_sram_size);
         ("cgra_sram_size", cgra_sram_size);
         ("dram_latency", dram_latency);
         ("central_sram_latency", central_sram_latency);
         ("cgra_sram_latency", cgra_sram_latency);
         ("dma_transfer_rate", dma_transfer_rate);
         ("bits_per_cycle", bits_per_cycle);
         ("bus_frequency", bus_frequency);
         ("cgra_frequency", cgra_frequency)]%string.

(** [HardwareConfig(convert_hw_config(hw_config))], as [main] builds the
    profile. *)
Definition load_hardware (hw_config : HwConfigYaml) : lookup HardwareConfig :=
  d <- convert_hw_config hw_config ;;
  Found (HardwareConfig_init d).

(** [str.upper] on one ASCII character. *)
Definition upper_char (c : ascii) : ascii :=
  let n := nat_of_ascii c in
  if ((97 <=? n) && (n <=? 122))%nat then ascii_of_nat (n - 32) else c.

(** [str.upper] on an ASCII string. *)
Fixpoint upper (s : string) : string :=
  match s with
  | EmptyString => EmptyString
  | String c s' => String (upper_char c) (upper s')
  end.

(** The two bodies of [plot_results]: the call of [plot_conv_results], or
    the statements after the [if]. *)
Inductive PlotBody : Set :=
| ConvPlot
| GenericPlot.

(** The test [operation == "Conv"] at the head of [plot_results]. *)
Definition plot_results_body (operation : string) : PlotBody :=
  if String.eqb operation "Conv" then ConvPlot else GenericPlot.

(** The body [main] reaches: it calls
    [plot_results(results, args.operation.upper(), ...)]. *)
Definition main_plot_body (operation : string) : PlotBody :=
  plot_results_body (upper operation).

End Main.

(* ================================================================== *)
(** * Vocabulary of the statements *)
(* ================================================================== *)

(** The binary64 value nearest to [x], in lowest terms. *)
Definition nearest64 (x : Q) : Q := Qred (B64.round x).

(** [x] is the finite number of value [v]. *)
Definition has_value (x : number) (v : Q) : Prop :=
  match exact x with
  | Finite q => (q == v)%Q
  | _ => False
  end.

(** [z] is at most [2 ^ bits] in magnitude. *)
Definition fits (bits : Z) (z : Z) : Prop := Z.abs z <= 2 ^ bits.

(** The tail both analyzers share: the reload factor of a working set, the
    transfer total scaled by it, and the cycles the scaled total takes. *)
Definition scaled_transfer (hw : HardwareConfig) (moved working_set : Z)
  : result Z :=
  ratio <- truediv (PyInt working_set) (PyInt (cgra_sram_size hw)) ;;
  total <- mul (PyInt moved) (max (PyInt 1) (Float ratio)) ;;
  _calculate_transfer_latency hw total.

(** The invariant of a hardware profile: every capacity and the DMA rate is
    strictly positive. *)
Definition positive_hardware (hw : HardwareConfig) : Prop :=
  0 < dram_size hw /\ 0 < central_sram_size hw /\ 0 < cgra_sram_size hw
  /\ 0 < dma_transfer_rate hw.

(** No capacity and no DMA rate of the profile is zero. *)
Definition nonzero_hardware (hw : HardwareConfig) : Prop :=
  dram_size hw <> 0 /\ central_sram_size hw <> 0 /\ cgra_sram_size hw <> 0
  /\ dma_transfer_rate hw <> 0.

(** A profile on which the conversions of the DMA rate cannot overflow:
    positive capacities, and a positive rate of at most [2^1023]. *)
Definition bounded_hardware (hw : HardwareConfig) : Prop :=
  positive_hardware hw /\ dma_transfer_rate hw <= 2 ^ 1023.

(** The profile of the reference scenarios: 32 MiB of DRAM, 512 KiB of
    central SRAM, 32 KiB of local SRAM, 16 bytes per cycle. *)
Definition reference_hardware : HardwareConfig :=
  HardwareConfig_init
    [("dram_size", 32); ("central_sram_size", 512); ("cgra_sram_size", 32);
     ("dma_transfer_rate", 16); ("bus_frequency", 100);
     ("cgra_frequency", 100)]%string.


(** The reference profile with another local SRAM size (in KB) and DMA
    rate. *)
Definition hardware_with (cgra_kb rate : Z) : HardwareConfig :=
  HardwareConfig_init
    [("dram_size", 32); ("central_sram_size", 512);
     ("cgra_sram_size", cgra_kb); ("dma_transfer_rate", rate);
     ("bus_frequency", 100); ("cgra_frequency", 100)]%string.

(** The working set the GEMM model charges to the local buffer: the three
    tiles of one iteration when tiling is on, the whole footprint when it is
    off ([None], or a tile side of 0, which Python takes for false). *)
Definition gemm_working_set (config : GEMM.GEMMConfig) (footprint : Z) : Z :=
  match GEMM.tiling_size config with
  | Some t =>
      if t =? 0 then footprint
      else (2 * t * t + t * t) * GEMM.data_type_size config
  | None => footprint
  end.

(** The working set the Conv model charges to the local buffer: one input
    tile, but never more than the whole footprint. *)
Definition conv_working_set (config : Conv.ConvConfig) (footprint : Z) : Z :=
  match Conv.tiling_size config with
  | Some (th, tw) =>
      Z.min footprint
        (th * tw * Conv.num_channels config * Conv.data_type_size config)
  | None => footprint
  end.

(** The Conv working set in the words of the specification: the tile volume
    whenever tiling is enabled. *)
Definition spec_conv_working_set (config : Conv.ConvConfig) (footprint : Z)
  : Z :=
  match Conv.tiling_size config with
  | Some (th, tw) =>
      th * tw * Conv.num_channels config * Conv.data_type_size config
  | None => footprint
  end.

(** A GEMM point whose dimension, element size and tile side are at most
    [2^64] in magnitude. *)
Definition gemm_in_range (config : GEMM.GEMMConfig) (dim : Z) : Prop :=
  fits 64 dim /\ fits 64 (GEMM.data_type_size config)
  /\ match GEMM.tiling_size config with
     | Some t => fits 64 t
     | None => True
     end.

(** A Conv point whose sides, channel and filter counts, element size,
    padding, stride and tile sides are at most [2^64] in magnitude. *)
Definition conv_in_range (config : Conv.ConvConfig) (dim k : Z) : Prop :=
  fits 64 dim /\ fits 64 k
  /\ fits 64 (Conv.num_channels config) /\ fits 64 (Conv.num_filters config)
  /\ fits 64 (Conv.data_type_size config)
  /\ fits 64 (Conv.padding config) /\ fits 64 (Conv.stride config)
  /\ match Conv.tiling_size config with
     | Some (th, tw) => fits 64 th /\ fits 64 tw
     | None => True
     end.

(** [max(1, working_set / capacity)] over the rationals, as the
    specification words the reload factor. *)
Definition reload_multiplier (working_set capacity : Z) : Q :=
  Qmax 1 (inject_Z working_set / inject_Z capacity).

(** [m] is the reload factor the code derives from a working set and a
    local buffer of [capacity] bytes: the [int] 1 unless the binary64
    quotient exceeds 1, and that quotient otherwise.  It is 1 when the
    working set fits, and within a relative [2^-53] of the exact quotient
    when it does not. *)
Definition is_reload_factor (m : number) (working_set capacity : Z) : Prop :=
  m = (if Qle_bool (nearest64 (inject_Z working_set / inject_Z capacity)) 1
       then PyInt 1
       else PyFloat (nearest64 (inject_Z working_set / inject_Z capacity)))
  /\ (0 < capacity -> working_set <= capacity -> m = PyInt 1)
  /\ (0 < capacity -> capacity < working_set ->
      exists q,
        exact m = Finite q
        /\ (1 <= q)%Q
        /\ (Qabs (q - inject_Z working_set / inject_Z capacity)
            <= B64.pow2 (-53)
               * (inject_Z working_set / inject_Z capacity))%Q).

(** The tile sides of a tiled Conv workload are strictly positive. *)
Definition conv_tiles_positive (config : Conv.ConvConfig) : Prop :=
  match Conv.tiling_size config with
  | Some (th, tw) => 0 < th /\ 0 < tw
  | None => True
  end.

(** A tiled Conv point has at least one tile in each direction: positive
    tile sides and a positive input side.  An untiled one needs nothing. *)
Definition conv_tiles_cover (config : Conv.ConvConfig) (dim : Z) : Prop :=
  match Conv.tiling_size config with
  | Some (th, tw) => 0 < dim /\ 0 < th /\ 0 < tw
  | None => True
  end.

(** [floor((input_side + 2 * padding - kernel_side) / stride) + 1]. *)
Definition output_side (config : Conv.ConvConfig) (input_side kernel_side : Z)
  : Z :=
  (input_side + 2 * Conv.padding config - kernel_side) / Conv.stride config
  + 1.

(** Two profiles that differ at most in their three latency fields. *)
Definition same_but_latencies (h1 h2 : HardwareConfig) : Prop :=
  dram_size h1 = dram_size h2
  /\ central_sram_size h1 = central_sram_size h2
  /\ cgra_sram_size h1 = cgra_sram_size h2
  /\ dma_transfer_rate h1 = dma_transfer_rate h2
  /\ bus_frequency h1 = bus_frequency h2
  /\ cgra_frequency h1 = cgra_frequency h2.

(** Two Conv workloads that differ at most in [dilation], [groups] and the
    memory pattern ([input_layout], [kernel_layout], [vectorization]). *)
Definition same_but_inert (c1 c2 : Conv.ConvConfig) : Prop :=
  Conv.input_dimensions c1 = Conv.input_dimensions c2
  /\ Conv.kernel_sizes c1 = Conv.kernel_sizes c2
  /\ Conv.num_channels c1 = Conv.num_channels c2
  /\ Conv.num_filters c1 = Conv.num_filters c2
  /\ Conv.data_type_size c1 = Conv.data_type_size c2
  /\ Conv.padding c1 = Conv.padding c2
  /\ Conv.stride c1 = Conv.stride c2
  /\ Conv.tiling_size c1 = Conv.tiling_size c2.

(** The input volume of a tiled Conv in the words of the specification,
    with [/] the exact division it is everywhere else in that text. *)
Definition spec_tiled_input_load (input_bytes tiles_h tiles_w kernel_side : Z)
  : Q :=
  (inject_Z input_bytes / inject_Z (tiles_h * tiles_w)
   * inject_Z tiles_h * inject_Z tiles_w
   * (1 + (inject_Z kernel_side - 1)))%Q.

(** [ConvConfig({})], and the same with tiling enabled on a given tile. *)
Definition conv_defaults : Conv.config_dict :=
  {| Conv.cd_input_dimensions := None;
     Conv.cd_kernel_sizes := None;
     Conv.cd_num_channels := None;
     Conv.cd_num_filters := None;
     Conv.cd_data_type_size := None;
     Conv.cd_padding := None;
     Conv.cd_stride := None;
     Conv.cd_dilation := None;
     Conv.cd_groups := None;
     Conv.cd_tiling := None;
     Conv.cd_memory_pattern := None |}.

Definition conv_tiled_by (tile : Z * Z) : Conv.ConvConfig :=
  Conv.ConvConfig_init
    {| Conv.cd_input_dimensions := None;
       Conv.cd_kernel_sizes := None;
       Conv.cd_num_channels := None;
       Conv.cd_num_filters := None;
       Conv.cd_data_type_size := None;
       Conv.cd_padding := None;
       Conv.cd_stride := None;
       Conv.cd_dilation := None;
       Conv.cd_groups := None;
       Conv.cd_tiling :=
         Some {| Conv.td_enabled := Some true;
                 Conv.td_input_tile_size := Some tile |};
       Conv.cd_memory_pattern := None |}.

(** Tiling enabled on the default 32 x 32 tile, with the given number of
    channels and every other key absent. *)
Definition conv_default_tile (channels : Z) : Conv.ConvConfig :=
  Conv.ConvConfig_init
    {| Conv.cd_input_dimensions := None;
       Conv.cd_kernel_sizes := None;
       Conv.cd_num_channels := Some channels;
       Conv.cd_num_filters := None;
       Conv.cd_data_type_size := None;
       Conv.cd_padding := None;
       Conv.cd_stride := None;
       Conv.cd_dilation := None;
       Conv.cd_groups := None;
       Conv.cd_tiling :=
         Some {| Conv.td_enabled := Some true;
                 Conv.td_input_tile_size := None |};
       Conv.cd_memory_pattern := None |}.

(** Tiling enabled on the default 32 x 32 tile, with the given numbers of
    channels and filters and every other key absent. *)
Definition conv_tiled_channels (channels filters : Z) : Conv.ConvConfig :=
  Conv.ConvConfig_init
    {| Conv.cd_input_dimensions := None;
       Conv.cd_kernel_sizes := None;
       Conv.cd_num_channels := Some channels;
       Conv.cd_num_filters := Some filters;
       Conv.cd_data_type_size := None;
       Conv.cd_padding := None;
       Conv.cd_stride := None;
       Conv.cd_dilation := None;
       Conv.cd_groups := None;
       Conv.cd_tiling :=
         Some {| Conv.td_enabled := Some true;
                 Conv.td_input_tile_size := None |};
       Conv.cd_memory_pattern := None |}.

(** [GEMMConfig({})], and the same with a given [tiling_size]. *)
Definition gemm_tiled_by (tiling : option Z) : GEMM.GEMMConfig :=
  GEMM.GEMMConfig_init
    {| GEMM.cd_dimensions := None;
       GEMM.cd_data_type_size := None;
       GEMM.cd_tiling_size := tiling |}.

(** The reference profile with other latencies. *)
Definition slow_reference_hardware : HardwareConfig :=
  HardwareConfig_init
    [("dram_size", 32); ("central_sram_size", 512); ("cgra_sram_size", 32);
     ("dram_latency", 400); ("central_sram_latency", 40);
     ("cgra_sram_latency", 4); ("dma_transfer_rate", 16);
     ("bus_frequency", 100); ("cgra_frequency", 100)]%string.

(** The default Conv workload with other inert parameters. *)
Definition dilated_conv : Conv.ConvConfig :=
  Conv.ConvConfig_init
    {| Conv.cd_input_dimensions := None;
       Conv.cd_kernel_sizes := None;
       Conv.cd_num_channels := None;
       Conv.cd_num_filters := None;
       Conv.cd_data_type_size := None;
       Conv.cd_padding := None;
       Conv.cd_stride := None;
       Conv.cd_dilation := Some 2;
       Conv.cd_groups := Some 4;
       Conv.cd_tiling := None;
       Conv.cd_memory_pattern :=
         Some {| Conv.mp_input_layout := Some "NHWC"%string;
                 Conv.mp_kernel_layout := Some "RSCK"%string;
                 Conv.mp_vectorization := Some 8 |} |}.

(** The same Conv workload with tiling switched off. *)
Definition without_tiling (config : Conv.ConvConfig) : Conv.ConvConfig :=
  {| Conv.input_dimensions := Conv.input_dimensions config;
     Conv.kernel_sizes := Conv.kernel_sizes config;
     Conv.num_channels := Conv.num_channels config;
     Conv.num_filters := Conv.num_filters config;
     Conv.data_type_size := Conv.data_type_size config;
     Conv.padding := Conv.padding config;
     Conv.stride := Conv.stride config;
     Conv.dilation := Conv.dilation config;
     Conv.groups := Conv.groups config;
     Conv.tiling_size := None;
     Conv.memory_pattern := Conv.memory_pattern config;
     Conv.input_layout := Conv.input_layout config;
     Conv.kernel_layout := Conv.kernel_layout config;
     Conv.vectorization := Conv.vectorization config |}.

(** A hardware file with every key [convert_hw_config] reads, except that
    [bits_per_cycle] may be absent. *)
Definition hardware_file
  (dram_mb dram_lat central_kb central_lat cgra_kb cgra_lat rate : Z)
  (bits : option Z) (bus cgra : Z) : Main.HwConfigYaml :=
  {| Main.y_hardware :=
       Some {| Main.y_dram :=
                 Some {| Main.y_size := Some dram_mb;
                         Main.y_latency := Some dram_lat |};
               Main.y_central_sram :=
                 Some {| Main.y_size := Some central_kb;
                         Main.y_latency := Some central_lat |};
               Main.y_cgra_sram :=
                 Some {| Main.y_size := Some cgra_kb;
                         Main.y_latency := Some cgra_lat |};
               Main.y_dma := Some {| Main.y_transfer_rate := Some rate |};
               Main.y_bits_per_cycle := bits;
               Main.y_bus_frequency := Some bus;
               Main.y_cgra_frequency := Some cgra |} |}.

(* ================================================================== *)
(** * Facts about binary64 rounding *)
(* ================================================================== *)

Import B64.

Lemma pow2_pos (e : Z) : (0 < pow2 e)%Q.
Proof. apply Qpower_0_lt. reflexivity. Qed.

Lemma pow2_nonzero (e : Z) : ~ (pow2 e == 0)%Q.
Proof. pose proof (pow2_pos e). lra. Qed.

Lemma pow2_add (a b : Z) : (pow2 (a + b) == pow2 a * pow2 b)%Q.
Proof. apply Qpower_plus. discriminate. Qed.

Lemma pow2_le (a b : Z) : a <= b -> (pow2 a <= pow2 b)%Q.
Proof. intros H. apply Qpower_le_compat_l; [exact H | discriminate]. Qed.

Lemma pow2_lt (a b : Z) : a < b -> (pow2 a < pow2 b)%Q.
Proof. intros H. apply Qpower_lt_compat_l; [exact H | reflexivity]. Qed.

Lemma pow2_lt_inv (a b : Z) : (pow2 a < pow2 b)%Q -> a < b.
Proof. intros H. apply (Qpower_lt_compat_l_inv 2); [exact H | reflexivity]. Qed.

Lemma pow2_Z (e : Z) : 0 <= e -> (pow2 e == inject_Z (2 ^ e))%Q.
Proof. intros H. unfold pow2. rewrite Zpower_Qpower by exact H. reflexivity. Qed.

Lemma pow2_0 : (pow2 0 == 1)%Q.
Proof. reflexivity. Qed.

Lemma pow2_succ (e : Z) : (pow2 (e + 1) == 2 * pow2 e)%Q.
Proof. rewrite pow2_add. change (pow2 1) with 2%Q. ring. Qed.

Lemma pow2_div (a b : Z) : (pow2 a / pow2 b == pow2 (a - b))%Q.
Proof.
  unfold pow2. rewrite Qpower_minus by discriminate. reflexivity.
Qed.

(** ** The binary logarithm *)

Lemma Q_as_ratio (a : Q) : (a == inject_Z (Qnum a) / inject_Z (Zpos (Qden a)))%Q.
Proof. destruct a as [n d]. apply Qmake_Qdiv. Qed.

Lemma log2_bracket (n : Z) :
  0 < n -> (pow2 (Z.log2 n) <= inject_Z n /\ inject_Z n < pow2 (Z.log2 n + 1))%Q.
Proof.
  intros Hn. pose proof (Z.log2_spec n Hn) as [Hl Hu].
  pose proof (Z.log2_nonneg n) as H0.
  rewrite !pow2_Z by lia. rewrite <- Zle_Qle, <- Zlt_Qlt.
  split; [exact Hl | exact Hu].
Qed.

Lemma ilog2_spec (a : Q) :
  (0 < a)%Q -> (pow2 (ilog2 a) <= a /\ a < pow2 (ilog2 a + 1))%Q.
Proof.
  intros Ha.
  assert (Hn : 0 < Qnum a).
  { destruct a as [n d]. unfold Qlt in Ha. simpl in *. lia. }
  pose proof (log2_bracket (Qnum a) Hn) as [Hnl Hnu].
  pose proof (log2_bracket (Zpos (Qden a)) eq_refl) as [Hdl Hdu].
  pose proof (Q_as_ratio a) as Ea.
  set (n := inject_Z (Qnum a)) in *.
  set (d := inject_Z (Zpos (Qden a))) in *.
  set (L := Z.log2 (Qnum a)) in *.
  set (D := Z.log2 (Zpos (Qden a))) in *.
  assert (Hd : (0 < d)%Q) by (pose proof (pow2_pos D); lra).
  assert (Hlow : (pow2 (L - D - 1) <= a)%Q).
  { rewrite Ea. apply Qle_shift_div_l; [exact Hd | ].
    apply Qle_trans with (pow2 (L - D - 1) * pow2 (D + 1))%Q.
    - apply Qmult_le_l; [apply pow2_pos | apply Qlt_le_weak, Hdu].
    - rewrite <- pow2_add. replace (L - D - 1 + (D + 1)) with L by ring.
      exact Hnl. }
  assert (Hup : (a < pow2 (L - D + 1))%Q).
  { rewrite Ea. apply Qlt_shift_div_r; [exact Hd | ].
    apply Qlt_le_trans with (pow2 (L - D + 1) * pow2 D)%Q.
    - rewrite <- pow2_add. replace (L - D + 1 + D) with (L + 1) by ring.
      exact Hnu.
    - apply Qmult_le_l; [apply pow2_pos | exact Hdl]. }
  unfold ilog2. fold L D.
  destruct (Qle_bool (pow2 (L - D)) a) eqn:E.
  - apply Qle_bool_iff in E. split; assumption.
  - assert (Hlt : (a < pow2 (L - D))%Q).
    { apply Qnot_le_lt. intros H. apply Qle_bool_iff in H. congruence. }
    replace (L - D - 1 + 1) with (L - D) by ring.
    split; assumption.
Qed.

Lemma ilog2_unique (a : Q) (l : Z) :
  (pow2 l <= a)%Q -> (a < pow2 (l + 1))%Q -> ilog2 a = l.
Proof.
  intros Hl Hu.
  assert (Ha : (0 < a)%Q) by (pose proof (pow2_pos l); lra).
  destruct (ilog2_spec a Ha) as [Hl' Hu'].
  assert (ilog2 a < l + 1) by (apply pow2_lt_inv; lra).
  assert (l < ilog2 a + 1) by (apply pow2_lt_inv; lra).
  lia.
Qed.

Lemma ilog2_mono (a b : Q) : (0 < a)%Q -> (a <= b)%Q -> ilog2 a <= ilog2 b.
Proof.
  intros Ha Hab.
  destruct (ilog2_spec a Ha) as [Hl _].
  destruct (ilog2_spec b) as [_ Hu]; [lra | ].
  assert (ilog2 a < ilog2 b + 1) by (apply pow2_lt_inv; lra).
  lia.
Qed.

Lemma ilog2_compat (a b : Q) : (0 < a)%Q -> (a == b)%Q -> ilog2 a = ilog2 b.
Proof.
  intros Ha E. destruct (ilog2_spec a Ha) as [Hl Hu].
  symmetry. apply ilog2_unique; rewrite <- E; assumption.
Qed.

(** ** Rounding to the nearest integer, ties to even *)

Lemma rne_cases (x : Q) : rne x = Qfloor x \/ rne x = Qfloor x + 1.
Proof.
  unfold rne. destruct (_ ?= _)%Q; [destruct (Z.even _) | | ]; auto.
Qed.

Lemma floor_bracket (x : Q) :
  (inject_Z (Qfloor x) <= x /\ x < inject_Z (Qfloor x) + 1)%Q.
Proof.
  pose proof (Qfloor_le x). pose proof (Qlt_floor x) as H1.
  rewrite inject_Z_plus in H1. change (inject_Z 1) with 1%Q in H1.
  split; assumption.
Qed.

Lemma rne_error (x : Q) :
  (inject_Z (rne x) - (1 # 2) <= x /\ x <= inject_Z (rne x) + (1 # 2))%Q.
Proof.
  destruct (floor_bracket x) as [Hl Hu].
  unfold rne.
  destruct (Qcompare_spec (x - inject_Z (Qfloor x)) (1 # 2)) as [E | E | E];
    [destruct (Z.even (Qfloor x)) | | ];
    rewrite ?inject_Z_plus; change (inject_Z 1) with 1%Q; lra.
Qed.

Lemma rne_compat (x y : Q) : (x == y)%Q -> rne x = rne y.
Proof.
  intros E. unfold rne.
  rewrite (Qfloor_comp _ _ E).
  assert (C : (x - inject_Z (Qfloor y) ?= 1 # 2)%Q
              = (y - inject_Z (Qfloor y) ?= 1 # 2)%Q).
  { apply Qcompare_comp; [rewrite E | ]; reflexivity. }
  rewrite C. reflexivity.
Qed.

Lemma rne_Z (k : Z) : rne (inject_Z k) = k.
Proof.
  unfold rne. rewrite Qfloor_Z.
  destruct (Qcompare_spec (inject_Z k - inject_Z k) (1 # 2)) as [E | E | E];
    [lra | reflexivity | lra].
Qed.

Lemma rne_mono (x y : Q) : (x <= y)%Q -> rne x <= rne y.
Proof.
  intros Hxy.
  pose proof (Qfloor_resp_le _ _ Hxy) as Hf.
  destruct (Z.eq_dec (Qfloor x) (Qfloor y)) as [E | N].
  - unfold rne. rewrite E.
    destruct (Qcompare_spec (x - inject_Z (Qfloor y)) (1 # 2)) as [Ex | Ex | Ex];
    destruct (Qcompare_spec (y - inject_Z (Qfloor y)) (1 # 2)) as [Ey | Ey | Ey];
      destruct (Z.even (Qfloor y)); try lia; lra.
  - destruct (rne_cases x), (rne_cases y); lia.
Qed.

(** ** Rounding a positive rational *)

Lemma ulp_exponent_compat (a b : Q) :
  (0 < a)%Q -> (a == b)%Q -> ulp_exponent a = ulp_exponent b.
Proof.
  intros Ha E. unfold ulp_exponent. rewrite (ilog2_compat a b Ha E).
  reflexivity.
Qed.

Lemma round_pos_compat (a b : Q) :
  (0 < a)%Q -> (a == b)%Q -> (round_pos a == round_pos b)%Q.
Proof.
  intros Ha E. unfold round_pos.
  rewrite (ulp_exponent_compat a b Ha E).
  rewrite (rne_compat (a / pow2 (ulp_exponent b)) (b / pow2 (ulp_exponent b))).
  - reflexivity.
  - rewrite E. reflexivity.
Qed.

Lemma ulp_exponent_upper (a : Q) :
  (0 < a)%Q -> (a < pow2 (ulp_exponent a + 53))%Q.
Proof.
  intros Ha. destruct (ilog2_spec a Ha) as [_ Hu].
  apply Qlt_le_trans with (1 := Hu).
  apply pow2_le. unfold ulp_exponent. lia.
Qed.

Lemma ulp_exponent_lower (a : Q) :
  (0 < a)%Q -> -1074 < ulp_exponent a -> (pow2 (ulp_exponent a + 52) <= a)%Q.
Proof.
  intros Ha He. destruct (ilog2_spec a Ha) as [Hl _].
  apply Qle_trans with (2 := Hl).
  apply pow2_le. unfold ulp_exponent in *. lia.
Qed.

Lemma scale_le (x y : Q) (e : Z) :
  (x <= y * pow2 e)%Q <-> (x / pow2 e <= y)%Q.
Proof.
  pose proof (pow2_pos e) as Hp. split; intros H.
  - apply Qle_shift_div_r; assumption.
  - apply (Qmult_le_r _ _ (pow2 e)) in H; [ | exact Hp].
    unfold Qdiv in H. rewrite <- Qmult_assoc, (Qmult_comm (/ _)) in H.
    rewrite Qmult_inv_r, Qmult_1_r in H by (apply pow2_nonzero).
    exact H.
Qed.

Lemma scale_ge (x y : Q) (e : Z) :
  (y * pow2 e <= x)%Q <-> (y <= x / pow2 e)%Q.
Proof.
  pose proof (pow2_pos e) as Hp. split; intros H.
  - apply Qle_shift_div_l; assumption.
  - apply (Qmult_le_r _ _ (pow2 e)) in H; [ | exact Hp].
    unfold Qdiv in H. rewrite <- Qmult_assoc, (Qmult_comm (/ _)) in H.
    rewrite Qmult_inv_r, Qmult_1_r in H by (apply pow2_nonzero).
    exact H.
Qed.

Lemma round_pos_upper (a : Q) :
  (0 < a)%Q -> (round_pos a <= pow2 (ulp_exponent a + 53))%Q.
Proof.
  intros Ha. unfold round_pos. set (e := ulp_exponent a).
  rewrite (Z.add_comm e 53), pow2_add.
  apply Qmult_le_compat_r; [ | apply Qlt_le_weak, pow2_pos].
  rewrite (pow2_Z 53) by lia.
  rewrite <- Zle_Qle, <- (rne_Z (2 ^ 53)).
  apply rne_mono. rewrite <- pow2_Z by lia.
  apply scale_le. rewrite <- pow2_add, Z.add_comm.
  apply Qlt_le_weak, ulp_exponent_upper, Ha.
Qed.

Lemma round_pos_lower (a : Q) :
  (0 < a)%Q -> -1074 < ulp_exponent a ->
  (pow2 (ulp_exponent a + 52) <= round_pos a)%Q.
Proof.
  intros Ha He. unfold round_pos.
  pose proof (ulp_exponent_lower a Ha He) as Hl.
  set (e := ulp_exponent a) in *.
  rewrite (Z.add_comm e 52), pow2_add.
  apply Qmult_le_compat_r; [ | apply Qlt_le_weak, pow2_pos].
  rewrite (pow2_Z 52) by lia.
  rewrite <- Zle_Qle, <- (rne_Z (2 ^ 52)).
  apply rne_mono. rewrite <- pow2_Z by lia.
  apply scale_ge. rewrite <- pow2_add, Z.add_comm. exact Hl.
Qed.

Lemma round_pos_nonneg (a : Q) : (0 < a)%Q -> (0 <= round_pos a)%Q.
Proof.
  intros Ha. unfold round_pos.
  apply Qmult_le_0_compat; [ | apply Qlt_le_weak, pow2_pos].
  change 0%Q with (inject_Z 0). rewrite <- Zle_Qle, <- (rne_Z 0).
  apply rne_mono. change (inject_Z 0) with 0%Q.
  apply Qle_shift_div_l; [apply pow2_pos | lra].
Qed.

Lemma round_pos_mono (a b : Q) :
  (0 < a)%Q -> (a <= b)%Q -> (round_pos a <= round_pos b)%Q.
Proof.
  intros Ha Hab.
  assert (Hb : (0 < b)%Q) by lra.
  pose proof (ilog2_mono a b Ha Hab) as Hl.
  destruct (Z.eq_dec (ulp_exponent a) (ulp_exponent b)) as [E | N].
  - unfold round_pos. rewrite E.
    apply Qmult_le_compat_r; [ | apply Qlt_le_weak, pow2_pos].
    rewrite <- Zle_Qle. apply rne_mono.
    apply Qmult_le_compat_r; [exact Hab | ].
    apply Qinv_le_0_compat, Qlt_le_weak, pow2_pos.
  - assert (Hlt : ulp_exponent a < ulp_exponent b)
      by (unfold ulp_exponent in *; lia).
    apply Qle_trans with (1 := round_pos_upper a Ha).
    apply Qle_trans with (2 := round_pos_lower b Hb
                                 ltac:(unfold ulp_exponent in *; lia)).
    apply pow2_le. lia.
Qed.

Lemma round_pos_exact (m k : Z) :
  0 < m < 2 ^ 53 -> -1074 <= k ->
  (round_pos (inject_Z m * pow2 k) == inject_Z m * pow2 k)%Q.
Proof.
  intros Hm Hk.
  set (a := (inject_Z m * pow2 k)%Q).
  assert (Hmq : (0 < inject_Z m)%Q).
  { change 0%Q with (inject_Z 0). rewrite <- Zlt_Qlt. lia. }
  assert (Ha : (0 < a)%Q).
  { unfold a. apply Qmult_lt_0_compat; [exact Hmq | apply pow2_pos]. }
  assert (Hup : (a < pow2 (53 + k))%Q).
  { unfold a. rewrite pow2_add.
    apply Qmult_lt_compat_r; [apply pow2_pos | ].
    rewrite pow2_Z by lia. rewrite <- Zlt_Qlt. lia. }
  assert (He : ulp_exponent a <= k).
  { destruct (ilog2_spec a Ha) as [Hl _].
    assert (ilog2 a < 53 + k) by (apply pow2_lt_inv; lra).
    unfold ulp_exponent. lia. }
  unfold round_pos. set (e := ulp_exponent a) in *.
  assert (Es : (a / pow2 e == inject_Z (m * 2 ^ (k - e)))%Q).
  { unfold a. rewrite inject_Z_mult, <- pow2_Z by lia.
    unfold Qdiv. rewrite <- Qmult_assoc.
    apply Qmult_comp; [reflexivity | ].
    apply pow2_div. }
  rewrite (rne_compat _ _ Es), rne_Z.
  rewrite inject_Z_mult, <- pow2_Z by lia.
  unfold a. rewrite <- Qmult_assoc, <- pow2_add.
  replace (k - e + e) with k by ring. reflexivity.
Qed.

Lemma round_pos_error (a : Q) :
  (0 < a)%Q ->
  (Qabs (round_pos a - a) <= pow2 (ulp_exponent a - 1))%Q.
Proof.
  intros Ha. unfold round_pos. set (e := ulp_exponent a).
  pose proof (rne_error (a / pow2 e)) as [Hl Hu].
  pose proof (pow2_pos e) as Hp.
  assert (Eh : (pow2 (e - 1) == (1 # 2) * pow2 e)%Q).
  { rewrite <- (pow2_div e 1). change (pow2 1) with 2%Q. field. }
  set (r := inject_Z (rne (a / pow2 e))) in *.
  assert (Hl' : ((r - (1 # 2)) * pow2 e <= a)%Q) by (apply scale_ge; exact Hl).
  assert (Hu' : (a <= (r + (1 # 2)) * pow2 e)%Q) by (apply scale_le; exact Hu).
  apply Qabs_Qle_condition. rewrite Eh. split; lra.
Qed.

(** ** Rounding *)

Lemma round_0 : round 0 = 0%Q.
Proof. reflexivity. Qed.

Lemma round_of_pos (x : Q) : (0 < x)%Q -> round x = round_pos x.
Proof.
  intros H. unfold round.
  destruct (Qcompare_spec x 0) as [E | E | E]; [lra | lra | reflexivity].
Qed.

Lemma round_of_neg (x : Q) : (x < 0)%Q -> round x = (- round_pos (- x))%Q.
Proof.
  intros H. unfold round.
  destruct (Qcompare_spec x 0) as [E | E | E]; [lra | reflexivity | lra].
Qed.

Lemma round_of_zero (x : Q) : (x == 0)%Q -> round x = 0%Q.
Proof.
  intros H. unfold round.
  destruct (Qcompare_spec x 0) as [E | E | E]; [reflexivity | lra | lra].
Qed.

Lemma round_opp (x : Q) : (round (- x) == - round x)%Q.
Proof.
  destruct (Qcompare_spec x 0) as [E | E | E].
  - rewrite (round_of_zero x E), (round_of_zero (- x)) by lra. reflexivity.
  - rewrite (round_of_neg x E), (round_of_pos (- x)) by lra. ring.
  - rewrite (round_of_pos x E), (round_of_neg (- x)) by lra.
    rewrite (round_pos_compat (- - x) x) by lra. reflexivity.
Qed.

Lemma round_nonneg (x : Q) : (0 <= x)%Q -> (0 <= round x)%Q.
Proof.
  intros H. destruct (Qcompare_spec x 0) as [E | E | E].
  - rewrite (round_of_zero x E). lra.
  - lra.
  - rewrite (round_of_pos x E). apply round_pos_nonneg, E.
Qed.

Lemma round_nonpos (x : Q) : (x <= 0)%Q -> (round x <= 0)%Q.
Proof.
  intros H. pose proof (round_nonneg (- x) ltac:(lra)) as H1.
  rewrite round_opp in H1. lra.
Qed.

Lemma round_mono (x y : Q) : (x <= y)%Q -> (round x <= round y)%Q.
Proof.
  intros Hxy.
  destruct (Qcompare_spec x 0) as [Ex | Ex | Ex];
    destruct (Qcompare_spec y 0) as [Ey | Ey | Ey]; try lra.
  - rewrite (round_of_zero x Ex), (round_of_zero y Ey). lra.
  - rewrite (round_of_zero x Ex). apply round_nonneg. lra.
  - rewrite (round_of_zero y Ey). apply round_nonpos. lra.
  - rewrite (round_of_neg x Ex), (round_of_neg y Ey).
    apply Qopp_le_compat, round_pos_mono; lra.
  - apply Qle_trans with 0%Q; [apply round_nonpos | apply round_nonneg]; lra.
  - rewrite (round_of_pos x Ex), (round_of_pos y Ey).
    apply round_pos_mono; lra.
Qed.

Lemma round_compat (x y : Q) : (x == y)%Q -> (round x == round y)%Q.
Proof.
  intros E. apply Qle_antisym; apply round_mono; lra.
Qed.

#[global] Instance round_proper : Proper (Qeq ==> Qeq) round.
Proof. intros x y E. apply round_compat, E. Qed.

Lemma round_exact (m k : Z) :
  Z.abs m < 2 ^ 53 -> -1074 <= k ->
  (round (inject_Z m * pow2 k) == inject_Z m * pow2 k)%Q.
Proof.
  intros Hm Hk.
  destruct (Z.lt_trichotomy m 0) as [N | [-> | P]].
  - assert (E : (inject_Z m * pow2 k == - (inject_Z (- m) * pow2 k))%Q).
    { rewrite inject_Z_opp. ring. }
    rewrite E, round_opp.
    rewrite (round_of_pos (inject_Z (- m) * pow2 k)).
    + rewrite round_pos_exact by lia. reflexivity.
    + apply Qmult_lt_0_compat; [ | apply pow2_pos].
      change 0%Q with (inject_Z 0). rewrite <- Zlt_Qlt. lia.
  - rewrite round_of_zero; [ | ring]. ring.
  - rewrite round_of_pos.
    + apply round_pos_exact; lia.
    + apply Qmult_lt_0_compat; [ | apply pow2_pos].
      change 0%Q with (inject_Z 0). rewrite <- Zlt_Qlt. lia.
Qed.

Lemma round_pow2 (k : Z) : -1074 <= k -> (round (pow2 k) == pow2 k)%Q.
Proof.
  intros Hk. pose proof (round_exact 1 k eq_refl Hk) as H.
  change (inject_Z 1) with 1%Q in H. rewrite Qmult_1_l in H. exact H.
Qed.

Lemma round_Z (z : Z) :
  Z.abs z <= 2 ^ 53 -> (round (inject_Z z) == inject_Z z)%Q.
Proof.
  intros Hz.
  destruct (Z.eq_dec (Z.abs z) (2 ^ 53)) as [E | N].
  - destruct (Z.abs_eq_or_opp z) as [A | A]; rewrite A in E.
    + rewrite E. rewrite <- pow2_Z by lia. apply round_pow2. lia.
    + assert (Ez : z = - 2 ^ 53) by lia. rewrite Ez.
      rewrite inject_Z_opp, round_opp, <- pow2_Z by lia.
      rewrite round_pow2 by lia. reflexivity.
  - pose proof (round_exact z 0 ltac:(lia) ltac:(lia)) as H.
    rewrite pow2_0, Qmult_1_r in H. exact H.
Qed.

Lemma round_abs_le (x : Q) (k : Z) :
  -1074 <= k -> (Qabs x <= pow2 k)%Q -> (Qabs (round x) <= pow2 k)%Q.
Proof.
  intros Hk H. apply Qabs_Qle_condition in H as [Hl Hu].
  apply Qabs_Qle_condition. split.
  - rewrite <- (round_pow2 k Hk), <- round_opp. apply round_mono, Hl.
  - rewrite <- (round_pow2 k Hk). apply round_mono, Hu.
Qed.

Lemma not_overflows (r : Q) (k : Z) :
  k < 1024 -> (Qabs r <= pow2 k)%Q -> overflows r = false.
Proof.
  intros Hk H. unfold overflows.
  destruct (Qle_bool (pow2 1024) (Qabs r)) eqn:E; [ | reflexivity].
  apply Qle_bool_iff in E. pose proof (pow2_lt k 1024 Hk). lra.
Qed.

Lemma round_pos_error_below (a : Q) (k : Z) :
  (0 < a)%Q -> -1022 <= k -> (a < pow2 (k + 1))%Q ->
  (Qabs (round_pos a - a) <= pow2 (k - 53))%Q.
Proof.
  intros Ha Hk Hu.
  apply Qle_trans with (1 := round_pos_error a Ha).
  apply pow2_le.
  destruct (ilog2_spec a Ha) as [Hl _].
  assert (ilog2 a < k + 1) by (apply pow2_lt_inv; lra).
  unfold ulp_exponent. lia.
Qed.

Lemma round_error (x : Q) (k : Z) :
  -1022 <= k -> (Qabs x < pow2 (k + 1))%Q ->
  (Qabs (round x - x) <= pow2 (k - 53))%Q.
Proof.
  intros Hk Hx.
  destruct (Qcompare_spec x 0) as [E | E | E].
  - rewrite (round_of_zero x E).
    assert (Ez : (0 - x == 0)%Q) by lra.
    rewrite Ez. apply Qlt_le_weak, pow2_pos.
  - rewrite (round_of_neg x E).
    rewrite Qabs_neg in Hx by lra.
    pose proof (round_pos_error_below (- x) k ltac:(lra) Hk Hx) as H.
    assert (Eo : (- round_pos (- x) - x == - (round_pos (- x) - - x))%Q)
      by ring.
    rewrite Eo, Qabs_opp. exact H.
  - rewrite (round_of_pos x E).
    rewrite Qabs_pos in Hx by lra.
    apply round_pos_error_below; assumption.
Qed.

Lemma round_relative_error (x : Q) :
  (pow2 (-1022) <= x)%Q -> (Qabs (round x - x) <= pow2 (-53) * x)%Q.
Proof.
  intros Hx.
  assert (Hp : (0 < x)%Q) by (pose proof (pow2_pos (-1022)); lra).
  destruct (ilog2_spec x Hp) as [Hl Hu].
  assert (Hk : -1022 <= ilog2 x).
  { assert (-1022 < ilog2 x + 1) by (apply pow2_lt_inv; lra). lia. }
  apply Qle_trans with (pow2 (ilog2 x - 53)).
  - apply round_error; [exact Hk | ]. rewrite Qabs_pos by lra. exact Hu.
  - replace (ilog2 x - 53) with (-53 + ilog2 x) by ring.
    rewrite pow2_add.
    apply Qmult_le_l; [apply pow2_pos | exact Hl].
Qed.
(* ================================================================== *)
(** * Facts about Python numbers *)
(* ================================================================== *)

Lemma bind_ok {A B : Type} (m : result A) (k : A -> result B) (b : B) :
  bind m k = Ok b -> exists a, m = Ok a /\ k a = Ok b.
Proof.
  destruct m as [a | e]; cbn [bind]; intros H; [eauto | discriminate].
Qed.

Lemma bind_raises {A B : Type} (m : result A) (k : A -> result B) (e : exn) :
  m = Raise e -> bind m k = Raise e.
Proof. intros ->. reflexivity. Qed.

Lemma Ok_inj {A : Type} (a b : A) : Ok a = Ok b -> a = b.
Proof. intros H. injection H as H. exact H. Qed.

Lemma floordiv_nonzero (a b : Z) : b <> 0 -> floordiv a b = Ok (a / b).
Proof.
  intros Hb. unfold floordiv.
  destruct (Z.eqb_spec b 0) as [E | _]; [contradiction | reflexivity].
Qed.

Lemma floordiv_ok_inv (a b q : Z) :
  floordiv a b = Ok q -> b <> 0 /\ q = a / b.
Proof.
  unfold floordiv. destruct (Z.eqb_spec b 0) as [-> | Hb]; intros H.
  - discriminate.
  - injection H as <-. split; [exact Hb | reflexivity].
Qed.

Lemma inject_Z_pos (z : Z) : 0 < z -> (0 < inject_Z z)%Q.
Proof.
  intros H. change 0%Q with (inject_Z 0). rewrite <- Zlt_Qlt. exact H.
Qed.

Lemma inject_Z_nonneg (z : Z) : 0 <= z -> (0 <= inject_Z z)%Q.
Proof.
  intros H. change 0%Q with (inject_Z 0). rewrite <- Zle_Qle. exact H.
Qed.

Lemma Qabs_inject_Z (z : Z) : Qabs (inject_Z z) = inject_Z (Z.abs z).
Proof. reflexivity. Qed.

Lemma inject_fits (k z : Z) :
  0 <= k -> fits k z -> (Qabs (inject_Z z) <= pow2 k)%Q.
Proof.
  intros Hk Hz. rewrite Qabs_inject_Z, pow2_Z by exact Hk.
  rewrite <- Zle_Qle. exact Hz.
Qed.

Lemma fits_weaken (j k z : Z) : 0 <= j <= k -> fits j z -> fits k z.
Proof.
  unfold fits. intros Hjk Hz.
  apply Z.le_trans with (1 := Hz).
  apply Z.pow_le_mono_r; lia.
Qed.

Lemma Qabs_div_le (x y : Q) : (1 <= Qabs y)%Q -> (Qabs (x / y) <= Qabs x)%Q.
Proof.
  intros Hy. unfold Qdiv. rewrite Qabs_Qmult, Qabs_Qinv.
  pose proof (Qabs_nonneg x) as Hx.
  apply Qle_shift_div_r; [lra | ].
  set (a := Qabs x) in *. set (b := Qabs y) in *. nra.
Qed.

Lemma Qabs_inject_ge_1 (y : Z) : y <> 0 -> (1 <= Qabs (inject_Z y))%Q.
Proof.
  intros Hy. rewrite Qabs_inject_Z. change 1%Q with (inject_Z 1).
  rewrite <- Zle_Qle. lia.
Qed.

(** ** Rounding to a float *)

Lemma nearest64_eq (x : Q) : (nearest64 x == round x)%Q.
Proof. apply Qred_correct. Qed.

Lemma nearest64_compat (x y : Q) : (x == y)%Q -> nearest64 x = nearest64 y.
Proof. intros E. apply Qred_complete, round_compat, E. Qed.

Lemma nearest64_mono (x y : Q) : (x <= y)%Q -> (nearest64 x <= nearest64 y)%Q.
Proof. intros H. rewrite !nearest64_eq. apply round_mono, H. Qed.

Lemma nearest64_Z (z : Z) :
  Z.abs z <= 2 ^ 53 -> (nearest64 (inject_Z z) == inject_Z z)%Q.
Proof. intros H. rewrite nearest64_eq. apply round_Z, H. Qed.

Lemma nearest64_nonneg (x : Q) : (0 <= x)%Q -> (0 <= nearest64 x)%Q.
Proof. intros H. rewrite nearest64_eq. apply round_nonneg, H. Qed.

Lemma nearest64_ge_1 (x : Q) : (1 <= x)%Q -> (1 <= nearest64 x)%Q.
Proof.
  intros H. rewrite nearest64_eq.
  assert (E : (round 1 == 1)%Q) by (apply (round_Z 1); discriminate).
  rewrite <- E. apply round_mono, H.
Qed.

Lemma nearest64_le_1 (x : Q) : (x <= 1)%Q -> (nearest64 x <= 1)%Q.
Proof.
  intros H. rewrite nearest64_eq.
  assert (E : (round 1 == 1)%Q) by (apply (round_Z 1); discriminate).
  rewrite <- E. apply round_mono, H.
Qed.

Lemma round_abs_ge_1 (x : Q) : (1 <= Qabs x)%Q -> (1 <= Qabs (round x))%Q.
Proof.
  intros H.
  assert (E : (round 1 == 1)%Q) by (apply (round_Z 1); discriminate).
  destruct (Qlt_le_dec x 0) as [N | P].
  - rewrite Qabs_neg in H by lra.
    assert (H1 : (round x <= -1)%Q).
    { setoid_replace (-1)%Q with (- round 1)%Q by (rewrite E; reflexivity).
      rewrite <- round_opp. apply round_mono. lra. }
    rewrite Qabs_neg by lra. lra.
  - rewrite Qabs_pos in H by exact P.
    assert (H1 : (1 <= round x)%Q) by (rewrite <- E; apply round_mono, H).
    rewrite Qabs_pos by lra. exact H1.
Qed.

Lemma round_float_finite (x : Q) :
  overflows (round x) = false -> round_float x = Finite (nearest64 x).
Proof. unfold round_float. intros ->. reflexivity. Qed.

Lemma round_float_inv (x q : Q) :
  round_float x = Finite q ->
  q = nearest64 x /\ overflows (round x) = false.
Proof.
  unfold round_float. destruct (overflows (round x)); intros H.
  - discriminate.
  - injection H as <-. split; reflexivity.
Qed.

Lemma round_float_bounded (x : Q) (k : Z) :
  -1074 <= k < 1024 -> (Qabs x <= pow2 k)%Q ->
  round_float x = Finite (nearest64 x).
Proof.
  intros Hk Hx. apply round_float_finite.
  apply not_overflows with k; [lia | ].
  apply round_abs_le; [lia | exact Hx].
Qed.

Lemma nearest64_abs_le (x : Q) (k : Z) :
  -1074 <= k -> (Qabs x <= pow2 k)%Q -> (Qabs (nearest64 x) <= pow2 k)%Q.
Proof.
  intros Hk Hx. rewrite nearest64_eq. apply round_abs_le; assumption.
Qed.


(** ** Conversions and the true division *)

Lemma float_of_int_inv (z : Z) (f : float) :
  float_of_int z = Ok f ->
  f = Finite (nearest64 (inject_Z z))
  /\ overflows (round (inject_Z z)) = false.
Proof.
  unfold float_of_int, round_float.
  destruct (overflows (round (inject_Z z))); intros H.
  - discriminate.
  - injection H as <-. split; reflexivity.
Qed.

Lemma float_of_int_ok (z : Z) :
  fits 1023 z -> float_of_int z = Ok (Finite (nearest64 (inject_Z z))).
Proof.
  intros Hz. unfold float_of_int.
  rewrite (round_float_bounded _ 1023); [reflexivity | lia | ].
  apply inject_fits; [lia | exact Hz].
Qed.

Lemma truediv_int_zero (x : Z) :
  truediv (PyInt x) (PyInt 0) = Raise ZeroDivisionError.
Proof. reflexivity. Qed.

Lemma truediv_int_inv (x y : Z) (f : float) :
  truediv (PyInt x) (PyInt y) = Ok f ->
  y <> 0 /\ f = Finite (nearest64 (inject_Z x / inject_Z y)).
Proof.
  unfold truediv. destruct (Z.eqb_spec y 0) as [E | N]; [discriminate | ].
  unfold round_float.
  destruct (overflows (round (inject_Z x / inject_Z y))); intros H.
  - discriminate.
  - injection H as <-. split; [exact N | reflexivity].
Qed.

Lemma truediv_int_ok (x y : Z) :
  y <> 0 -> fits 1023 x ->
  truediv (PyInt x) (PyInt y)
  = Ok (Finite (nearest64 (inject_Z x / inject_Z y))).
Proof.
  intros Hy Hx. unfold truediv.
  destruct (Z.eqb_spec y 0) as [E | _]; [contradiction | ].
  rewrite (round_float_bounded _ 1023); [reflexivity | lia | ].
  apply Qle_trans with (Qabs (inject_Z x)).
  - apply Qabs_div_le, Qabs_inject_ge_1, Hy.
  - apply inject_fits; [lia | exact Hx].
Qed.


Lemma nearest64_int_nonzero (y : Z) :
  y <> 0 -> Qeq_bool (nearest64 (inject_Z y)) 0 = false.
Proof.
  intros Hy.
  destruct (Qeq_bool (nearest64 (inject_Z y)) 0) eqn:E; [ | reflexivity].
  apply Qeq_bool_iff in E. rewrite nearest64_eq in E.
  pose proof (round_abs_ge_1 _ (Qabs_inject_ge_1 y Hy)) as H.
  rewrite E in H. change (Qabs 0) with 0%Q in H. lra.
Qed.

Lemma truediv_float_inv (q : Q) (y : Z) (f : float) :
  truediv (PyFloat q) (PyInt y) = Ok f ->
  y <> 0 /\ f = round_float (q / nearest64 (inject_Z y)).
Proof.
  unfold truediv, PyFloat. cbn [to_float bind].
  intros H. apply bind_ok in H as (fy & Hy & H).
  apply float_of_int_inv in Hy as (-> & _).
  unfold fdiv in H.
  destruct (Z.eq_dec y 0) as [-> | N]; [discriminate | ].
  rewrite nearest64_int_nonzero in H by exact N.
  apply Ok_inj in H. split; [exact N | symmetry; exact H].
Qed.

Lemma truediv_float_ok (q : Q) (y : Z) :
  y <> 0 -> fits 1023 y ->
  truediv (PyFloat q) (PyInt y)
  = Ok (round_float (q / nearest64 (inject_Z y))).
Proof.
  intros Hy Hf. unfold truediv, PyFloat. cbn [to_float bind].
  rewrite float_of_int_ok by exact Hf. cbn [bind]. unfold fdiv.
  rewrite nearest64_int_nonzero by exact Hy. reflexivity.
Qed.

Lemma truediv_inf_inv (s : bool) (y : Z) (f : float) :
  truediv (Float (Infinity s)) (PyInt y) = Ok f -> exists t, f = Infinity t.
Proof.
  unfold truediv. cbn [to_float bind].
  intros H. apply bind_ok in H as (fy & Hy & H).
  apply float_of_int_inv in Hy as (-> & _).
  unfold fdiv in H.
  destruct (Qeq_bool (nearest64 (inject_Z y)) 0); [discriminate | ].
  apply Ok_inj in H. eauto.
Qed.

Lemma truediv_nan_inv (y : Z) (f : float) :
  truediv (Float NaN) (PyInt y) = Ok f -> f = NaN.
Proof.
  unfold truediv. cbn [to_float bind].
  intros H. apply bind_ok in H as (fy & Hy & H).
  apply float_of_int_inv in Hy as (-> & _).
  unfold fdiv in H.
  destruct (Qeq_bool (nearest64 (inject_Z y)) 0); [discriminate | ].
  apply Ok_inj in H. symmetry. exact H.
Qed.

(** ** [max], [min], [*] and [sum] *)

Lemma max_one (q : Q) :
  max (PyInt 1) (PyFloat q) = if Qle_bool q 1 then PyInt 1 else PyFloat q.
Proof.
  unfold max, lt, PyFloat. cbn [exact below].
  change (inject_Z 1) with 1%Q.
  destruct (Qle_bool q 1); reflexivity.
Qed.

Lemma min_one (q : Q) :
  min (PyFloat 1) (PyFloat q) = if Qle_bool 1 q then PyFloat 1 else PyFloat q.
Proof.
  unfold min, lt, PyFloat. cbn [exact below].
  destruct (Qle_bool 1 q); reflexivity.
Qed.

Lemma mul_int_float_inv (m : Z) (q : Q) (p : number) :
  mul (PyInt m) (PyFloat q) = Ok p ->
  p = Float (round_float (nearest64 (inject_Z m) * q)).
Proof.
  unfold mul, PyFloat. cbn [to_float].
  intros H. apply bind_ok in H as (fm & Hm & H).
  apply float_of_int_inv in Hm as (-> & _).
  cbn [bind fmul] in H. apply Ok_inj in H. symmetry. exact H.
Qed.

Lemma mul_int_float_ok (m : Z) (q : Q) :
  fits 1023 m ->
  mul (PyInt m) (PyFloat q)
  = Ok (Float (round_float (nearest64 (inject_Z m) * q))).
Proof.
  intros Hm. unfold mul, PyFloat. cbn [to_float].
  rewrite float_of_int_ok by exact Hm. reflexivity.
Qed.

Lemma sum_ints (a b c : Z) :
  sum [PyInt a; PyInt b; PyInt c] = Ok (PyInt (a + b + c)).
Proof. reflexivity. Qed.

Lemma sum_float_inv (a b : Z) (f : float) (t : number) :
  sum [PyInt a; PyInt b; Float f] = Ok t ->
  exists s,
    float_of_int (a + b) = Ok (Finite s)
    /\ s = nearest64 (inject_Z (a + b))
    /\ t = Float (fadd (Finite s) f).
Proof.
  unfold sum. cbn [fold_left bind add to_float]. change (0 + a) with a.
  intros H. apply bind_ok in H as (fs & Hs & H).
  pose proof (float_of_int_inv _ _ Hs) as (-> & _).
  cbn [bind] in H. apply Ok_inj in H.
  eexists. split; [exact Hs | split; [reflexivity | symmetry; exact H]].
Qed.

Lemma sum_float_ok (a b : Z) (f : float) :
  fits 1023 (a + b) ->
  sum [PyInt a; PyInt b; Float f]
  = Ok (Float (fadd (Finite (nearest64 (inject_Z (a + b)))) f)).
Proof.
  intros H. unfold sum. cbn [fold_left bind add to_float].
  change (0 + a) with a.
  rewrite float_of_int_ok by exact H. reflexivity.
Qed.
(* ================================================================== *)
(** * The shared primitives of [BaseAnalyzer] *)
(* ================================================================== *)


Lemma Qdiv_le_mono (x y r : Q) : (0 < r)%Q -> (x <= y)%Q -> (x / r <= y / r)%Q.
Proof.
  intros Hr H. apply Qmult_le_compat_r; [exact H | ].
  apply Qinv_le_0_compat. lra.
Qed.

Lemma Zceiling_div (b r : Z) : 0 < r -> - (- b / r) = (b + r - 1) / r.
Proof.
  intros Hr.
  pose proof (Z.div_mod (- b) r ltac:(lia)) as E1.
  pose proof (Z.mod_pos_bound (- b) r Hr) as B1.
  apply Z.div_unique with (r := r - 1 - (- b) mod r); lia.
Qed.

Lemma ceiling_of_int_ratio (b r : Z) :
  0 < r -> Qceiling (inject_Z b / inject_Z r) = (b + r - 1) / r.
Proof.
  intros Hr. unfold Qceiling.
  assert (E : (- (inject_Z b / inject_Z r) == inject_Z (- b) / inject_Z r)%Q).
  { rewrite inject_Z_opp. unfold Qdiv. ring. }
  rewrite (Qfloor_comp _ _ E), <- Zdiv_Qdiv.
  apply Zceiling_div, Hr.
Qed.


Lemma Qceiling_nearest (x : Q) : Qceiling (nearest64 x) = Qceiling (round x).
Proof. apply Qceiling_comp, nearest64_eq. Qed.

Lemma Qceiling_nonneg (x : Q) : (0 <= x)%Q -> 0 <= Qceiling x.
Proof.
  intros H. rewrite Zle_Qle. apply Qle_trans with (1 := H), Qle_ceiling.
Qed.


Lemma transfer_latency_rate (hw1 hw2 : HardwareConfig) (x : number) :
  dma_transfer_rate hw1 = dma_transfer_rate hw2 ->
  _calculate_transfer_latency hw1 x = _calculate_transfer_latency hw2 x.
Proof.
  unfold _calculate_transfer_latency. intros ->. reflexivity.
Qed.

Lemma transfer_int_inv (hw : HardwareConfig) (b c : Z) :
  _calculate_transfer_latency hw (PyInt b) = Ok c ->
  dma_transfer_rate hw <> 0
  /\ c = Qceiling (round (inject_Z b / inject_Z (dma_transfer_rate hw))).
Proof.
  unfold _calculate_transfer_latency. intros H.
  apply bind_ok in H as (q & Hq & H).
  apply truediv_int_inv in Hq as (Hr & ->).
  cbn [ceil_int] in H. apply Ok_inj in H.
  rewrite Qceiling_nearest in H. split; [exact Hr | symmetry; exact H].
Qed.

Lemma transfer_int_ok (hw : HardwareConfig) (b : Z) :
  dma_transfer_rate hw <> 0 -> fits 1023 b ->
  _calculate_transfer_latency hw (PyInt b)
  = Ok (Qceiling (round (inject_Z b / inject_Z (dma_transfer_rate hw)))).
Proof.
  intros Hr Hb. unfold _calculate_transfer_latency.
  rewrite truediv_int_ok by assumption.
  cbn [bind ceil_int]. rewrite Qceiling_nearest. reflexivity.
Qed.

Lemma transfer_float_inv (hw : HardwareConfig) (q : Q) (c : Z) :
  _calculate_transfer_latency hw (PyFloat q) = Ok c ->
  dma_transfer_rate hw <> 0
  /\ c = Qceiling
           (round (q / nearest64 (inject_Z (dma_transfer_rate hw)))).
Proof.
  unfold _calculate_transfer_latency. intros H.
  apply bind_ok in H as (f & Hf & H).
  apply truediv_float_inv in Hf as (Hr & ->).
  unfold round_float in H.
  destruct (overflows _) in H; [discriminate | ].
  cbn [ceil_int] in H. apply Ok_inj in H.
  fold (nearest64 (q / nearest64 (inject_Z (dma_transfer_rate hw)))) in H.
  rewrite Qceiling_nearest in H. split; [exact Hr | symmetry; exact H].
Qed.

Lemma transfer_float_ok (hw : HardwareConfig) (q : Q) :
  dma_transfer_rate hw <> 0 -> fits 1023 (dma_transfer_rate hw) ->
  (Qabs q <= pow2 1023)%Q ->
  _calculate_transfer_latency hw (PyFloat q)
  = Ok (Qceiling (round (q / nearest64 (inject_Z (dma_transfer_rate hw))))).
Proof.
  intros Hr Hf Hq. unfold _calculate_transfer_latency.
  rewrite truediv_float_ok by assumption. cbn [bind].
  rewrite (round_float_bounded _ 1023); [ | lia | ].
  - cbn [ceil_int]. rewrite Qceiling_nearest. reflexivity.
  - apply Qle_trans with (2 := Hq). apply Qabs_div_le.
    rewrite nearest64_eq. apply round_abs_ge_1, Qabs_inject_ge_1, Hr.
Qed.

(** Only a finite byte count yields a cycle count. *)
Lemma transfer_finite (hw : HardwareConfig) (f : float) (c : Z) :
  _calculate_transfer_latency hw (Float f) = Ok c -> exists q, f = Finite q.
Proof.
  unfold _calculate_transfer_latency. intros H.
  apply bind_ok in H as (g & Hg & H).
  destruct f as [q | s | ]; [eauto | | ].
  - apply truediv_inf_inv in Hg as (t & ->). discriminate.
  - apply truediv_nan_inv in Hg as ->. discriminate.
Qed.

Lemma transfer_int_mono (hw : HardwareConfig) (b1 b2 c1 c2 : Z) :
  0 < dma_transfer_rate hw -> b1 <= b2 ->
  _calculate_transfer_latency hw (PyInt b1) = Ok c1 ->
  _calculate_transfer_latency hw (PyInt b2) = Ok c2 ->
  c1 <= c2.
Proof.
  intros Hr Hb H1 H2.
  apply transfer_int_inv in H1 as (_ & ->).
  apply transfer_int_inv in H2 as (_ & ->).
  apply Qceiling_resp_le, round_mono, Qdiv_le_mono.
  - apply inject_Z_pos, Hr.
  - rewrite <- Zle_Qle. exact Hb.
Qed.

Lemma nearest64_rate_pos (r : Z) : 0 < r -> (0 < nearest64 (inject_Z r))%Q.
Proof.
  intros Hr.
  apply Qlt_le_trans with 1%Q; [reflexivity | ].
  apply nearest64_ge_1. change 1%Q with (inject_Z 1).
  rewrite <- Zle_Qle. lia.
Qed.

Lemma transfer_float_mono (hw : HardwareConfig) (q1 q2 : Q) (c1 c2 : Z) :
  0 < dma_transfer_rate hw -> (q1 <= q2)%Q ->
  _calculate_transfer_latency hw (PyFloat q1) = Ok c1 ->
  _calculate_transfer_latency hw (PyFloat q2) = Ok c2 ->
  c1 <= c2.
Proof.
  intros Hr Hq H1 H2.
  apply transfer_float_inv in H1 as (_ & ->).
  apply transfer_float_inv in H2 as (_ & ->).
  apply Qceiling_resp_le, round_mono, Qdiv_le_mono.
  - apply nearest64_rate_pos, Hr.
  - exact Hq.
Qed.

Lemma reference_hardware_positive : positive_hardware reference_hardware.
Proof.
  unfold positive_hardware. repeat split.
Qed.

(** ** Utilization *)



Lemma utilization_inv (hw : HardwareConfig) (t : Z) (u : Utilization) :
  _calculate_memory_utilization hw t = Ok u ->
  (cgra_sram_size hw <> 0 /\ central_sram_size hw <> 0 /\ dram_size hw <> 0)
  /\ u = {| util_cgra_sram :=
              min (PyFloat 1)
                (PyFloat (nearest64 (inject_Z t
                                     / inject_Z (cgra_sram_size hw))));
            util_central_sram :=
              min (PyFloat 1)
                (PyFloat (nearest64 (inject_Z t
                                     / inject_Z (central_sram_size hw))));
            util_dram :=
              min (PyFloat 1)
                (PyFloat (nearest64 (inject_Z t
                                     / inject_Z (dram_size hw)))) |}.
Proof.
  unfold _calculate_memory_utilization. intros H.
  apply bind_ok in H as (a & Ha & H).
  apply bind_ok in H as (b & Hb & H).
  apply bind_ok in H as (c & Hc & H).
  apply truediv_int_inv in Ha as (Na & ->).
  apply truediv_int_inv in Hb as (Nb & ->).
  apply truediv_int_inv in Hc as (Nc & ->).
  apply Ok_inj in H. subst u. split; [auto | reflexivity].
Qed.

Lemma utilization_ok (hw : HardwareConfig) (t : Z) :
  cgra_sram_size hw <> 0 -> central_sram_size hw <> 0 -> dram_size hw <> 0 ->
  fits 1023 t ->
  exists u, _calculate_memory_utilization hw t = Ok u.
Proof.
  intros Ha Hb Hc Ht. unfold _calculate_memory_utilization.
  rewrite !truediv_int_ok by assumption. cbn [bind]. eauto.
Qed.







(* ================================================================== *)
(** * Magnitudes *)
(* ================================================================== *)

Lemma fits_mul (a b x y : Z) :
  0 <= a -> 0 <= b -> fits a x -> fits b y -> fits (a + b) (x * y).
Proof.
  unfold fits. intros Ha Hb Hx Hy.
  rewrite Z.abs_mul, Z.pow_add_r by assumption.
  apply Z.mul_le_mono_nonneg; try assumption; apply Z.abs_nonneg.
Qed.

Lemma fits_add (a b x y : Z) :
  0 <= a -> 0 <= b -> fits a x -> fits b y -> fits (Z.max a b + 1) (x + y).
Proof.
  unfold fits. intros Ha Hb Hx Hy.
  rewrite Z.pow_add_r by lia. change (2 ^ 1) with 2.
  assert (2 ^ a <= 2 ^ Z.max a b) by (apply Z.pow_le_mono_r; lia).
  assert (2 ^ b <= 2 ^ Z.max a b) by (apply Z.pow_le_mono_r; lia).
  lia.
Qed.

Lemma fits_sub (a b x y : Z) :
  0 <= a -> 0 <= b -> fits a x -> fits b y -> fits (Z.max a b + 1) (x - y).
Proof.
  unfold fits. intros Ha Hb Hx Hy.
  rewrite Z.pow_add_r by lia. change (2 ^ 1) with 2.
  assert (2 ^ a <= 2 ^ Z.max a b) by (apply Z.pow_le_mono_r; lia).
  assert (2 ^ b <= 2 ^ Z.max a b) by (apply Z.pow_le_mono_r; lia).
  lia.
Qed.

Lemma fits_min (a b x y : Z) :
  0 <= a -> 0 <= b -> fits a x -> fits b y -> fits (Z.max a b) (Z.min x y).
Proof.
  unfold fits. intros Ha Hb Hx Hy.
  assert (2 ^ a <= 2 ^ Z.max a b) by (apply Z.pow_le_mono_r; lia).
  assert (2 ^ b <= 2 ^ Z.max a b) by (apply Z.pow_le_mono_r; lia).
  lia.
Qed.

Lemma Zabs_div_le (x y : Z) : Z.abs (x / y) <= Z.abs x.
Proof.
  destruct (Z.eq_dec y 0) as [-> | Hy].
  - rewrite Z.div_0_r. lia.
  - pose proof (Z.div_mod x y Hy) as E.
    destruct (Z.lt_trichotomy y 0) as [N | [Z0 | P]]; [ | lia | ].
    + pose proof (Z.mod_neg_bound x y N) as B. nia.
    + pose proof (Z.mod_pos_bound x y P) as B. nia.
Qed.

Lemma fits_div (a x y : Z) : fits a x -> fits a (x / y).
Proof.
  unfold fits. intros Hx. pose proof (Zabs_div_le x y). lia.
Qed.

Lemma fits_small (z : Z) : Z.abs z <= 4 -> fits 2 z.
Proof. unfold fits. intros H. exact H. Qed.

Lemma fits_option (a : Z) (o : option Z) (z : Z) :
  match o with Some t => fits a t | None => True end ->
  o = Some z -> fits a z.
Proof. intros H ->. exact H. Qed.

(** Bounds an arithmetic expression from the bounds of its leaves. *)
Ltac fits_expr :=
  lazymatch goal with
  | |- fits _ (_ * _) => eapply fits_mul; [ | | fits_expr | fits_expr]
  | |- fits _ (_ + _) => eapply fits_add; [ | | fits_expr | fits_expr]
  | |- fits _ (_ - _) => eapply fits_sub; [ | | fits_expr | fits_expr]
  | |- fits _ (_ / _) => eapply fits_div; fits_expr
  | |- fits _ (Z.min _ _) => eapply fits_min; [ | | fits_expr | fits_expr]
  | |- fits _ _ =>
      first [eassumption | apply fits_small; simpl; lia]
  end.

Ltac fits_bound :=
  eapply fits_weaken; [ | fits_expr]; lia.

Lemma Qceiling_fits (x : Q) (k : Z) :
  0 <= k -> (Qabs x <= pow2 k)%Q -> fits k (Qceiling x).
Proof.
  intros Hk Hx. apply Qabs_Qle_condition in Hx as [Hl Hu].
  rewrite pow2_Z in Hl, Hu by exact Hk.
  unfold fits.
  assert (Qceiling x <= 2 ^ k).
  { rewrite <- (Qceiling_Z (2 ^ k)). apply Qceiling_resp_le, Hu. }
  assert (- 2 ^ k <= Qceiling x).
  { rewrite <- (Qceiling_Z (- 2 ^ k)). apply Qceiling_resp_le.
    rewrite inject_Z_opp. exact Hl. }
  lia.
Qed.

Lemma ratio_fits (x y k : Z) :
  0 <= k -> y <> 0 -> fits k x ->
  (Qabs (inject_Z x / inject_Z y) <= pow2 k)%Q.
Proof.
  intros Hk Hy Hx.
  apply Qle_trans with (Qabs (inject_Z x)).
  - apply Qabs_div_le, Qabs_inject_ge_1, Hy.
  - apply inject_fits; assumption.
Qed.

(** The cycles of an integer byte count are no larger than the count. *)
Lemma transfer_int_fits (hw : HardwareConfig) (b k : Z) :
  dma_transfer_rate hw <> 0 -> 0 <= k <= 1023 -> fits k b ->
  exists c, _calculate_transfer_latency hw (PyInt b) = Ok c /\ fits k c.
Proof.
  intros Hr Hk Hb. eexists. split.
  - apply transfer_int_ok; [exact Hr | ].
    apply fits_weaken with k; [lia | exact Hb].
  - apply Qceiling_fits; [lia | ].
    apply round_abs_le; [lia | ].
    apply ratio_fits; [lia | exact Hr | exact Hb].
Qed.

(* ================================================================== *)
(** * The reload factor and the scaled transfer *)
(* ================================================================== *)

Lemma max_one_finite (q : Q) :
  max (PyInt 1) (Float (Finite q))
  = if Qle_bool q 1 then PyInt 1 else PyFloat q.
Proof. apply max_one. Qed.

Lemma mul_one (m : Z) : mul (PyInt m) (PyInt 1) = Ok (PyInt m).
Proof. unfold mul. rewrite Z.mul_1_r. reflexivity. Qed.

(** What a returned scaled transfer is: with a rounded ratio [q] of at most
    1 the cycles of the unscaled integer total; otherwise those of the
    float product. *)
Lemma scaled_transfer_inv (hw : HardwareConfig) (moved ws c : Z) :
  scaled_transfer hw moved ws = Ok c ->
  let q := nearest64 (inject_Z ws / inject_Z (cgra_sram_size hw)) in
  cgra_sram_size hw <> 0 /\ dma_transfer_rate hw <> 0
  /\ (if Qle_bool q 1
      then _calculate_transfer_latency hw (PyInt moved) = Ok c
      else _calculate_transfer_latency hw
             (PyFloat (nearest64 (nearest64 (inject_Z moved) * q))) = Ok c).
Proof.
  intros H q. unfold scaled_transfer in H.
  apply bind_ok in H as (ratio & Hratio & H).
  apply truediv_int_inv in Hratio as (Hcap & ->). fold q in H.
  apply bind_ok in H as (p & Hp & H).
  rewrite max_one_finite in Hp.
  destruct (Qle_bool q 1).
  - rewrite mul_one in Hp. apply Ok_inj in Hp. subst p.
    pose proof (transfer_int_inv _ _ _ H) as (Hr & _). auto.
  - apply mul_int_float_inv in Hp. subst p.
    destruct (transfer_finite _ _ _ H) as (p & Ep).
    rewrite Ep in H. apply round_float_inv in Ep as (-> & _).
    pose proof (transfer_float_inv _ _ _ H) as (Hr & _). auto.
Qed.

(** The scaled transfer returns on bounded operands. *)
Lemma scaled_transfer_ok (hw : HardwareConfig) (moved ws : Z) :
  cgra_sram_size hw <> 0 -> dma_transfer_rate hw <> 0 ->
  fits 1023 (dma_transfer_rate hw) -> fits 511 moved -> fits 511 ws ->
  exists c, scaled_transfer hw moved ws = Ok c /\ fits 1022 c.
Proof.
  intros Hcap Hr Hrf Hm Hw. unfold scaled_transfer.
  rewrite truediv_int_ok
    by (first [exact Hcap | apply fits_weaken with 511; [lia | exact Hw]]).
  cbn [bind]. rewrite max_one_finite.
  set (q := nearest64 (inject_Z ws / inject_Z (cgra_sram_size hw))).
  assert (Hq : (Qabs q <= pow2 511)%Q).
  { apply nearest64_abs_le; [lia | ].
    apply ratio_fits; [lia | exact Hcap | exact Hw]. }
  destruct (Qle_bool q 1).
  - rewrite mul_one. cbn [bind].
    destruct (transfer_int_fits hw moved 511 Hr ltac:(lia) Hm) as (c & Hc & Fc).
    exists c. split; [exact Hc | ].
    apply fits_weaken with 511; [lia | exact Fc].
  - rewrite mul_int_float_ok
      by (apply fits_weaken with 511; [lia | exact Hm]).
    cbn [bind].
    set (x := (nearest64 (inject_Z moved) * q)%Q).
    assert (Hx : (Qabs x <= pow2 1022)%Q).
    { unfold x. rewrite Qabs_Qmult.
      change 1022 with (511 + 511). rewrite pow2_add.
      apply Qmult_le_compat_nonneg.
      - split; [apply Qabs_nonneg | ].
        apply nearest64_abs_le; [lia | ].
        apply inject_fits; [lia | exact Hm].
      - split; [apply Qabs_nonneg | exact Hq]. }
    rewrite (round_float_bounded x 1022) by (first [lia | exact Hx]).
    fold (PyFloat (nearest64 x)).
    assert (Hn : (Qabs (nearest64 x) <= pow2 1022)%Q)
      by (apply nearest64_abs_le; [lia | exact Hx]).
    rewrite transfer_float_ok; try assumption.
    + eexists. split; [reflexivity | ].
      apply Qceiling_fits; [lia | ].
      apply round_abs_le; [lia | ].
      apply Qle_trans with (2 := Hn). apply Qabs_div_le.
      rewrite nearest64_eq. apply round_abs_ge_1, Qabs_inject_ge_1, Hr.
    + apply Qle_trans with (1 := Hn). apply pow2_le. lia.
Qed.

Lemma ratio_le_1 (t cap : Z) :
  0 < cap -> t <= cap -> (inject_Z t / inject_Z cap <= 1)%Q.
Proof.
  intros Hc H. apply Qle_shift_div_r; [apply inject_Z_pos, Hc | ].
  rewrite Qmult_1_l, <- Zle_Qle. exact H.
Qed.

Lemma ratio_mono (a b cap : Z) :
  0 < cap -> a <= b ->
  (inject_Z a / inject_Z cap <= inject_Z b / inject_Z cap)%Q.
Proof.
  intros Hc H. apply Qdiv_le_mono; [apply inject_Z_pos, Hc | ].
  rewrite <- Zle_Qle. exact H.
Qed.

(** A working set that fits the buffer leaves the transfer unscaled. *)
Lemma reload_is_one (ws cap : Z) :
  0 < cap -> ws <= cap ->
  Qle_bool (nearest64 (inject_Z ws / inject_Z cap)) 1 = true.
Proof.
  intros Hc H. apply Qle_bool_iff, nearest64_le_1, ratio_le_1; assumption.
Qed.


(** Scaling never shortens the transfer, for totals and rates that binary64
    holds exactly. *)
Lemma scaled_transfer_dominates (hw : HardwareConfig) (moved ws d c : Z) :
  0 < dma_transfer_rate hw <= 2 ^ 53 -> 0 <= moved <= 2 ^ 53 ->
  _calculate_transfer_latency hw (PyInt moved) = Ok d ->
  scaled_transfer hw moved ws = Ok c ->
  d <= c.
Proof.
  intros Hr Hm Hd H. apply scaled_transfer_inv in H as (_ & _ & H).
  set (q := nearest64 (inject_Z ws / inject_Z (cgra_sram_size hw))) in *.
  destruct (Qle_bool q 1) eqn:E.
  - rewrite H in Hd. apply Ok_inj in Hd. lia.
  - assert (Hq : (1 < q)%Q).
    { apply Qnot_le_lt. intros L. apply Qle_bool_iff in L. congruence. }
    apply transfer_int_inv in Hd as (_ & ->).
    apply transfer_float_inv in H as (_ & ->).
    apply Qceiling_resp_le, round_mono.
    pose proof (nearest64_Z (dma_transfer_rate hw) ltac:(lia)) as Er.
    pose proof (nearest64_Z moved ltac:(lia)) as Em.
    rewrite Er. apply Qdiv_le_mono; [apply inject_Z_pos; lia | ].
    rewrite <- Em at 1. apply nearest64_mono.
    rewrite Em.
    pose proof (inject_Z_nonneg moved ltac:(lia)) as M0.
    set (m := inject_Z moved) in *. nra.
Qed.

(** The scaled transfer is monotone in the total and in the working set,
    for totals and rates that binary64 holds exactly. *)
Lemma scaled_transfer_mono (hw : HardwareConfig) (m1 m2 ws1 ws2 c1 c2 : Z) :
  0 < cgra_sram_size hw -> 0 < dma_transfer_rate hw <= 2 ^ 53 ->
  0 <= m1 <= m2 -> m1 <= 2 ^ 53 -> ws1 <= ws2 ->
  scaled_transfer hw m1 ws1 = Ok c1 ->
  scaled_transfer hw m2 ws2 = Ok c2 ->
  c1 <= c2.
Proof.
  intros Hc Hr Hm Hm1 Hw H1 H2.
  apply scaled_transfer_inv in H1 as (_ & _ & H1).
  apply scaled_transfer_inv in H2 as (_ & _ & H2).
  pose proof (nearest64_mono _ _ (ratio_mono ws1 ws2 _ Hc Hw)) as Hq.
  set (q1 := nearest64 (inject_Z ws1 / inject_Z (cgra_sram_size hw))) in *.
  set (q2 := nearest64 (inject_Z ws2 / inject_Z (cgra_sram_size hw))) in *.
  assert (M : (inject_Z m1 <= inject_Z m2)%Q) by (rewrite <- Zle_Qle; lia).
  pose proof (inject_Z_nonneg m1 ltac:(lia)) as M0.
  pose proof (nearest64_mono _ _ M) as NM.
  pose proof (nearest64_nonneg _ M0) as N0.
  destruct (Qle_bool q1 1) eqn:E1; destruct (Qle_bool q2 1) eqn:E2.
  - apply (transfer_int_mono hw m1 m2); (lia || assumption).
  - assert (L2 : (1 < q2)%Q).
    { apply Qnot_le_lt. intros L. apply Qle_bool_iff in L. congruence. }
    apply transfer_int_inv in H1 as (_ & ->).
    apply transfer_float_inv in H2 as (_ & ->).
    apply Qceiling_resp_le, round_mono.
    pose proof (nearest64_Z (dma_transfer_rate hw) ltac:(lia)) as Er.
    pose proof (nearest64_Z m1 ltac:(lia)) as Em.
    rewrite Er. apply Qdiv_le_mono; [apply inject_Z_pos; lia | ].
    rewrite <- Em at 1. apply nearest64_mono.
    rewrite Em in NM.
    set (a := inject_Z m1) in *. set (b := nearest64 (inject_Z m2)) in *.
    nra.
  - apply Qle_bool_iff in E2.
    assert (L1 : (1 < q1)%Q).
    { apply Qnot_le_lt. intros L. apply Qle_bool_iff in L. congruence. }
    lra.
  - assert (L1 : (1 < q1)%Q).
    { apply Qnot_le_lt. intros L. apply Qle_bool_iff in L. congruence. }
    apply (transfer_float_mono hw) with (3 := H1) (4 := H2); [lia | ].
    apply nearest64_mono.
    set (a := nearest64 (inject_Z m1)) in *.
    set (b := nearest64 (inject_Z m2)) in *.
    nra.
Qed.

(* ================================================================== *)
(** * The GEMM analysis *)
(* ================================================================== *)

Lemma bounded_hardware_rate (hw : HardwareConfig) :
  bounded_hardware hw ->
  dma_transfer_rate hw <> 0 /\ fits 1023 (dma_transfer_rate hw).
Proof.
  intros ((_ & _ & _ & Hr) & Hb). unfold fits. split; lia.
Qed.

Lemma gemm_loads_defined (dim : Z) (config : GEMM.GEMMConfig) (m : Z) :
  exists loads,
    GEMM.if_tiling (GEMM.tiling_size config)
      (fun tile_size => GEMM.tiled_loads dim tile_size config)
      (Ok (GEMM.untiled_loads m)) = Ok loads.
Proof.
  unfold GEMM.if_tiling.
  destruct (GEMM.tiling_size config) as [t | ]; [ | eauto].
  destruct (Z.eqb_spec t 0) as [_ | Ht]; [eauto | ].
  unfold GEMM.tiled_loads.
  rewrite floordiv_nonzero by exact Ht. cbn [bind]. eauto.
Qed.

Lemma gemm_tiled_loads_value (dim t : Z) (config : GEMM.GEMMConfig) :
  t <> 0 ->
  let n := (dim + t - 1) / t in
  let bytes := t * t * GEMM.data_type_size config * n * n in
  GEMM.tiled_loads dim t config
  = Ok {| GEMM.a_load := bytes; GEMM.b_load := bytes;
          GEMM.c_load := bytes; GEMM.c_store := bytes |}.
Proof.
  intros Ht. unfold GEMM.tiled_loads.
  rewrite floordiv_nonzero by exact Ht. reflexivity.
Qed.

(** The loads of a bounded GEMM point are bounded. *)
Lemma gemm_loads_fit (dim : Z) (config : GEMM.GEMMConfig) (m : Z)
  (loads : GEMM.Loads) :
  gemm_in_range config dim -> fits 200 m ->
  GEMM.if_tiling (GEMM.tiling_size config)
    (fun tile_size => GEMM.tiled_loads dim tile_size config)
    (Ok (GEMM.untiled_loads m)) = Ok loads ->
  fits 400 (GEMM.loads_total loads).
Proof.
  intros (Hd & He & Ht) Hm. unfold GEMM.if_tiling.
  destruct (GEMM.tiling_size config) as [t | ].
  - destruct (Z.eqb_spec t 0) as [_ | Hz]; intros H.
    + apply Ok_inj in H. subst loads.
      unfold GEMM.loads_total, GEMM.untiled_loads.
      cbv beta iota delta
        [GEMM.a_load GEMM.b_load GEMM.c_load GEMM.c_store].
      fits_bound.
    + rewrite gemm_tiled_loads_value in H by exact Hz.
      apply Ok_inj in H. subst loads.
      unfold GEMM.loads_total.
      cbv beta iota delta
        [GEMM.a_load GEMM.b_load GEMM.c_load GEMM.c_store].
      fits_bound.
  - intros H. apply Ok_inj in H. subst loads.
    unfold GEMM.loads_total, GEMM.untiled_loads.
    cbv beta iota delta [GEMM.a_load GEMM.b_load GEMM.c_load GEMM.c_store].
    fits_bound.
Qed.

Lemma gemm_working_set_eq (config : GEMM.GEMMConfig) (m : Z) :
  GEMM.if_tiling (GEMM.tiling_size config)
    (fun tile_size =>
       (2 * tile_size * tile_size + tile_size * tile_size)
       * GEMM.data_type_size config)
    (Z.min (m * 3) (3 * m))
  = gemm_working_set config (m * 3).
Proof.
  unfold GEMM.if_tiling, gemm_working_set.
  replace (Z.min (m * 3) (3 * m)) with (m * 3) by lia.
  reflexivity.
Qed.

Lemma gemm_working_set_fits (config : GEMM.GEMMConfig) (dim m : Z) :
  gemm_in_range config dim -> fits 200 m ->
  fits 400 (gemm_working_set config (m * 3)).
Proof.
  intros (Hd & He & Ht) Hm. unfold gemm_working_set.
  destruct (GEMM.tiling_size config) as [t | ]; [ | fits_bound].
  destruct (t =? 0); fits_bound.
Qed.

(** What a returned GEMM latency record holds. *)
Lemma gemm_latency_inv (hw : HardwareConfig) (dim : Z)
  (mem_req : GEMM.MemReq) (config : GEMM.GEMMConfig)
  (r : GEMM.MemoryLatencies) :
  GEMM.calculate_memory_access_latency hw dim mem_req config = Ok r ->
  let total_size := GEMM.per_matrix mem_req * 3 in
  let d := GEMM.debug_info r in
  let moved :=
    GEMM.matrix_a_load d + GEMM.matrix_b_load d + GEMM.matrix_c_load d
    + GEMM.matrix_c_store d in
  (if total_size <=? central_sram_size hw then GEMM.dram_to_central r = 0
   else _calculate_transfer_latency hw (PyInt moved)
        = Ok (GEMM.dram_to_central r))
  /\ GEMM.working_set d = gemm_working_set config total_size
  /\ GEMM.reloads d
     = max (PyInt 1)
         (PyFloat (nearest64 (inject_Z (GEMM.working_set d)
                              / inject_Z (cgra_sram_size hw))))
  /\ scaled_transfer hw moved (GEMM.working_set d)
     = Ok (GEMM.central_to_cgra r).
Proof.
  unfold GEMM.calculate_memory_access_latency.
  rewrite gemm_working_set_eq.
  intros H.
  apply bind_ok in H as (pl & Hpl & H).
  apply bind_ok in H as (ratio & Hratio & H).
  apply bind_ok in H as (p & Hp & H).
  apply bind_ok in H as (c & Hc & H).
  apply Ok_inj in H. subst r.
  cbv beta iota zeta delta
    [GEMM.debug_info GEMM.matrix_a_load GEMM.matrix_b_load
     GEMM.matrix_c_load GEMM.matrix_c_store GEMM.working_set GEMM.reloads
     GEMM.dram_to_central GEMM.central_to_cgra].
  assert (Hmoved :
    GEMM.p_total_central_cgra pl = GEMM.loads_total (GEMM.p_loads pl)
    /\ (if GEMM.per_matrix mem_req * 3 <=? central_sram_size hw
        then GEMM.p_dram_to_central pl = 0
        else _calculate_transfer_latency hw
               (PyInt (GEMM.loads_total (GEMM.p_loads pl)))
             = Ok (GEMM.p_dram_to_central pl))).
  { destruct (GEMM.per_matrix mem_req * 3 <=? central_sram_size hw).
    - apply bind_ok in Hpl as (loads & _ & Hpl).
      apply Ok_inj in Hpl. subst pl. split; reflexivity.
    - apply bind_ok in Hpl as (loads & _ & Hpl).
      apply bind_ok in Hpl as (c' & Hc' & Hpl).
      apply Ok_inj in Hpl. subst pl. split; [reflexivity | exact Hc']. }
  destruct Hmoved as (Hm & Hd).
  unfold GEMM.loads_total in Hm, Hd.
  split; [exact Hd | split; [reflexivity | ]].
  pose proof (truediv_int_inv _ _ _ Hratio) as (_ & Er).
  split; [rewrite Er; reflexivity | ].
  unfold scaled_transfer. rewrite Hratio. cbn [bind].
  rewrite <- Hm, Hp. cbn [bind]. exact Hc.
Qed.

(** The four loads a returned GEMM latency record reports are those of the
    tiling branch. *)
Lemma gemm_latency_loads_inv (hw : HardwareConfig) (dim : Z)
  (mem_req : GEMM.MemReq) (config : GEMM.GEMMConfig)
  (r : GEMM.MemoryLatencies) :
  GEMM.calculate_memory_access_latency hw dim mem_req config = Ok r ->
  GEMM.if_tiling (GEMM.tiling_size config)
    (fun tile_size => GEMM.tiled_loads dim tile_size config)
    (Ok (GEMM.untiled_loads (GEMM.per_matrix mem_req)))
  = Ok {| GEMM.a_load := GEMM.matrix_a_load (GEMM.debug_info r);
          GEMM.b_load := GEMM.matrix_b_load (GEMM.debug_info r);
          GEMM.c_load := GEMM.matrix_c_load (GEMM.debug_info r);
          GEMM.c_store := GEMM.matrix_c_store (GEMM.debug_info r) |}.
Proof.
  unfold GEMM.calculate_memory_access_latency. intros H.
  apply bind_ok in H as (pl & Hpl & H).
  apply bind_ok in H as (ratio & _ & H).
  apply bind_ok in H as (p & _ & H).
  apply bind_ok in H as (c & _ & H).
  apply Ok_inj in H. subst r.
  cbv beta iota delta
    [GEMM.debug_info GEMM.matrix_a_load GEMM.matrix_b_load
     GEMM.matrix_c_load GEMM.matrix_c_store].
  assert (Hl :
    GEMM.if_tiling (GEMM.tiling_size config)
      (fun tile_size => GEMM.tiled_loads dim tile_size config)
      (Ok (GEMM.untiled_loads (GEMM.per_matrix mem_req)))
    = Ok (GEMM.p_loads pl)).
  { destruct (GEMM.per_matrix mem_req * 3 <=? central_sram_size hw).
    - apply bind_ok in Hpl as (loads & Hl & Hpl).
      apply Ok_inj in Hpl. subst pl. exact Hl.
    - apply bind_ok in Hpl as (loads & Hl & Hpl).
      apply bind_ok in Hpl as (c' & _ & Hpl).
      apply Ok_inj in Hpl. subst pl. exact Hl. }
  rewrite Hl. destruct (GEMM.p_loads pl). reflexivity.
Qed.

(** With a non-zero local SRAM size and a non-zero DMA rate of at most
    [2^1023] the GEMM latency computation of a bounded point returns, with
    bounded cycle counts. *)
Lemma gemm_latency_returns (hw : HardwareConfig) (dim : Z)
  (mem_req : GEMM.MemReq) (config : GEMM.GEMMConfig) :
  cgra_sram_size hw <> 0 -> dma_transfer_rate hw <> 0 ->
  fits 1023 (dma_transfer_rate hw) ->
  gemm_in_range config dim ->
  fits 200 (GEMM.per_matrix mem_req) ->
  exists r,
    GEMM.calculate_memory_access_latency hw dim mem_req config = Ok r
    /\ fits 400 (GEMM.dram_to_central r)
    /\ fits 1022 (GEMM.central_to_cgra r).
Proof.
  intros Hl Hr Hrf Hin Hm.
  unfold GEMM.calculate_memory_access_latency.
  rewrite gemm_working_set_eq.
  destruct (gemm_loads_defined dim config (GEMM.per_matrix mem_req))
    as (loads & Hloads).
  pose proof (gemm_loads_fit dim config _ loads Hin Hm Hloads) as Fl.
  pose proof (gemm_working_set_fits config dim _ Hin Hm) as Fw.
  rewrite Hloads. cbn [bind].
  destruct (scaled_transfer_ok hw (GEMM.loads_total loads)
              (gemm_working_set config (GEMM.per_matrix mem_req * 3)))
    as (c & Hc & Fc);
    [exact Hl | exact Hr | exact Hrf
     | apply fits_weaken with 400; [lia | exact Fl]
     | apply fits_weaken with 400; [lia | exact Fw] | ].
  unfold scaled_transfer in Hc.
  apply bind_ok in Hc as (ratio & Hratio & Hc).
  apply bind_ok in Hc as (p & Hp & Hc).
  destruct (GEMM.per_matrix mem_req * 3 <=? central_sram_size hw).
  - cbn [bind GEMM.p_total_central_cgra GEMM.p_dram_to_central GEMM.p_loads].
    rewrite Hratio. cbn [bind]. rewrite Hp. cbn [bind].
    rewrite Hc. cbn [bind].
    eexists. split; [reflexivity | ].
    cbv beta iota delta [GEMM.dram_to_central GEMM.central_to_cgra].
    split; [unfold fits; simpl; lia | exact Fc].
  - destruct (transfer_int_fits hw (GEMM.loads_total loads) 400 Hr
                ltac:(lia) Fl) as (d & Hd & Fd).
    rewrite Hd.
    cbn [bind GEMM.p_total_central_cgra GEMM.p_dram_to_central GEMM.p_loads].
    rewrite Hratio. cbn [bind]. rewrite Hp. cbn [bind].
    rewrite Hc. cbn [bind].
    eexists. split; [reflexivity | ].
    cbv beta iota delta [GEMM.dram_to_central GEMM.central_to_cgra].
    split; [exact Fd | exact Fc].
Qed.

Lemma bounded_hardware_nonzero (hw : HardwareConfig) :
  bounded_hardware hw -> nonzero_hardware hw.
Proof.
  intros ((Hd & Hc & Hl & Hr) & _). unfold nonzero_hardware.
  repeat split; lia.
Qed.

Lemma gemm_latency_ok (hw : HardwareConfig) (dim : Z)
  (mem_req : GEMM.MemReq) (config : GEMM.GEMMConfig) :
  bounded_hardware hw -> gemm_in_range config dim ->
  fits 200 (GEMM.per_matrix mem_req) ->
  exists r,
    GEMM.calculate_memory_access_latency hw dim mem_req config = Ok r.
Proof.
  intros Hhw Hin Hm.
  destruct (bounded_hardware_rate hw Hhw) as (Hr & Hrf).
  destruct (bounded_hardware_nonzero hw Hhw) as (_ & _ & Hl & _).
  destruct (gemm_latency_returns hw dim mem_req config Hl Hr Hrf Hin Hm)
    as (r & H & _).
  eauto.
Qed.

(** C1. On the reference profile (32 MiB DRAM, 512 KiB central SRAM, 32 KiB
    local SRAM, 16 bytes per cycle) an untiled GEMM with 4-byte elements
    takes, at dimension 16, 0 cycles from DRAM, 256 cycles from central to
    local memory and 2048 cycles of computation, 2304 in total; at dimension
    256 it takes 65536, 1572864 and 8388608 cycles, 10027008 in total. *)
Theorem reference_scenarios (hw : HardwareConfig) (config : GEMM.GEMMConfig) :
  dram_size hw = 32 * 1024 * 1024 ->
  central_sram_size hw = 512 * 1024 ->
  cgra_sram_size hw = 32 * 1024 ->
  dma_transfer_rate hw = 16 ->
  GEMM.data_type_size config = 4 ->
  GEMM.tiling_size config = None ->
  (exists r,
     GEMM.analyze_point hw config 16 = Ok r
     /\ lat_dram_to_central (GEMM.latencies r) = 0
     /\ lat_central_to_cgra (GEMM.latencies r) = 256
     /\ lat_computation (GEMM.latencies r) = PyFloat 2048
     /\ GEMM.total_latency r = PyFloat 2304)
  /\ (exists r,
        GEMM.analyze_point hw config 256 = Ok r
        /\ lat_dram_to_central (GEMM.latencies r) = 65536
        /\ lat_central_to_cgra (GEMM.latencies r) = 1572864
        /\ lat_computation (GEMM.latencies r) = PyFloat 8388608
        /\ GEMM.total_latency r = PyFloat 10027008).
Proof.
  destruct hw, config; cbn [dram_size central_sram_size cgra_sram_size
    dma_transfer_rate GEMM.data_type_size GEMM.tiling_size].
  intros -> -> -> -> -> ->.
  split; eexists; (split; [vm_compute; reflexivity | ]);
    cbn; repeat split; reflexivity.
Qed.

Lemma reference_scenarios_witness :
  (exists r,
     GEMM.analyze_point reference_hardware (gemm_tiled_by None) 16 = Ok r
     /\ lat_dram_to_central (GEMM.latencies r) = 0
     /\ lat_central_to_cgra (GEMM.latencies r) = 256
     /\ lat_computation (GEMM.latencies r) = PyFloat 2048
     /\ GEMM.total_latency r = PyFloat 2304)
  /\ (exists r,
        GEMM.analyze_point reference_hardware (gemm_tiled_by None) 256 = Ok r
        /\ lat_dram_to_central (GEMM.latencies r) = 65536
        /\ lat_central_to_cgra (GEMM.latencies r) = 1572864
        /\ lat_computation (GEMM.latencies r) = PyFloat 8388608
        /\ GEMM.total_latency r = PyFloat 10027008).
Proof.
  exact (reference_scenarios reference_hardware (gemm_tiled_by None)
           eq_refl eq_refl eq_refl eq_refl eq_refl eq_refl).
Defined.

(* ================================================================== *)
(** * The Conv analysis *)
(* ================================================================== *)

Lemma conv_working_set_eq (config : Conv.ConvConfig) (footprint : Z) :
  Z.min footprint
    match Conv.tiling_size config with
    | Some tile =>
        fst tile * snd tile * Conv.num_channels config
        * Conv.data_type_size config
    | None => footprint
    end
  = conv_working_set config footprint.
Proof.
  unfold conv_working_set.
  destruct (Conv.tiling_size config) as [[th tw] | ]; cbn [fst snd];
    [reflexivity | apply Z.min_id].
Qed.

(** What the locals of a returning Conv latency computation hold. *)
Lemma conv_locals_inv (hw : HardwareConfig) (dim k : Z)
  (config : Conv.ConvConfig) (l : Conv.Locals) :
  Conv.calculate_memory_access_latency_locals hw dim k config = Ok l ->
  (Conv.stride config <> 0 /\ cgra_sram_size hw <> 0
   /\ dma_transfer_rate hw <> 0)
  /\ (Conv.input_size l
      = dim * dim * Conv.num_channels config * Conv.data_type_size config
      /\ Conv.kernel_size_bytes l
         = k * k * Conv.num_channels config * Conv.num_filters config
           * Conv.data_type_size config
      /\ Conv.output_dim l
         = (dim + 2 * Conv.padding config - k) / Conv.stride config + 1
      /\ Conv.output_size l
         = Conv.output_dim l * Conv.output_dim l * Conv.num_filters config
           * Conv.data_type_size config
      /\ Conv.total_size l
         = Conv.input_size l + Conv.kernel_size_bytes l + Conv.output_size l)
  /\ match Conv.tiling_size config with
     | Some tile =>
         Conv.tiled_loads dim k tile (Conv.input_size l)
           (Conv.kernel_size_bytes l) (Conv.output_size l)
         = Ok (Conv.loads l)
     | None =>
         Conv.loads l
         = Conv.untiled_loads k (Conv.input_size l)
             (Conv.kernel_size_bytes l) (Conv.output_size l)
     end
  /\ Conv.total_central_cgra_before l = Conv.loads_total (Conv.loads l)
  /\ (if Conv.total_size l <=? central_sram_size hw
      then Conv.l_dram_to_central l = 0 /\ Conv.total_dram_central l = None
      else _calculate_transfer_latency hw
             (PyInt (Conv.loads_total (Conv.loads l)))
           = Ok (Conv.l_dram_to_central l)
           /\ Conv.total_dram_central l
              = Some (Conv.loads_total (Conv.loads l)))
  /\ Conv.working_set l = conv_working_set config (Conv.total_size l)
  /\ Conv.reloads l
     = max (PyInt 1)
         (PyFloat (nearest64 (inject_Z (Conv.working_set l)
                              / inject_Z (cgra_sram_size hw))))
  /\ mul (PyInt (Conv.total_central_cgra_before l)) (Conv.reloads l)
     = Ok (Conv.total_central_cgra l)
  /\ _calculate_transfer_latency hw (Conv.total_central_cgra l)
     = Ok (Conv.l_central_to_cgra l)
  /\ scaled_transfer hw (Conv.total_central_cgra_before l)
       (Conv.working_set l)
     = Ok (Conv.l_central_to_cgra l).
Proof.
  unfold Conv.calculate_memory_access_latency_locals.
  intros H. cbv zeta in H.
  apply bind_ok in H as (q & Hq & H).
  apply floordiv_ok_inv in Hq as (Hs & ->).
  apply bind_ok in H as (pl & Hpl & H).
  rewrite conv_working_set_eq in H.
  apply bind_ok in H as (ratio & Hratio & H).
  apply bind_ok in H as (p & Hp & H).
  apply bind_ok in H as (c & Hc & H).
  apply Ok_inj in H; subst l.
  cbv beta iota delta
    [Conv.input_size Conv.kernel_size_bytes Conv.output_dim
     Conv.output_size Conv.total_size Conv.loads Conv.total_dram_central
     Conv.total_central_cgra_before Conv.working_set Conv.reloads
     Conv.total_central_cgra Conv.l_dram_to_central Conv.l_central_to_cgra].
  pose proof (truediv_int_inv _ _ _ Hratio) as (Hcap & Er).
  assert (Hsc :
    scaled_transfer hw (Conv.p_total_central_cgra pl)
      (conv_working_set config
         (dim * dim * Conv.num_channels config * Conv.data_type_size config
          + k * k * Conv.num_channels config * Conv.num_filters config
            * Conv.data_type_size config
          + ((dim + 2 * Conv.padding config - k) / Conv.stride config + 1)
            * ((dim + 2 * Conv.padding config - k) / Conv.stride config + 1)
            * Conv.num_filters config * Conv.data_type_size config))
    = Ok c).
  { unfold scaled_transfer. rewrite Hratio. cbn [bind].
    rewrite Hp. cbn [bind]. exact Hc. }
  pose proof (scaled_transfer_inv _ _ _ _ Hsc) as (_ & Hrate & _).
  split; [auto | ].
  split; [repeat split | ].
  assert (Hplace :
    match Conv.tiling_size config with
    | Some tile =>
        Conv.tiled_loads dim k tile
          (dim * dim * Conv.num_channels config * Conv.data_type_size config)
          (k * k * Conv.num_channels config * Conv.num_filters config
           * Conv.data_type_size config)
          (((dim + 2 * Conv.padding config - k) / Conv.stride config + 1)
           * ((dim + 2 * Conv.padding config - k) / Conv.stride config + 1)
           * Conv.num_filters config * Conv.data_type_size config)
        = Ok (Conv.p_loads pl)
    | None =>
        Conv.p_loads pl
        = Conv.untiled_loads k
            (dim * dim * Conv.num_channels config
             * Conv.data_type_size config)
            (k * k * Conv.num_channels config * Conv.num_filters config
             * Conv.data_type_size config)
            (((dim + 2 * Conv.padding config - k) / Conv.stride config + 1)
             * ((dim + 2 * Conv.padding config - k) / Conv.stride config + 1)
             * Conv.num_filters config * Conv.data_type_size config)
    end
    /\ Conv.p_total_central_cgra pl = Conv.loads_total (Conv.p_loads pl)
    /\ (if dim * dim * Conv.num_channels config * Conv.data_type_size config
           + k * k * Conv.num_channels config * Conv.num_filters config
             * Conv.data_type_size config
           + ((dim + 2 * Conv.padding config - k) / Conv.stride config + 1)
             * ((dim + 2 * Conv.padding config - k) / Conv.stride config + 1)
             * Conv.num_filters config * Conv.data_type_size config
           <=? central_sram_size hw
        then Conv.p_dram_to_central pl = 0
             /\ Conv.p_total_dram_central pl = None
        else _calculate_transfer_latency hw
               (PyInt (Conv.loads_total (Conv.p_loads pl)))
             = Ok (Conv.p_dram_to_central pl)
             /\ Conv.p_total_dram_central pl
                = Some (Conv.loads_total (Conv.p_loads pl)))).
  { match type of Hpl with
    | (if ?c then _ else _) = _ => destruct c
    end.
    - apply bind_ok in Hpl as (loads & Hl & Hpl).
      apply Ok_inj in Hpl; subst pl.
      cbv beta iota delta
        [Conv.p_loads Conv.p_total_central_cgra Conv.p_dram_to_central
         Conv.p_total_dram_central].
      split.
      { destruct (Conv.tiling_size config);
          [exact Hl | apply Ok_inj in Hl; rewrite <- Hl; reflexivity]. }
      repeat split; reflexivity.
    - apply bind_ok in Hpl as (loads & Hl & Hpl).
      apply bind_ok in Hpl as (c' & Hc' & Hpl).
      apply Ok_inj in Hpl; subst pl.
      cbv beta iota delta
        [Conv.p_loads Conv.p_total_central_cgra Conv.p_dram_to_central
         Conv.p_total_dram_central].
      split.
      { destruct (Conv.tiling_size config);
          [exact Hl | apply Ok_inj in Hl; rewrite <- Hl; reflexivity]. }
      split; [reflexivity | split; [exact Hc' | reflexivity]]. }
  destruct Hplace as (Hloads & Hbefore & Hdram).
  split; [exact Hloads | ].
  split; [exact Hbefore | ].
  split; [exact Hdram | ].
  split; [reflexivity | ].
  split; [rewrite Er; reflexivity | ].
  split; [exact Hp | split; [exact Hc | exact Hsc]].
Qed.

Lemma conv_tile_count_positive (dim t : Z) :
  0 < dim -> 0 < t -> 0 < (dim + t - 1) / t.
Proof.
  intros Hd Ht. apply Z.div_str_pos. lia.
Qed.

Lemma conv_tiled_loads_value (dim k th tw i kb o : Z) :
  0 < dim -> 0 < th -> 0 < tw ->
  let tiles_h := (dim + th - 1) / th in
  let tiles_w := (dim + tw - 1) / tw in
  Conv.tiled_loads dim k (th, tw) i kb o
  = Ok {| Conv.input_load :=
            i / (tiles_h * tiles_w) * tiles_h * tiles_w * (1 + (k - 1));
          Conv.kernel_load := kb;
          Conv.output_load := o |}.
Proof.
  intros Hd Hh Hw.
  pose proof (conv_tile_count_positive dim th Hd Hh) as Nh.
  pose proof (conv_tile_count_positive dim tw Hd Hw) as Nw.
  unfold Conv.tiled_loads.
  rewrite !floordiv_nonzero by lia. cbn [bind].
  rewrite floordiv_nonzero by nia. reflexivity.
Qed.

Lemma conv_tiled_loads_defined (dim k th tw i kb o : Z) :
  0 < dim -> 0 < th -> 0 < tw ->
  exists loads, Conv.tiled_loads dim k (th, tw) i kb o = Ok loads.
Proof.
  intros Hd Hh Hw. rewrite conv_tiled_loads_value by assumption. eauto.
Qed.

(** With a non-zero local SRAM size, a non-zero DMA rate of at most
    [2^1023] and a non-zero stride, and when tiling is on a positive input
    side and positive tile sides, the Conv latency computation of a bounded
    point returns, with bounded cycle counts. *)
Lemma conv_locals_returns (hw : HardwareConfig) (dim k : Z)
  (config : Conv.ConvConfig) :
  cgra_sram_size hw <> 0 -> dma_transfer_rate hw <> 0 ->
  fits 1023 (dma_transfer_rate hw) ->
  conv_in_range config dim k -> Conv.stride config <> 0 ->
  conv_tiles_cover config dim ->
  exists l,
    Conv.calculate_memory_access_latency_locals hw dim k config = Ok l
    /\ fits 500 (Conv.l_dram_to_central l)
    /\ fits 1022 (Conv.l_central_to_cgra l).
Proof.
  intros Hl Hr Hrf (Fd & Fk & Fc & Ff & Fe & Fp & Fs & Ft) Hs Ht.
  unfold Conv.calculate_memory_access_latency_locals.
  rewrite floordiv_nonzero by exact Hs. cbn [bind]. cbv zeta.
  rewrite conv_working_set_eq.
  set (input_size :=
         dim * dim * Conv.num_channels config * Conv.data_type_size config).
  set (kernel_bytes :=
         k * k * Conv.num_channels config * Conv.num_filters config
         * Conv.data_type_size config).
  set (output_size :=
         ((dim + 2 * Conv.padding config - k) / Conv.stride config + 1)
         * ((dim + 2 * Conv.padding config - k) / Conv.stride config + 1)
         * Conv.num_filters config * Conv.data_type_size config).
  assert (Fi : fits 256 input_size) by (unfold input_size; fits_bound).
  assert (Fkb : fits 320 kernel_bytes) by (unfold kernel_bytes; fits_bound).
  assert (Fo : fits 270 output_size) by (unfold output_size; fits_bound).
  assert (Hloads : exists loads,
            match Conv.tiling_size config with
            | Some tile =>
                Conv.tiled_loads dim k tile input_size kernel_bytes
                  output_size
            | None =>
                Ok (Conv.untiled_loads k input_size kernel_bytes output_size)
            end = Ok loads
            /\ fits 500 (Conv.loads_total loads)).
  { unfold conv_tiles_cover in Ht.
    destruct (Conv.tiling_size config) as [[th tw] | ].
    - destruct Ht as (Hd & Hh & Hw). destruct Ft as (Fth & Ftw).
      rewrite conv_tiled_loads_value by assumption.
      eexists. split; [reflexivity | ].
      unfold Conv.loads_total.
      cbv beta iota delta
        [Conv.input_load Conv.kernel_load Conv.output_load].
      fits_bound.
    - eexists. split; [reflexivity | ].
      unfold Conv.loads_total, Conv.untiled_loads.
      cbv beta iota delta
        [Conv.input_load Conv.kernel_load Conv.output_load].
      fits_bound. }
  destruct Hloads as (loads & Hloads & Fl).
  assert (Fw : fits 500
                 (conv_working_set config
                    (input_size + kernel_bytes + output_size))).
  { unfold conv_working_set.
    destruct (Conv.tiling_size config) as [[th tw] | ]; [ | fits_bound].
    destruct Ft as (Fth & Ftw). fits_bound. }
  destruct (scaled_transfer_ok hw (Conv.loads_total loads)
              (conv_working_set config
                 (input_size + kernel_bytes + output_size)))
    as (c & Hc & Fcc);
    [exact Hl | exact Hr | exact Hrf
     | apply fits_weaken with 500; [lia | exact Fl]
     | apply fits_weaken with 500; [lia | exact Fw] | ].
  unfold scaled_transfer in Hc.
  apply bind_ok in Hc as (ratio & Hratio & Hc).
  apply bind_ok in Hc as (p & Hp & Hc).
  rewrite Hloads.
  destruct (input_size + kernel_bytes + output_size <=? central_sram_size hw).
  - cbn [bind Conv.p_total_central_cgra Conv.p_dram_to_central Conv.p_loads
         Conv.p_total_dram_central].
    rewrite Hratio. cbn [bind]. rewrite Hp. cbn [bind].
    rewrite Hc. cbn [bind].
    eexists. split; [reflexivity | ].
    cbv beta iota delta [Conv.l_dram_to_central Conv.l_central_to_cgra].
    split; [unfold fits; simpl; lia | exact Fcc].
  - cbn [bind].
    destruct (transfer_int_fits hw (Conv.loads_total loads) 500 Hr
                ltac:(lia) Fl) as (d & Hd' & Fd').
    rewrite Hd'.
    cbn [bind Conv.p_total_central_cgra Conv.p_dram_to_central Conv.p_loads
         Conv.p_total_dram_central].
    rewrite Hratio. cbn [bind]. rewrite Hp. cbn [bind].
    rewrite Hc. cbn [bind].
    eexists. split; [reflexivity | ].
    cbv beta iota delta [Conv.l_dram_to_central Conv.l_central_to_cgra].
    split; [exact Fd' | exact Fcc].
Qed.

Lemma conv_tiles_cover_intro (config : Conv.ConvConfig) (dim : Z) :
  0 < dim -> conv_tiles_positive config -> conv_tiles_cover config dim.
Proof.
  unfold conv_tiles_positive, conv_tiles_cover. intros Hd H.
  destruct (Conv.tiling_size config) as [[th tw] | ]; [ | exact I].
  destruct H as (Hh & Hw). auto.
Qed.

(* ================================================================== *)
(** * One analysis point *)
(* ================================================================== *)

Lemma gemm_latencies_inv (hw : HardwareConfig) (dim : Z)
  (mem_req : GEMM.MemReq) (config : GEMM.GEMMConfig) (l : Latencies) :
  GEMM._calculate_latencies hw dim mem_req config = Ok l ->
  exists ml,
    GEMM.calculate_memory_access_latency hw dim mem_req config = Ok ml
    /\ l = {| lat_dram_to_central := GEMM.dram_to_central ml;
              lat_central_to_cgra := GEMM.central_to_cgra ml;
              lat_computation :=
                PyFloat (nearest64 (inject_Z (2 * dim * dim * dim)
                                    / inject_Z 4)) |}.
Proof.
  unfold GEMM._calculate_latencies. intros H.
  apply bind_ok in H as (ml & Hml & H).
  apply bind_ok in H as (c & Hc & H).
  apply truediv_int_inv in Hc as (_ & ->).
  apply Ok_inj in H. eauto.
Qed.

Lemma gemm_point_inv (hw : HardwareConfig) (config : GEMM.GEMMConfig)
  (dim : Z) (r : GEMM.Result) :
  GEMM.analyze_point hw config dim = Ok r ->
  exists l u t,
    GEMM._calculate_latencies hw dim
      (GEMM._calculate_memory_requirements dim config) config = Ok l
    /\ _calculate_memory_utilization hw
         (GEMM.total (GEMM._calculate_memory_requirements dim config)) = Ok u
    /\ sum (latencies_values l) = Ok t
    /\ r = {| GEMM.dimension := dim;
              GEMM.memory := GEMM._calculate_memory_requirements dim config;
              GEMM.latencies := l;
              GEMM.utilization := u;
              GEMM.total_latency := t |}.
Proof.
  unfold GEMM.analyze_point. intros H. cbv zeta in H.
  apply bind_ok in H as (l & Hl & H).
  apply bind_ok in H as (u & Hu & H).
  apply bind_ok in H as (t & Ht & H).
  apply Ok_inj in H. exists l, u, t. auto.
Qed.

Lemma gemm_mem_req_fits (config : GEMM.GEMMConfig) (dim : Z) :
  gemm_in_range config dim ->
  fits 200 (GEMM.per_matrix (GEMM._calculate_memory_requirements dim config))
  /\ fits 200 (GEMM.total (GEMM._calculate_memory_requirements dim config)).
Proof.
  intros (Hd & He & _).
  cbv beta iota zeta delta
    [GEMM._calculate_memory_requirements GEMM.per_matrix GEMM.total].
  split; fits_bound.
Qed.

(** With non-zero capacities and a non-zero DMA rate of at most [2^1023] a
    bounded GEMM point is analysed without an exception. *)
Lemma gemm_point_returns (hw : HardwareConfig) (config : GEMM.GEMMConfig)
  (dim : Z) :
  nonzero_hardware hw -> fits 1023 (dma_transfer_rate hw) ->
  gemm_in_range config dim ->
  exists r, GEMM.analyze_point hw config dim = Ok r.
Proof.
  intros (Nd & Nc & Nl & Nr) Hrf Hin.
  destruct (gemm_mem_req_fits config dim Hin) as (Fm & Ft).
  destruct (gemm_latency_returns hw dim
              (GEMM._calculate_memory_requirements dim config) config
              Nl Nr Hrf Hin Fm) as (ml & Hml & Fd & Fc).
  destruct Hin as (Hd & He & _).
  destruct (utilization_ok hw
              (GEMM.total (GEMM._calculate_memory_requirements dim config)))
    as (u & Hu); [exact Nl | exact Nc | exact Nd | | ].
  { apply fits_weaken with 200; [lia | exact Ft]. }
  unfold GEMM.analyze_point, GEMM._calculate_latencies. cbv zeta.
  rewrite Hml. cbn [bind].
  rewrite truediv_int_ok; [ | discriminate | fits_bound].
  cbn [bind]. rewrite Hu. cbn [bind].
  unfold latencies_values.
  cbv beta iota delta
    [lat_dram_to_central lat_central_to_cgra lat_computation].
  rewrite sum_float_ok by fits_bound.
  cbn [bind]. eauto.
Qed.

Lemma gemm_point_ok (hw : HardwareConfig) (config : GEMM.GEMMConfig)
  (dim : Z) :
  bounded_hardware hw -> gemm_in_range config dim ->
  exists r, GEMM.analyze_point hw config dim = Ok r.
Proof.
  intros Hhw Hin. apply gemm_point_returns; [ | | exact Hin].
  - apply bounded_hardware_nonzero, Hhw.
  - apply bounded_hardware_rate, Hhw.
Qed.

Lemma conv_mem_req_value (config : Conv.ConvConfig) (dim k : Z) :
  Conv.stride config <> 0 ->
  Conv._calculate_memory_requirements dim k config
  = Ok {| Conv.input :=
            dim * dim * Conv.num_channels config * Conv.data_type_size config;
          Conv.kernel :=
            k * k * Conv.num_channels config * Conv.num_filters config
            * Conv.data_type_size config;
          Conv.output :=
            output_side config dim k * output_side config dim k
            * Conv.num_filters config * Conv.data_type_size config;
          Conv.total :=
            dim * dim * Conv.num_channels config * Conv.data_type_size config
            + k * k * Conv.num_channels config * Conv.num_filters config
              * Conv.data_type_size config
            + output_side config dim k * output_side config dim k
              * Conv.num_filters config * Conv.data_type_size config;
          Conv.dimensions :=
            {| Conv.dims_input := (dim, dim, Conv.num_channels config);
               Conv.dims_kernel :=
                 (k, k, Conv.num_channels config, Conv.num_filters config);
               Conv.dims_output :=
                 (output_side config dim k, output_side config dim k,
                  Conv.num_filters config) |} |}.
Proof.
  intros Hs. unfold Conv._calculate_memory_requirements.
  rewrite floordiv_nonzero by exact Hs. reflexivity.
Qed.

Lemma conv_mem_req_inv (config : Conv.ConvConfig) (dim k : Z)
  (m : Conv.MemReq) :
  Conv._calculate_memory_requirements dim k config = Ok m ->
  Conv.stride config <> 0
  /\ Conv.input m
     = dim * dim * Conv.num_channels config * Conv.data_type_size config
  /\ Conv.kernel m
     = k * k * Conv.num_channels config * Conv.num_filters config
       * Conv.data_type_size config
  /\ Conv.output m
     = output_side config dim k * output_side config dim k
       * Conv.num_filters config * Conv.data_type_size config
  /\ Conv.total m = Conv.input m + Conv.kernel m + Conv.output m.
Proof.
  intros Hm.
  assert (Hs : Conv.stride config <> 0).
  { unfold Conv._calculate_memory_requirements in Hm.
    apply bind_ok in Hm as (q & Hq & _).
    apply floordiv_ok_inv in Hq. tauto. }
  rewrite conv_mem_req_value in Hm by exact Hs.
  apply Ok_inj in Hm; subst m.
  repeat split; try exact Hs; reflexivity.
Qed.

Lemma conv_latencies_inv (hw : HardwareConfig) (dim k : Z)
  (mem_req : Conv.MemReq) (config : Conv.ConvConfig) (l : Latencies) :
  Conv._calculate_latencies hw dim k mem_req config = Ok l ->
  exists loc,
    Conv.calculate_memory_access_latency_locals hw dim k config = Ok loc
    /\ l = {| lat_dram_to_central := Conv.l_dram_to_central loc;
              lat_central_to_cgra := Conv.l_central_to_cgra loc;
              lat_computation :=
                PyInt (2 * k * k * Conv.num_channels config
                       * output_side config dim k * output_side config dim k
                       * Conv.num_filters config) |}.
Proof.
  unfold Conv._calculate_latencies, Conv.calculate_memory_access_latency.
  intros H.
  apply bind_ok in H as (ml & Hml & H).
  apply bind_ok in Hml as (loc & Hloc & Hml).
  apply Ok_inj in Hml; subst ml.
  apply bind_ok in H as (q & Hq & H).
  apply floordiv_ok_inv in Hq as (_ & ->).
  apply Ok_inj in H. exists loc. split; [exact Hloc | ].
  rewrite <- H. reflexivity.
Qed.

Lemma conv_point_inv (hw : HardwareConfig) (config : Conv.ConvConfig)
  (dim k : Z) (r : Conv.Result) :
  Conv.analyze_point hw config dim k = Ok r ->
  exists m l u t,
    Conv._calculate_memory_requirements dim k config = Ok m
    /\ Conv._calculate_latencies hw dim k m config = Ok l
    /\ _calculate_memory_utilization hw (Conv.total m) = Ok u
    /\ sum (latencies_values l) = Ok t
    /\ r = {| Conv.input_dimension := dim;
              Conv.kernel_size := k;
              Conv.memory := m;
              Conv.latencies := l;
              Conv.utilization := u;
              Conv.total_latency := t |}.
Proof.
  unfold Conv.analyze_point. intros H.
  apply bind_ok in H as (m & Hm & H).
  apply bind_ok in H as (l & Hl & H).
  apply bind_ok in H as (u & Hu & H).
  apply bind_ok in H as (t & Ht & H).
  apply Ok_inj in H. exists m, l, u, t. auto.
Qed.

(** With non-zero capacities, a non-zero DMA rate of at most [2^1023] and
    a non-zero stride, and when tiling is on a positive input side and
    positive tile sides, a bounded Conv point is analysed without an
    exception. *)
Lemma conv_point_returns (hw : HardwareConfig) (config : Conv.ConvConfig)
  (dim k : Z) :
  nonzero_hardware hw -> fits 1023 (dma_transfer_rate hw) ->
  conv_in_range config dim k -> Conv.stride config <> 0 ->
  conv_tiles_cover config dim ->
  exists r, Conv.analyze_point hw config dim k = Ok r.
Proof.
  intros (Nd & Nc & Nl & Nr) Hrf Hin Hs Ht.
  destruct (conv_locals_returns hw dim k config Nl Nr Hrf Hin Hs Ht)
    as (loc & Hloc & _).
  destruct Hin as (Fd & Fk & Fc & Ff & Fe & Fp & Fs & _).
  unfold Conv.analyze_point.
  rewrite conv_mem_req_value by exact Hs. cbn [bind].
  unfold Conv._calculate_latencies, Conv.calculate_memory_access_latency.
  rewrite Hloc. cbn [bind]. rewrite floordiv_nonzero by exact Hs.
  cbn [bind]. cbv beta iota delta [Conv.total].
  match goal with
  | |- context [_calculate_memory_utilization hw ?t] =>
      destruct (utilization_ok hw t) as (u & Hu);
        [exact Nl | exact Nc | exact Nd | | ]
  end.
  { unfold output_side. fits_bound. }
  rewrite Hu. cbn [bind]. eexists. reflexivity.
Qed.

Lemma conv_point_ok (hw : HardwareConfig) (config : Conv.ConvConfig)
  (dim k : Z) :
  bounded_hardware hw -> conv_in_range config dim k ->
  Conv.stride config <> 0 -> 0 < dim -> conv_tiles_positive config ->
  exists r, Conv.analyze_point hw config dim k = Ok r.
Proof.
  intros Hhw Hin Hs Hd Ht. apply conv_point_returns; try assumption.
  - apply bounded_hardware_nonzero, Hhw.
  - apply bounded_hardware_rate, Hhw.
  - apply conv_tiles_cover_intro; assumption.
Qed.

(* ================================================================== *)
(** * Placement, computation and total *)
(* ================================================================== *)

(** C6. A workload, GEMM or Conv, whose total footprint does not exceed the
    central SRAM capacity moves nothing through DRAM: every result of its
    analysis has a [dram_to_central] cycle count of exactly 0 (and the Conv
    computation binds no DRAM byte volume at all).  On a bounded profile the
    GEMM analysis of such a point with parameters of magnitude at most
    [2^64] does return a result; so does the Conv analysis when moreover the
    input side and the tile sides are positive. *)
Theorem resident_workload_skips_dram (hw : HardwareConfig) :
  (forall (config : GEMM.GEMMConfig) (dim : Z),
     GEMM.total (GEMM._calculate_memory_requirements dim config)
       <= central_sram_size hw ->
     (forall r,
        GEMM.analyze_point hw config dim = Ok r ->
        lat_dram_to_central (GEMM.latencies r) = 0)
     /\ (bounded_hardware hw -> gemm_in_range config dim ->
         exists r, GEMM.analyze_point hw config dim = Ok r))
  /\ (forall (config : Conv.ConvConfig) (dim k : Z) (m : Conv.MemReq),
        Conv._calculate_memory_requirements dim k config = Ok m ->
        Conv.total m <= central_sram_size hw ->
        (forall r,
           Conv.analyze_point hw config dim k = Ok r ->
           lat_dram_to_central (Conv.latencies r) = 0)
        /\ (forall l,
              Conv.calculate_memory_access_latency_locals hw dim k config
                = Ok l ->
              Conv.total_dram_central l = None)
        /\ (bounded_hardware hw -> conv_in_range config dim k ->
            0 < dim -> conv_tiles_positive config ->
            exists r, Conv.analyze_point hw config dim k = Ok r)).
Proof.
  split.
  - intros config dim Hfit. split.
    + intros r Hr.
      apply gemm_point_inv in Hr as (l & u & t & Hl & _ & _ & ->).
      apply gemm_latencies_inv in Hl as (ml & Hml & ->).
      apply gemm_latency_inv in Hml as (Hd & _).
      cbn [GEMM.latencies lat_dram_to_central].
      cbn [GEMM._calculate_memory_requirements GEMM.per_matrix GEMM.total]
        in Hfit, Hd.
      apply Z.leb_le in Hfit. rewrite Hfit in Hd. exact Hd.
    + apply gemm_point_ok.
  - intros config dim k m Hm Hfit.
    assert (Hs : Conv.stride config <> 0).
    { unfold Conv._calculate_memory_requirements in Hm.
      apply bind_ok in Hm as (q & Hq & _).
      apply floordiv_ok_inv in Hq. tauto. }
    rewrite conv_mem_req_value in Hm by exact Hs.
    apply Ok_inj in Hm; subst m. cbn [Conv.total] in Hfit.
    assert (Hloc : forall l,
      Conv.calculate_memory_access_latency_locals hw dim k config = Ok l ->
      Conv.l_dram_to_central l = 0 /\ Conv.total_dram_central l = None).
    { intros l Hl.
      apply conv_locals_inv in Hl
        as (_ & (Hi & Hk & Ho & Hos & Ht) & _ & _ & Hd & _).
      rewrite Ht, Hos, Ho, Hk, Hi in Hd.
      unfold output_side in Hfit.
      apply Z.leb_le in Hfit. rewrite Hfit in Hd. exact Hd. }
    split; [ | split].
    + intros r Hr.
      apply conv_point_inv in Hr as (m & l & u & t & _ & Hl & _ & _ & ->).
      apply conv_latencies_inv in Hl as (loc & Hl & ->).
      cbn [Conv.latencies lat_dram_to_central].
      apply Hloc, Hl.
    + intros l Hl. apply Hloc, Hl.
    + intros Hhw Hin Hd Ht. apply conv_point_ok; assumption.
Qed.

Lemma resident_workload_skips_dram_witness :
  GEMM.total (GEMM._calculate_memory_requirements 16 (gemm_tiled_by None))
  <= central_sram_size reference_hardware
  /\ exists r,
       GEMM.analyze_point reference_hardware (gemm_tiled_by None) 16 = Ok r
       /\ lat_dram_to_central (GEMM.latencies r) = 0.
Proof.
  assert (Hfit :
    GEMM.total (GEMM._calculate_memory_requirements 16 (gemm_tiled_by None))
    <= central_sram_size reference_hardware) by discriminate.
  split; [exact Hfit | ].
  eexists.
  assert (H : GEMM.analyze_point reference_hardware (gemm_tiled_by None) 16
              = Ok _) by (vm_compute; reflexivity).
  split; [exact H | ].
  exact (proj1 (proj1 (resident_workload_skips_dram reference_hardware)
                  (gemm_tiled_by None) 16 Hfit) _ H).
Defined.

Lemma half_cube (dim : Z) :
  (inject_Z (2 * dim * dim * dim) / inject_Z 4
   == inject_Z (dim ^ 3) * pow2 (-1))%Q.
Proof.
  replace (2 * dim * dim * dim) with (2 * dim ^ 3) by ring.
  rewrite inject_Z_mult. change (pow2 (-1)) with (/ 2)%Q.
  change (inject_Z 4) with 4%Q. change (inject_Z 2) with 2%Q.
  field.
Qed.

Lemma gemm_computation_exact (dim : Z) :
  Z.abs (dim ^ 3) < 2 ^ 53 ->
  (nearest64 (inject_Z (2 * dim * dim * dim) / inject_Z 4)
   == inject_Z (2 * dim ^ 3) / 4)%Q.
Proof.
  intros H. rewrite nearest64_eq, half_cube.
  rewrite round_exact by (try exact H; lia).
  rewrite <- half_cube.
  replace (2 * dim * dim * dim) with (2 * dim ^ 3) by ring.
  reflexivity.
Qed.

(** C7, as the code has it.  The computation cycles of a GEMM point are
    the binary64 float nearest to [2 * dimension^3 / 4], which is that
    quotient itself while [|dimension|^3 < 2^53]; those of a Conv point are
    the integer [2 * kernel_side^2 * channels * output_side^2 * filters],
    not divided.  [total_latency] is the sum of the DRAM-to-central cycles,
    the central-to-local cycles and the computation cycles in that order:
    an exact integer for Conv; for GEMM the float sum of the converted
    integer part and the computation, exact while the three terms and their
    sum stay below [2^53].  On a bounded profile a GEMM point with
    parameters of magnitude at most [2^64] is analysed without an
    exception. *)
Theorem computation_and_total_cycles (hw : HardwareConfig) :
  (forall (config : GEMM.GEMMConfig) (dim : Z),
     (forall r : GEMM.Result,
        GEMM.analyze_point hw config dim = Ok r ->
        lat_computation (GEMM.latencies r)
        = PyFloat (nearest64 (inject_Z (2 * dim ^ 3) / 4))
        /\ GEMM.total_latency r
           = Float
               (round_float
                  (nearest64
                     (inject_Z (lat_dram_to_central (GEMM.latencies r)
                                + lat_central_to_cgra (GEMM.latencies r)))
                   + nearest64 (inject_Z (2 * dim ^ 3) / 4)))
        /\ (Z.abs (dim ^ 3) < 2 ^ 53 ->
            has_value (lat_computation (GEMM.latencies r))
              (inject_Z (2 * dim ^ 3) / 4))
        /\ (Z.abs (dim ^ 3) < 2 ^ 53 ->
            Z.abs (lat_dram_to_central (GEMM.latencies r)
                   + lat_central_to_cgra (GEMM.latencies r)) <= 2 ^ 53 ->
            Z.abs (2 * (lat_dram_to_central (GEMM.latencies r)
                        + lat_central_to_cgra (GEMM.latencies r))
                   + dim ^ 3) < 2 ^ 53 ->
            has_value (GEMM.total_latency r)
              (inject_Z (lat_dram_to_central (GEMM.latencies r))
               + inject_Z (lat_central_to_cgra (GEMM.latencies r))
               + inject_Z (2 * dim ^ 3) / 4)))
     /\ (bounded_hardware hw -> gemm_in_range config dim ->
         exists r, GEMM.analyze_point hw config dim = Ok r))
  /\ (forall (config : Conv.ConvConfig) (dim k : Z) (r : Conv.Result),
        Conv.analyze_point hw config dim k = Ok r ->
        lat_computation (Conv.latencies r)
        = PyInt (2 * k ^ 2 * Conv.num_channels config
                 * output_side config dim k ^ 2 * Conv.num_filters config)
        /\ Conv.total_latency r
           = PyInt (lat_dram_to_central (Conv.latencies r)
                    + lat_central_to_cgra (Conv.latencies r)
                    + 2 * k ^ 2 * Conv.num_channels config
                      * output_side config dim k ^ 2
                      * Conv.num_filters config)).
Proof.
  split.
  - intros config dim. split; [ | apply gemm_point_ok].
    intros r Hr.
    apply gemm_point_inv in Hr as (l & u & t & Hl & _ & Ht & ->).
    apply gemm_latencies_inv in Hl as (ml & _ & ->).
    cbn [GEMM.latencies GEMM.total_latency lat_computation
         lat_dram_to_central lat_central_to_cgra].
    unfold latencies_values in Ht.
    cbn [lat_computation lat_dram_to_central lat_central_to_cgra] in Ht.
    apply sum_float_inv in Ht as (s & _ & -> & ->).
    cbn [fadd].
    assert (Ec : nearest64 (inject_Z (2 * dim * dim * dim) / inject_Z 4)
                 = nearest64 (inject_Z (2 * dim ^ 3) / 4)).
    { apply nearest64_compat.
      replace (2 * dim * dim * dim) with (2 * dim ^ 3) by ring.
      reflexivity. }
    rewrite Ec.
    split; [reflexivity | split; [reflexivity | ]].
    set (dc := GEMM.dram_to_central ml + GEMM.central_to_cgra ml).
    assert (Hcomp : Z.abs (dim ^ 3) < 2 ^ 53 ->
              (nearest64 (inject_Z (2 * dim ^ 3) / 4)
               == inject_Z (2 * dim ^ 3) / 4)%Q).
    { intros H. rewrite <- Ec. apply gemm_computation_exact, H. }
    split.
    + intros H. unfold has_value, PyFloat. cbn [exact]. apply Hcomp, H.
    + intros Hd Hs Ht.
      set (x := (nearest64 (inject_Z dc)
                 + nearest64 (inject_Z (2 * dim ^ 3) / 4))%Q).
      assert (Ex : (x == inject_Z (2 * dc + dim ^ 3) * pow2 (-1))%Q).
      { unfold x. rewrite (nearest64_Z dc Hs), (Hcomp Hd).
        rewrite !inject_Z_plus, !inject_Z_mult.
        change (pow2 (-1)) with (/ 2)%Q. change (inject_Z 2) with 2%Q.
        field. }
      assert (Er : (round x == x)%Q).
      { rewrite Ex. apply round_exact; [exact Ht | lia]. }
      assert (Hb : (Qabs x <= pow2 53)%Q).
      { rewrite Ex, Qabs_Qmult, Qabs_inject_Z.
        rewrite (Qabs_pos (pow2 (-1))) by (apply Qlt_le_weak, pow2_pos).
        change (pow2 (-1)) with (1 # 2)%Q.
        rewrite pow2_Z by lia.
        assert (Hz : (inject_Z (Z.abs (2 * dc + dim ^ 3))
                      <= inject_Z (2 ^ 53))%Q)
          by (rewrite <- Zle_Qle; lia).
        assert (H0 : (0 <= inject_Z (Z.abs (2 * dc + dim ^ 3)))%Q)
          by (apply inject_Z_nonneg, Z.abs_nonneg).
        revert Hz H0.
        generalize (inject_Z (Z.abs (2 * dc + dim ^ 3))), (inject_Z (2 ^ 53)).
        intros a b Hz H0. lra. }
      rewrite (round_float_bounded x 53) by (first [lia | exact Hb]).
      unfold has_value. cbn [exact].
      rewrite nearest64_eq, Er. unfold x.
      rewrite (nearest64_Z dc Hs), (Hcomp Hd).
      unfold dc. rewrite inject_Z_plus. reflexivity.
  - intros config dim k r Hr.
    apply conv_point_inv in Hr as (m & l & u & t & _ & Hl & _ & Ht & ->).
    apply conv_latencies_inv in Hl as (loc & _ & ->).
    cbn [Conv.latencies Conv.total_latency lat_computation
         lat_dram_to_central lat_central_to_cgra].
    unfold latencies_values in Ht.
    cbn [lat_computation lat_dram_to_central lat_central_to_cgra] in Ht.
    rewrite sum_ints in Ht. apply Ok_inj in Ht. subst t.
    split; f_equal; ring.
Qed.

(** C7, as the specification words it, fails once [dimension^3] needs more
    than 53 bits.  At dimension 208065 on the reference profile the
    computation is the float 4503675558337312.0, not
    [2 * 208065^3 / 4 = 4503675558337312.5], and the total is not the sum of
    the three cycle counts either. *)
Lemma computation_rounding_counterexample :
  exists r,
    GEMM.analyze_point reference_hardware (gemm_tiled_by None) 208065 = Ok r
    /\ lat_computation (GEMM.latencies r) = PyFloat 4503675558337312
    /\ ~ has_value (lat_computation (GEMM.latencies r))
           (inject_Z (2 * 208065 ^ 3) / 4)
    /\ ~ has_value (GEMM.total_latency r)
           (inject_Z (lat_dram_to_central (GEMM.latencies r))
            + inject_Z (lat_central_to_cgra (GEMM.latencies r))
            + inject_Z (2 * 208065 ^ 3) / 4).
Proof.
  eexists. split; [vm_compute; reflexivity | ].
  split; [reflexivity | ].
  split; intros H; vm_compute in H; discriminate.
Qed.

Lemma computation_and_total_cycles_witness :
  (exists r,
     GEMM.analyze_point reference_hardware (gemm_tiled_by None) 256 = Ok r
     /\ has_value (GEMM.total_latency r)
          (inject_Z (lat_dram_to_central (GEMM.latencies r))
           + inject_Z (lat_central_to_cgra (GEMM.latencies r))
           + inject_Z (2 * 256 ^ 3) / 4))
  /\ (exists r,
        Conv.analyze_point reference_hardware
          (Conv.ConvConfig_init conv_defaults) 16 3 = Ok r
        /\ lat_computation (Conv.latencies r)
           = PyInt (2 * 3 ^ 2 * 1 * 14 ^ 2 * 1)).
Proof.
  split.
  - eexists.
    assert (H : GEMM.analyze_point reference_hardware (gemm_tiled_by None)
                  256 = Ok _) by (vm_compute; reflexivity).
    split; [exact H | ].
    apply (proj1 (proj1 (computation_and_total_cycles reference_hardware)
                    (gemm_tiled_by None) 256) _ H);
      [vm_compute; reflexivity
      | apply Z.leb_le; vm_compute; reflexivity
      | vm_compute; reflexivity].
  - eexists.
    assert (H : Conv.analyze_point reference_hardware
                  (Conv.ConvConfig_init conv_defaults) 16 3 = Ok _)
      by (vm_compute; reflexivity).
    split; [exact H | ].
    exact (proj1 (proj2 (computation_and_total_cycles reference_hardware)
                    (Conv.ConvConfig_init conv_defaults) 16 3 _ H)).
Defined.

(** C10. The latency fields of the hardware profile and, for Conv, the
    fields [dilation], [groups], [input_layout], [kernel_layout] and
    [vectorization] are inert: two runs whose inputs differ only there return
    the same result records, or raise the same exception. *)
Theorem inert_parameters_do_not_interfere (h1 h2 : HardwareConfig) :
  same_but_latencies h1 h2 ->
  (forall config : GEMM.GEMMConfig,
     GEMM.analyze h1 config = GEMM.analyze h2 config)
  /\ (forall c1 c2 : Conv.ConvConfig,
        same_but_inert c1 c2 -> Conv.analyze h1 c1 = Conv.analyze h2 c2).
Proof.
  destruct h1, h2; unfold same_but_latencies;
    cbn [dram_size central_sram_size cgra_sram_size dma_transfer_rate
         bus_frequency cgra_frequency].
  intros (-> & -> & -> & -> & -> & ->).
  split.
  - intros config. reflexivity.
  - intros c1 c2. destruct c1, c2; unfold same_but_inert;
      cbn [Conv.input_dimensions Conv.kernel_sizes Conv.num_channels
           Conv.num_filters Conv.data_type_size Conv.padding Conv.stride
           Conv.tiling_size].
    intros (-> & -> & -> & -> & -> & -> & -> & ->).
    reflexivity.
Qed.

Lemma inert_parameters_do_not_interfere_witness :
  same_but_latencies reference_hardware slow_reference_hardware
  /\ same_but_inert (Conv.ConvConfig_init conv_defaults) dilated_conv
  /\ GEMM.analyze reference_hardware (gemm_tiled_by None)
     = GEMM.analyze slow_reference_hardware (gemm_tiled_by None)
  /\ Conv.analyze reference_hardware (Conv.ConvConfig_init conv_defaults)
     = Conv.analyze slow_reference_hardware dilated_conv.
Proof.
  assert (Hhw : same_but_latencies reference_hardware slow_reference_hardware)
    by (repeat split).
  assert (Hc : same_but_inert (Conv.ConvConfig_init conv_defaults)
                 dilated_conv) by (repeat split).
  destruct (inert_parameters_do_not_interfere
              reference_hardware slow_reference_hardware Hhw) as (Hg & Hv).
  split; [exact Hhw | split; [exact Hc | split]].
  - exact (Hg (gemm_tiled_by None)).
  - exact (Hv (Conv.ConvConfig_init conv_defaults) dilated_conv Hc).
Defined.

(* ================================================================== *)
(** * The buffer-reload multiplier *)
(* ================================================================== *)

Lemma reload_factor_of_ratio (ws cap : Z) :
  is_reload_factor
    (max (PyInt 1) (PyFloat (nearest64 (inject_Z ws / inject_Z cap))))
    ws cap.
Proof.
  unfold is_reload_factor. rewrite max_one.
  set (x := (inject_Z ws / inject_Z cap)%Q).
  split; [reflexivity | split].
  - intros Hc Hle. unfold x. rewrite reload_is_one by assumption.
    reflexivity.
  - intros Hc Hlt.
    assert (Hx : (1 <= x)%Q).
    { apply Qle_shift_div_l; [apply inject_Z_pos, Hc | ].
      rewrite Qmult_1_l, <- Zle_Qle. lia. }
    pose proof (nearest64_ge_1 x Hx) as H1.
    pose proof (nearest64_eq x) as En.
    assert (Herr : (Qabs (round x - x) <= pow2 (-53) * x)%Q).
    { apply round_relative_error.
      apply Qle_trans with (2 := Hx). rewrite <- pow2_0.
      apply pow2_le. lia. }
    destruct (Qle_bool (nearest64 x) 1) eqn:E.
    + apply Qle_bool_iff in E.
      exists (inject_Z 1). split; [reflexivity | ].
      split; [discriminate | ].
      assert (E1 : (inject_Z 1 == round x)%Q).
      { rewrite <- En. change (inject_Z 1) with 1%Q. lra. }
      rewrite E1. exact Herr.
    + exists (nearest64 x). split; [reflexivity | ].
      split; [exact H1 | ].
      rewrite En. exact Herr.
Qed.

(** C2, as the code has it.  The reload factor is [max(1, working_set /
    local capacity)] computed in binary64: the integer 1 when the rounded
    quotient is at most 1, in particular when the working set fits the
    buffer, and otherwise the float nearest to the quotient, not rounded to
    an integer and within a relative [2^-53] of it.  The central-to-local
    cycles are those of the transfer total times that factor.  The working
    set is [(2t^2 + t^2) * element_size] for a GEMM with a non-zero tile
    side [t], the minimum of the full footprint and
    [tile_h * tile_w * channels * element_size] for a tiled Conv, and the
    full footprint when tiling is off.  On a bounded profile the traffic
    computation returns for parameters of magnitude at most [2^64] (for Conv
    with a non-zero stride and, when tiled, positive input and tile
    sides). *)
Theorem reload_multiplier_of_working_set (hw : HardwareConfig) :
  (forall (config : GEMM.GEMMConfig) (dim : Z),
     (forall r : GEMM.MemoryLatencies,
        GEMM.calculate_memory_access_latency hw dim
          (GEMM._calculate_memory_requirements dim config) config = Ok r ->
        GEMM.working_set (GEMM.debug_info r)
        = gemm_working_set config
            (GEMM.total (GEMM._calculate_memory_requirements dim config))
        /\ is_reload_factor (GEMM.reloads (GEMM.debug_info r))
             (GEMM.working_set (GEMM.debug_info r)) (cgra_sram_size hw)
        /\ exists total,
             mul (PyInt (GEMM.matrix_a_load (GEMM.debug_info r)
                         + GEMM.matrix_b_load (GEMM.debug_info r)
                         + GEMM.matrix_c_load (GEMM.debug_info r)
                         + GEMM.matrix_c_store (GEMM.debug_info r)))
               (GEMM.reloads (GEMM.debug_info r)) = Ok total
             /\ _calculate_transfer_latency hw total
                = Ok (GEMM.central_to_cgra r))
     /\ (bounded_hardware hw -> gemm_in_range config dim ->
         exists r,
           GEMM.calculate_memory_access_latency hw dim
             (GEMM._calculate_memory_requirements dim config) config = Ok r))
  /\ (forall (config : Conv.ConvConfig) (dim k : Z),
        (forall l : Conv.Locals,
           Conv.calculate_memory_access_latency_locals hw dim k config
             = Ok l ->
           Conv.working_set l = conv_working_set config (Conv.total_size l)
           /\ is_reload_factor (Conv.reloads l) (Conv.working_set l)
                (cgra_sram_size hw)
           /\ mul (PyInt (Conv.total_central_cgra_before l))
                (Conv.reloads l)
              = Ok (Conv.total_central_cgra l)
           /\ _calculate_transfer_latency hw (Conv.total_central_cgra l)
              = Ok (Conv.l_central_to_cgra l))
        /\ (bounded_hardware hw -> conv_in_range config dim k ->
            Conv.stride config <> 0 -> conv_tiles_cover config dim ->
            exists l,
              Conv.calculate_memory_access_latency_locals hw dim k config
              = Ok l)).
Proof.
  split.
  - intros config dim. split.
    + intros r Hr.
      apply gemm_latency_inv in Hr as (_ & Hws & Hre & Hc).
      split; [exact Hws | ].
      split; [rewrite Hre; apply reload_factor_of_ratio | ].
      unfold scaled_transfer in Hc.
      apply bind_ok in Hc as (ratio & Hratio & Hc).
      apply bind_ok in Hc as (p & Hp & Hc).
      apply truediv_int_inv in Hratio as (_ & ->).
      exists p. split; [rewrite Hre; exact Hp | exact Hc].
    + intros Hhw Hin.
      destruct (gemm_mem_req_fits config dim Hin) as (Fm & _).
      apply (gemm_latency_ok hw dim _ config Hhw Hin Fm).
  - intros config dim k. split.
    + intros l Hl.
      apply conv_locals_inv in Hl
        as (_ & _ & _ & _ & _ & Hws & Hre & Hp & Hc & _).
      split; [exact Hws | ].
      split; [rewrite Hre; apply reload_factor_of_ratio | ].
      split; [exact Hp | exact Hc].
    + intros Hhw Hin Hs Hcover.
      destruct (bounded_hardware_rate hw Hhw) as (Hr & Hrf).
      destruct (bounded_hardware_nonzero hw Hhw) as (_ & _ & Hl & _).
      destruct (conv_locals_returns hw dim k config Hl Hr Hrf Hin Hs Hcover)
        as (l & Hloc & _).
      exists l. exact Hloc.
Qed.

(** C2, as the specification words it, fails on a tiled Conv whose tile is
    larger than the whole footprint.  Input side 16, kernel side 3, 16
    channels, the default 32 x 32 tile, on the reference profile: the
    footprint is 17744 bytes and the tile volume 65536 bytes.  The code
    charges the 17744 bytes, which fit the 32768-byte buffer (multiplier 1,
    3157 cycles); the tile volume would give the multiplier 2. *)
Lemma tiled_conv_reload_counterexample :
  exists l,
    Conv.calculate_memory_access_latency_locals reference_hardware 16 3
      (conv_default_tile 16) = Ok l
    /\ Conv.tiling_size (conv_default_tile 16) = Some (32, 32)
    /\ Conv.total_size l = 17744
    /\ spec_conv_working_set (conv_default_tile 16) (Conv.total_size l)
       = 65536
    /\ Conv.working_set l = 17744
    /\ Conv.reloads l = PyInt 1
    /\ Conv.l_central_to_cgra l = 3157
    /\ (reload_multiplier
          (spec_conv_working_set (conv_default_tile 16) (Conv.total_size l))
          (cgra_sram_size reference_hardware) == 2)%Q
    /\ ~ has_value (Conv.reloads l)
           (reload_multiplier
              (spec_conv_working_set (conv_default_tile 16)
                 (Conv.total_size l))
              (cgra_sram_size reference_hardware)).
Proof.
  eexists. split; [vm_compute; reflexivity | ].
  cbv beta iota delta
    [Conv.total_size Conv.working_set Conv.reloads Conv.l_central_to_cgra].
  repeat split; try reflexivity.
  intros H. vm_compute in H. discriminate.
Qed.

Lemma reload_multiplier_of_working_set_witness :
  (exists r,
     GEMM.calculate_memory_access_latency reference_hardware 256
       (GEMM._calculate_memory_requirements 256 (gemm_tiled_by None))
       (gemm_tiled_by None) = Ok r
     /\ GEMM.reloads (GEMM.debug_info r) = PyFloat 24
     /\ is_reload_factor (GEMM.reloads (GEMM.debug_info r))
          (GEMM.working_set (GEMM.debug_info r))
          (cgra_sram_size reference_hardware))
  /\ (exists l,
        Conv.calculate_memory_access_latency_locals reference_hardware 16 3
          (conv_default_tile 16) = Ok l
        /\ Conv.working_set l
           = conv_working_set (conv_default_tile 16) (Conv.total_size l)
        /\ is_reload_factor (Conv.reloads l) (Conv.working_set l)
             (cgra_sram_size reference_hardware)).
Proof.
  split.
  - eexists.
    assert (H : GEMM.calculate_memory_access_latency reference_hardware 256
                  (GEMM._calculate_memory_requirements 256
                     (gemm_tiled_by None))
                  (gemm_tiled_by None) = Ok _)
      by (vm_compute; reflexivity).
    split; [exact H | split; [reflexivity | ]].
    pose proof (proj1 (proj1 (reload_multiplier_of_working_set
                                reference_hardware)
                         (gemm_tiled_by None) 256) _ H) as (_ & Hre & _).
    exact Hre.
  - eexists.
    assert (H : Conv.calculate_memory_access_latency_locals
                  reference_hardware 16 3 (conv_default_tile 16) = Ok _)
      by (vm_compute; reflexivity).
    split; [exact H | ].
    pose proof (proj1 (proj2 (reload_multiplier_of_working_set
                                reference_hardware)
                         (conv_default_tile 16) 16 3) _ H)
      as (Hws & Hre & _).
    split; [exact Hws | exact Hre].
Defined.

(* ================================================================== *)
(** * The tiled Conv transfer volume *)
(* ================================================================== *)

Lemma conv_tiled_loads_inv (dim k th tw i kb o : Z) (loads : Conv.Loads) :
  Conv.tiled_loads dim k (th, tw) i kb o = Ok loads ->
  let tiles_h := (dim + th - 1) / th in
  let tiles_w := (dim + tw - 1) / tw in
  th <> 0 /\ tw <> 0 /\ tiles_h * tiles_w <> 0
  /\ Conv.input_load loads
     = i / (tiles_h * tiles_w) * tiles_h * tiles_w * (1 + (k - 1))
  /\ Conv.kernel_load loads = kb
  /\ Conv.output_load loads = o.
Proof.
  unfold Conv.tiled_loads. intros H.
  apply bind_ok in H as (nh & Hh & H).
  apply floordiv_ok_inv in Hh as (Hth & ->).
  apply bind_ok in H as (nw & Hw & H).
  apply floordiv_ok_inv in Hw as (Htw & ->).
  apply bind_ok in H as (e & He & H).
  apply floordiv_ok_inv in He as (Hn & ->).
  apply Ok_inj in H; subst loads.
  repeat split; assumption.
Qed.

(** C3, as the code has it.  For a tiled Conv with positive tile sides
    [(th, tw)] and input side [n], the input volume moved from central to
    local memory is [effective_tile_bytes * tiles_h * tiles_w *
    (1 + (kernel_side - 1))] with [tiles_h = ceil(n / th)],
    [tiles_w = ceil(n / tw)] and [effective_tile_bytes] the integer quotient
    [floor(input_bytes / (tiles_h * tiles_w))]; it is
    [input_bytes * kernel_side] when the tile count divides [input_bytes].
    The kernel and the output are moved once each, and the total before the
    reload factor is the sum of the three. *)
Theorem tiled_conv_transfer_volume
  (hw : HardwareConfig) (config : Conv.ConvConfig) (dim k th tw : Z)
  (m : Conv.MemReq) (l : Conv.Locals) :
  Conv.tiling_size config = Some (th, tw) -> 0 < th -> 0 < tw ->
  Conv._calculate_memory_requirements dim k config = Ok m ->
  Conv.calculate_memory_access_latency_locals hw dim k config = Ok l ->
  let tiles_h := Qceiling (inject_Z dim / inject_Z th) in
  let tiles_w := Qceiling (inject_Z dim / inject_Z tw) in
  let effective_tile_bytes := Conv.input m / (tiles_h * tiles_w) in
  Conv.input_load (Conv.loads l)
  = effective_tile_bytes * tiles_h * tiles_w * (1 + (k - 1))
  /\ ((tiles_h * tiles_w | Conv.input m) ->
      Conv.input_load (Conv.loads l) = Conv.input m * k)
  /\ Conv.kernel_load (Conv.loads l) = Conv.kernel m
  /\ Conv.output_load (Conv.loads l) = Conv.output m
  /\ Conv.total_central_cgra_before l
     = Conv.input_load (Conv.loads l) + Conv.kernel_load (Conv.loads l)
       + Conv.output_load (Conv.loads l).
Proof.
  intros Ht Hth Htw Hm Hl tiles_h tiles_w effective_tile_bytes.
  apply conv_mem_req_inv in Hm as (_ & Hi & Hk & Ho & _).
  apply conv_locals_inv in Hl
    as (_ & (Hli & Hlk & Hlod & Hlo & _) & Hloads & Hbefore & _).
  rewrite Ht in Hloads.
  apply conv_tiled_loads_inv in Hloads as (_ & _ & Hn & Hin & Hke & Hou).
  subst tiles_h tiles_w effective_tile_bytes.
  rewrite !ceiling_of_int_ratio by assumption.
  assert (Ei : Conv.input_size l = Conv.input m) by congruence.
  assert (Ek : Conv.kernel_size_bytes l = Conv.kernel m) by congruence.
  assert (Eo : Conv.output_size l = Conv.output m).
  { rewrite Hlo, Hlod, Ho. reflexivity. }
  rewrite Ei in Hin. rewrite Ek in Hke. rewrite Eo in Hou.
  split; [exact Hin | ].
  split; [ | split; [exact Hke | split; [exact Hou | ]]].
  - intros (c & Hc). rewrite Hin, Hc.
    rewrite Z.div_mul by exact Hn. ring.
  - rewrite Hbefore. reflexivity.
Qed.

(** C3, with [/] read as the exact division, fails when the tile count does
    not divide the input bytes.  Input side 80, kernel side 3, one channel of
    4-byte elements, the default 32 x 32 tile: 3 x 3 tiles over 25600 bytes;
    the code moves [(25600 // 9) * 9 * 3 = 76788] bytes where the exact
    quotient gives 76800. *)
Lemma tiled_conv_volume_counterexample :
  exists l,
    Conv.calculate_memory_access_latency_locals reference_hardware 80 3
      (conv_default_tile 1) = Ok l
    /\ Conv.tiling_size (conv_default_tile 1) = Some (32, 32)
    /\ Conv.input_size l = 25600
    /\ Qceiling (inject_Z 80 / inject_Z 32) = 3
    /\ Conv.input_load (Conv.loads l) = 76788
    /\ (spec_tiled_input_load (Conv.input_size l) 3 3 3 == 76800)%Q
    /\ ~ (inject_Z (Conv.input_load (Conv.loads l))
          == spec_tiled_input_load (Conv.input_size l) 3 3 3)%Q.
Proof.
  eexists. split; [vm_compute; reflexivity | ].
  cbv beta iota delta [Conv.input_size Conv.loads Conv.input_load].
  repeat split; try reflexivity.
  intros H. vm_compute in H. discriminate.
Qed.

Lemma tiled_conv_transfer_volume_witness :
  exists m l,
    Conv._calculate_memory_requirements 80 3 (conv_default_tile 1) = Ok m
    /\ Conv.calculate_memory_access_latency_locals reference_hardware 80 3
         (conv_default_tile 1) = Ok l
    /\ Conv.input_load (Conv.loads l)
       = Conv.input m
         / (Qceiling (inject_Z 80 / inject_Z 32)
            * Qceiling (inject_Z 80 / inject_Z 32))
         * Qceiling (inject_Z 80 / inject_Z 32)
         * Qceiling (inject_Z 80 / inject_Z 32) * (1 + (3 - 1)).
Proof.
  eexists. eexists.
  assert (Hm : Conv._calculate_memory_requirements 80 3 (conv_default_tile 1)
               = Ok _) by (vm_compute; reflexivity).
  assert (Hl : Conv.calculate_memory_access_latency_locals
                 reference_hardware 80 3 (conv_default_tile 1) = Ok _)
    by (vm_compute; reflexivity).
  split; [exact Hm | split; [exact Hl | ]].
  exact (proj1 (tiled_conv_transfer_volume reference_hardware
                  (conv_default_tile 1) 80 3 32 32 _ _
                  eq_refl eq_refl eq_refl Hm Hl)).
Defined.

(* ================================================================== *)
(** * Malformed points *)
(* ================================================================== *)

Lemma reference_hardware_bounded : bounded_hardware reference_hardware.
Proof.
  split; [apply reference_hardware_positive | ].
  apply Z.leb_le. vm_compute. reflexivity.
Qed.





Lemma conv_zero_tile_raises (dim k th tw i kb o : Z) :
  th = 0 \/ tw = 0 ->
  Conv.tiled_loads dim k (th, tw) i kb o = Raise ZeroDivisionError.
Proof.
  intros H. unfold Conv.tiled_loads.
  destruct (Z.eq_dec th 0) as [-> | Hth]; [reflexivity | ].
  rewrite (floordiv_nonzero _ th) by exact Hth. cbn [bind].
  destruct H as [-> | ->]; [contradiction | reflexivity].
Qed.

(** C5, as the code has it.  A GEMM tile side of 0 is not an error: Python
    takes it for false, and the traffic computation is that of the untiled
    workload, which returns on a bounded profile for a dimension and an
    element size of magnitude at most [2^64].  A Conv tile height or width of
    0 makes the traffic computation raise [ZeroDivisionError]. *)
Theorem zero_sized_tile
  (hw : HardwareConfig) (dim : Z) :
  (forall (mem_req : GEMM.MemReq) (dims : list Z) (size : Z),
     GEMM.calculate_memory_access_latency hw dim mem_req
       {| GEMM.dimensions := dims;
          GEMM.data_type_size := size;
          GEMM.tiling_size := Some 0 |}
     = GEMM.calculate_memory_access_latency hw dim mem_req
         {| GEMM.dimensions := dims;
            GEMM.data_type_size := size;
            GEMM.tiling_size := None |})
  /\ (forall config : GEMM.GEMMConfig,
        bounded_hardware hw -> gemm_in_range config dim ->
        GEMM.tiling_size config = Some 0 ->
        exists r,
          GEMM.calculate_memory_access_latency hw dim
            (GEMM._calculate_memory_requirements dim config) config = Ok r)
  /\ (forall (config : Conv.ConvConfig) (k th tw : Z),
        Conv.tiling_size config = Some (th, tw) ->
        th = 0 \/ tw = 0 ->
        Conv.calculate_memory_access_latency hw dim k config
        = Raise ZeroDivisionError).
Proof.
  split; [ | split].
  - intros mem_req dims size. reflexivity.
  - intros config Hhw Hin _.
    destruct (gemm_mem_req_fits config dim Hin) as (Fm & _).
    apply (gemm_latency_ok hw dim _ config Hhw Hin Fm).
  - intros config k th tw Ht Hz.
    unfold Conv.calculate_memory_access_latency,
      Conv.calculate_memory_access_latency_locals.
    rewrite Ht.
    destruct (Z.eq_dec (Conv.stride config) 0) as [Es | Ns].
    + rewrite Es. reflexivity.
    + rewrite floordiv_nonzero by exact Ns.
      cbn [bind]. cbv zeta.
      rewrite conv_zero_tile_raises by exact Hz.
      match goal with
      | |- context [if ?c then _ else _] => destruct c
      end; reflexivity.
Qed.

(** C5, as the specification words it, fails for GEMM: with tile side 0 the
    traffic computation of the 16 x 16 point returns the untiled latencies
    on the reference profile. *)
Lemma zero_tile_gemm_counterexample :
  GEMM.tiling_size (gemm_tiled_by (Some 0)) = Some 0
  /\ exists r,
       GEMM.calculate_memory_access_latency reference_hardware 16
         (GEMM._calculate_memory_requirements 16 (gemm_tiled_by (Some 0)))
         (gemm_tiled_by (Some 0)) = Ok r
       /\ GEMM.dram_to_central r = 0
       /\ GEMM.central_to_cgra r = 256.
Proof.
  split; [reflexivity | ].
  eexists. split; [vm_compute; reflexivity | ].
  split; reflexivity.
Qed.

Lemma zero_sized_tile_witness :
  Conv.tiling_size (conv_tiled_by (0, 32)) = Some (0, 32)
  /\ Conv.calculate_memory_access_latency reference_hardware 16 3
       (conv_tiled_by (0, 32)) = Raise ZeroDivisionError.
Proof.
  split; [reflexivity | ].
  exact (proj2 (proj2 (zero_sized_tile reference_hardware 16))
           (conv_tiled_by (0, 32)) 3 0 32 eq_refl (or_introl eq_refl)).
Defined.

(* ================================================================== *)
(** * Worked points *)
(* ================================================================== *)

(** Scenario A in detail: 4096 bytes moved, working set 3072, no reload. *)
Example scenario_A_traffic :
  GEMM.calculate_memory_access_latency reference_hardware 16
    (GEMM._calculate_memory_requirements 16 (gemm_tiled_by None))
    (gemm_tiled_by None)
  = Ok {| GEMM.dram_to_central := 0;
          GEMM.central_to_cgra := 256;
          GEMM.debug_info :=
            {| GEMM.matrix_a_load := 1024;
               GEMM.matrix_b_load := 1024;
               GEMM.matrix_c_load := 1024;
               GEMM.matrix_c_store := 1024;
               GEMM.working_set := 3072;
               GEMM.reloads := PyInt 1 |} |}.
Proof. reflexivity. Qed.

(** Scenario B in detail: 1048576 bytes through DRAM, reload factor 24.0. *)
Example scenario_B_traffic :
  GEMM.calculate_memory_access_latency reference_hardware 256
    (GEMM._calculate_memory_requirements 256 (gemm_tiled_by None))
    (gemm_tiled_by None)
  = Ok {| GEMM.dram_to_central := 65536;
          GEMM.central_to_cgra := 1572864;
          GEMM.debug_info :=
            {| GEMM.matrix_a_load := 262144;
               GEMM.matrix_b_load := 262144;
               GEMM.matrix_c_load := 262144;
               GEMM.matrix_c_store := 262144;
               GEMM.working_set := 786432;
               GEMM.reloads := PyFloat 24 |} |}.
Proof. vm_compute. reflexivity. Qed.

(** A 64 x 64 GEMM in 16 x 16 tiles: 4 x 4 tiles of 1024 bytes per matrix. *)
Example tiled_gemm_traffic :
  GEMM.calculate_memory_access_latency reference_hardware 64
    (GEMM._calculate_memory_requirements 64 (gemm_tiled_by (Some 16)))
    (gemm_tiled_by (Some 16))
  = Ok {| GEMM.dram_to_central := 0;
          GEMM.central_to_cgra := 4096;
          GEMM.debug_info :=
            {| GEMM.matrix_a_load := 16384;
               GEMM.matrix_b_load := 16384;
               GEMM.matrix_c_load := 16384;
               GEMM.matrix_c_store := 16384;
               GEMM.working_set := 3072;
               GEMM.reloads := PyInt 1 |} |}.
Proof. vm_compute. reflexivity. Qed.

(** The default Conv sweep: four input sides, kernel side 3, untiled. *)
Example default_conv_sweep :
  exists r16 r32 r64 r128,
    Conv.analyze reference_hardware (Conv.ConvConfig_init conv_defaults)
    = Ok [r16; r32; r64; r128]
    /\ Conv.total_latency r16 = PyInt 4205
    /\ lat_computation (Conv.latencies r128) = PyInt 285768.
Proof.
  do 4 eexists. split; [vm_compute; reflexivity | split; reflexivity].
Qed.

(** A zero stride raises before any footprint is produced. *)
Example zero_stride_raises (hw : HardwareConfig) (config : Conv.ConvConfig)
  (dim k : Z) :
  Conv.stride config = 0 ->
  Conv.analyze_point hw config dim k = Raise ZeroDivisionError.
Proof.
  intros Hs. unfold Conv.analyze_point, Conv._calculate_memory_requirements.
  rewrite Hs. reflexivity.
Qed.


(** The quotient and the product are rounded.  With 48 KiB of local SRAM a
    tiled Conv of side 16, kernel side 5, 16 channels and 16 filters takes
    7601 cycles where exact arithmetic gives 7600; an untiled GEMM of
    dimension 12287 takes 8346698846190 cycles on the reference profile,
    one less than the exact ceiling. *)
Example rounded_reload_factor :
  Conv.calculate_memory_access_latency (hardware_with 48 16) 16 5
    (conv_tiled_channels 16 16)
  = Ok {| Conv.dram_to_central := 0; Conv.central_to_cgra := 7601 |}
  /\ (exists r,
        GEMM.calculate_memory_access_latency reference_hardware 12287
          (GEMM._calculate_memory_requirements 12287 (gemm_tiled_by None))
          (gemm_tiled_by None) = Ok r
        /\ GEMM.central_to_cgra r = 8346698846190).
Proof.
  split; [vm_compute; reflexivity | ].
  eexists. split; [vm_compute; reflexivity | reflexivity].
Qed.

(** Overflows surface as [OverflowError]: a kernel side of [10^80] on the
    default Conv workload, and a GEMM of dimension [10^110] with tile
    side 0. *)
Example overflow_raises :
  Conv.analyze_point reference_hardware (Conv.ConvConfig_init conv_defaults)
    2 (10 ^ 80) = Raise OverflowError
  /\ GEMM.analyze_point reference_hardware (gemm_tiled_by (Some 0))
       (10 ^ 110) = Raise OverflowError.
Proof. split; vm_compute; reflexivity. Qed.

(* ================================================================== *)
(** * The sweep *)
(* ================================================================== *)

Lemma for_each_ok_iff {A B : Type} (f : A -> result B)
  (xs : list A) (ys : list B) :
  for_each f xs = Ok ys <-> Forall2 (fun x y => f x = Ok y) xs ys.
Proof.
  revert ys. induction xs as [ | x xs IH]; intros ys; cbn [for_each].
  - split.
    + intros H. apply Ok_inj in H. subst ys. constructor.
    + intros H. inversion H. reflexivity.
  - split.
    + intros H.
      apply bind_ok in H as (y & Hy & H).
      apply bind_ok in H as (ys' & Hys & H).
      apply Ok_inj in H. subst ys.
      constructor; [exact Hy | apply IH, Hys].
    + intros H. inversion H as [ | x' y xs' ys' Hy Hys]; subst.
      rewrite Hy. cbn [bind].
      apply IH in Hys. rewrite Hys. reflexivity.
Qed.


Lemma for_each_raises {A B : Type} (f : A -> result B) (xs : list A)
  (e : exn) :
  (forall x, In x xs -> f x = Raise e) ->
  xs <> [] ->
  for_each f xs = Raise e.
Proof.
  destruct xs as [ | x xs]; [congruence | ].
  intros H _. cbn [for_each].
  rewrite (H x) by (left; reflexivity). reflexivity.
Qed.

Lemma Forall2_map_eq {A B C : Type} (g : B -> C) (h : A -> C)
  (P : A -> B -> Prop) (xs : list A) (ys : list B) :
  (forall x y, P x y -> g y = h x) ->
  Forall2 P xs ys -> map g ys = map h xs.
Proof.
  intros Hgh H. induction H as [ | x y xs ys Hxy _ IH]; cbn [map].
  - reflexivity.
  - rewrite (Hgh x y Hxy), IH. reflexivity.
Qed.

Lemma gemm_sweep_pointwise
  (hw : HardwareConfig) (config : GEMM.GEMMConfig) (rs : list GEMM.Result) :
  GEMM.analyze hw config = Ok rs ->
  Forall2 (fun dim r => GEMM.analyze_point hw config dim = Ok r)
    (GEMM.dimensions config) rs.
Proof.
  unfold GEMM.analyze. intros H. apply for_each_ok_iff, H.
Qed.

(** X1. A GEMM sweep that returns has analysed every dimension of the
    configuration on its own and kept the records in input order: the
    [i]-th record is the analysis of the [i]-th dimension, so the records
    list the dimensions as given (duplicates included). *)
Theorem gemm_sweep_in_input_order
  (hw : HardwareConfig) (config : GEMM.GEMMConfig) (rs : list GEMM.Result) :
  GEMM.analyze hw config = Ok rs ->
  Forall2 (fun dim r => GEMM.analyze_point hw config dim = Ok r)
    (GEMM.dimensions config) rs
  /\ map GEMM.dimension rs = GEMM.dimensions config
  /\ List.length rs = List.length (GEMM.dimensions config).
Proof.
  unfold GEMM.analyze. intros H.
  apply for_each_ok_iff in H.
  split; [exact H | split].
  - rewrite <- (map_id (GEMM.dimensions config)).
    apply Forall2_map_eq with (2 := H).
    intros dim r Hr.
    apply gemm_point_inv in Hr as (l & u & t & _ & _ & _ & ->).
    reflexivity.
  - symmetry. apply (Forall2_length H).
Qed.

Lemma gemm_sweep_in_input_order_witness :
  exists rs,
    GEMM.analyze reference_hardware (gemm_tiled_by None) = Ok rs
    /\ map GEMM.dimension rs = [16; 32; 64; 128; 256].
Proof.
  eexists.
  assert (H : GEMM.analyze reference_hardware (gemm_tiled_by None) = Ok _)
    by (vm_compute; reflexivity).
  split; [exact H | ].
  exact (proj1 (proj2 (gemm_sweep_in_input_order
                         reference_hardware (gemm_tiled_by None) _ H))).
Defined.

Lemma Forall2_pair_row {A B C : Type} (P : A -> B -> C -> Prop)
  (x : A) (ks : list B) (row : list C) :
  Forall2 (P x) ks row ->
  Forall2 (fun p r => P (fst p) (snd p) r) (map (pair x) ks) row.
Proof.
  intros H. induction H as [ | k r ks row Hkr _ IH]; cbn [map];
    constructor; assumption.
Qed.

Lemma Forall2_concat_product {A B C : Type} (P : A -> B -> C -> Prop)
  (xs : list A) (ks : list B) (rows : list (list C)) :
  Forall2 (fun x row => Forall2 (P x) ks row) xs rows ->
  Forall2 (fun p r => P (fst p) (snd p) r)
    (list_prod xs ks) (List.concat rows).
Proof.
  intros H. induction H as [ | x row xs rows Hrow _ IH];
    cbn [list_prod List.concat].
  - constructor.
  - apply Forall2_app; [apply Forall2_pair_row, Hrow | exact IH].
Qed.

(** X2. A Conv sweep that returns has analysed every pair of an input side
    and a kernel side on its own, input sides in the outer loop and kernel
    sides in the inner one: the records follow the pairs of
    [input_dimensions x kernel_sizes] in that order, one record per pair. *)
Theorem conv_sweep_in_input_order
  (hw : HardwareConfig) (config : Conv.ConvConfig) (rs : list Conv.Result) :
  Conv.analyze hw config = Ok rs ->
  Forall2
    (fun p r => Conv.analyze_point hw config (fst p) (snd p) = Ok r)
    (list_prod (Conv.input_dimensions config) (Conv.kernel_sizes config)) rs
  /\ map (fun r => (Conv.input_dimension r, Conv.kernel_size r)) rs
     = list_prod (Conv.input_dimensions config) (Conv.kernel_sizes config)
  /\ List.length rs
     = (List.length (Conv.input_dimensions config)
        * List.length (Conv.kernel_sizes config))%nat.
Proof.
  unfold Conv.analyze. intros H.
  apply bind_ok in H as (rows & Hrows & H).
  apply Ok_inj in H. subst rs.
  apply for_each_ok_iff in Hrows.
  assert (Hall :
    Forall2
      (fun p r => Conv.analyze_point hw config (fst p) (snd p) = Ok r)
      (list_prod (Conv.input_dimensions config) (Conv.kernel_sizes config))
      (List.concat rows)).
  { apply (Forall2_concat_product
             (fun dim k r => Conv.analyze_point hw config dim k = Ok r)).
    eapply Forall2_impl; [ | exact Hrows].
    intros dim row Hrow. apply for_each_ok_iff, Hrow. }
  split; [exact Hall | split].
  - rewrite <- (map_id (list_prod _ _)).
    apply Forall2_map_eq with (2 := Hall).
    intros [dim k] r Hr. cbn [fst snd] in Hr.
    apply conv_point_inv in Hr as (m & l & u & t & _ & _ & _ & _ & ->).
    reflexivity.
  - rewrite <- (Forall2_length Hall). apply length_prod.
Qed.

Lemma conv_sweep_in_input_order_witness :
  exists rs,
    Conv.analyze reference_hardware (Conv.ConvConfig_init conv_defaults)
    = Ok rs
    /\ map (fun r => (Conv.input_dimension r, Conv.kernel_size r)) rs
       = [(16, 3); (32, 3); (64, 3); (128, 3)].
Proof.
  eexists.
  assert (H : Conv.analyze reference_hardware
                (Conv.ConvConfig_init conv_defaults) = Ok _)
    by (vm_compute; reflexivity).
  split; [exact H | ].
  exact (proj1 (proj2 (conv_sweep_in_input_order reference_hardware
                         (Conv.ConvConfig_init conv_defaults) _ H))).
Defined.

Lemma for_each_defined {A B : Type} (f : A -> result B) (xs : list A) :
  (forall x, In x xs -> exists y, f x = Ok y) ->
  exists ys, for_each f xs = Ok ys.
Proof.
  induction xs as [ | x xs IH]; intros H; cbn [for_each].
  - eauto.
  - destruct (H x (or_introl eq_refl)) as (y & ->).
    destruct IH as (ys & ->); [intros x' Hx'; apply H; right; exact Hx' | ].
    cbn [bind]. eauto.
Qed.


Lemma float_of_int_0 : float_of_int 0 = Ok (Finite 0).
Proof. vm_compute. reflexivity. Qed.

Lemma truediv_float_zero (f : float) :
  truediv (Float f) (PyInt 0) = Raise ZeroDivisionError.
Proof.
  unfold truediv. cbn [to_float bind]. rewrite float_of_int_0. reflexivity.
Qed.

Lemma transfer_zero_rate (hw : HardwareConfig) (x : number) :
  dma_transfer_rate hw = 0 ->
  _calculate_transfer_latency hw x = Raise ZeroDivisionError.
Proof.
  intros H. unfold _calculate_transfer_latency. rewrite H.
  destruct x as [b | f].
  - rewrite truediv_int_zero. reflexivity.
  - rewrite truediv_float_zero. reflexivity.
Qed.

Lemma scaled_transfer_raises (hw : HardwareConfig) (moved ws : Z) :
  cgra_sram_size hw = 0 \/ dma_transfer_rate hw = 0 ->
  fits 1023 moved -> fits 1023 ws ->
  scaled_transfer hw moved ws = Raise ZeroDivisionError.
Proof.
  intros Hz Hm Hw. unfold scaled_transfer.
  destruct (Z.eq_dec (cgra_sram_size hw) 0) as [E | N].
  - rewrite E, truediv_int_zero. reflexivity.
  - destruct Hz as [E | E]; [contradiction | ].
    rewrite truediv_int_ok by assumption. cbn [bind].
    rewrite max_one_finite.
    destruct (Qle_bool _ 1).
    + rewrite mul_one. cbn [bind]. apply transfer_zero_rate, E.
    + rewrite mul_int_float_ok by exact Hm. cbn [bind].
      apply transfer_zero_rate, E.
Qed.

(** The statements after the placement branch raise what the scaled transfer
    raises. *)
Lemma scaled_tail_raises {A : Type} (hw : HardwareConfig) (moved ws : Z)
  (e : exn) (k : float -> number -> Z -> result A) :
  scaled_transfer hw moved ws = Raise e ->
  bind (truediv (PyInt ws) (PyInt (cgra_sram_size hw)))
    (fun ratio =>
       bind (mul (PyInt moved) (max (PyInt 1) (Float ratio)))
         (fun total =>
            bind (_calculate_transfer_latency hw total)
              (fun c => k ratio total c)))
  = Raise e.
Proof.
  unfold scaled_transfer. intros H.
  destruct (truediv (PyInt ws) (PyInt (cgra_sram_size hw))) as [ratio | e1];
    cbn [bind] in *; [ | congruence].
  destruct (mul (PyInt moved) (max (PyInt 1) (Float ratio))) as [p | e2];
    cbn [bind] in *; [ | congruence].
  destruct (_calculate_transfer_latency hw p) as [c | e3];
    cbn [bind] in *; [discriminate | congruence].
Qed.

Lemma gemm_latency_raises (hw : HardwareConfig) (dim : Z)
  (mem_req : GEMM.MemReq) (config : GEMM.GEMMConfig) :
  cgra_sram_size hw = 0 \/ dma_transfer_rate hw = 0 ->
  fits 1023 (dma_transfer_rate hw) ->
  gemm_in_range config dim -> fits 200 (GEMM.per_matrix mem_req) ->
  GEMM.calculate_memory_access_latency hw dim mem_req config
  = Raise ZeroDivisionError.
Proof.
  intros Hz Hrf Hin Hm.
  unfold GEMM.calculate_memory_access_latency.
  rewrite gemm_working_set_eq.
  destruct (gemm_loads_defined dim config (GEMM.per_matrix mem_req))
    as (loads & Hloads).
  pose proof (gemm_loads_fit dim config _ loads Hin Hm Hloads) as Fl.
  pose proof (gemm_working_set_fits config dim _ Hin Hm) as Fw.
  assert (Fl' : fits 1023 (GEMM.loads_total loads))
    by (apply fits_weaken with 400; [lia | exact Fl]).
  assert (Fw' : fits 1023
                  (gemm_working_set config (GEMM.per_matrix mem_req * 3)))
    by (apply fits_weaken with 400; [lia | exact Fw]).
  pose proof (scaled_transfer_raises hw _ _ Hz Fl' Fw') as Hs.
  rewrite Hloads. cbn [bind].
  destruct (GEMM.per_matrix mem_req * 3 <=? central_sram_size hw).
  - cbn [bind GEMM.p_total_central_cgra]. cbv zeta.
    apply scaled_tail_raises, Hs.
  - destruct (Z.eq_dec (dma_transfer_rate hw) 0) as [E | N].
    + rewrite transfer_zero_rate by exact E. reflexivity.
    + rewrite transfer_int_ok by assumption.
      cbn [bind GEMM.p_total_central_cgra]. cbv zeta.
      apply scaled_tail_raises, Hs.
Qed.

Lemma utilization_raises (hw : HardwareConfig) (t : Z) :
  cgra_sram_size hw = 0 \/ central_sram_size hw = 0 \/ dram_size hw = 0 ->
  fits 1023 t ->
  _calculate_memory_utilization hw t = Raise ZeroDivisionError.
Proof.
  intros Hz Ht. unfold _calculate_memory_utilization.
  destruct (Z.eq_dec (cgra_sram_size hw) 0) as [E | N].
  { rewrite E, truediv_int_zero. reflexivity. }
  rewrite truediv_int_ok by assumption. cbn [bind].
  destruct (Z.eq_dec (central_sram_size hw) 0) as [E | N'].
  { rewrite E, truediv_int_zero. reflexivity. }
  rewrite truediv_int_ok by assumption. cbn [bind].
  destruct Hz as [E | [E | E]]; try contradiction.
  rewrite E, truediv_int_zero. reflexivity.
Qed.

Lemma gemm_point_raises (hw : HardwareConfig) (config : GEMM.GEMMConfig)
  (dim : Z) :
  ~ nonzero_hardware hw -> fits 1023 (dma_transfer_rate hw) ->
  gemm_in_range config dim ->
  GEMM.analyze_point hw config dim = Raise ZeroDivisionError.
Proof.
  intros Hz Hrf Hin.
  destruct (gemm_mem_req_fits config dim Hin) as (Fm & Ft).
  unfold GEMM.analyze_point, GEMM._calculate_latencies. cbv zeta.
  destruct (Z.eq_dec (cgra_sram_size hw) 0) as [El | Nl].
  { rewrite gemm_latency_raises by auto. reflexivity. }
  destruct (Z.eq_dec (dma_transfer_rate hw) 0) as [Er | Nr].
  { rewrite gemm_latency_raises by auto. reflexivity. }
  destruct (gemm_latency_returns hw dim
              (GEMM._calculate_memory_requirements dim config) config
              Nl Nr Hrf Hin Fm) as (ml & Hml & _).
  rewrite Hml. cbn [bind].
  destruct Hin as (Hd & He & _).
  rewrite truediv_int_ok; [ | discriminate | fits_bound].
  cbn [bind].
  rewrite utilization_raises; [reflexivity | | ].
  - unfold nonzero_hardware in Hz.
    destruct (Z.eq_dec (central_sram_size hw) 0) as [Ec | Nc]; [auto | ].
    destruct (Z.eq_dec (dram_size hw) 0) as [Ed | Nd]; [auto | ].
    exfalso. apply Hz. auto.
  - apply fits_weaken with 200; [lia | exact Ft].
Qed.

Lemma gemm_point_nonzero (hw : HardwareConfig) (config : GEMM.GEMMConfig)
  (dim : Z) (r : GEMM.Result) :
  GEMM.analyze_point hw config dim = Ok r -> nonzero_hardware hw.
Proof.
  intros Hr.
  apply gemm_point_inv in Hr as (l & u & t & Hl & Hu & _ & _).
  apply utilization_inv in Hu as ((Nl & Nc & Nd) & _).
  apply gemm_latencies_inv in Hl as (ml & Hml & _).
  apply gemm_latency_inv in Hml as (_ & _ & _ & Hs).
  apply scaled_transfer_inv in Hs as (_ & Nr & _).
  unfold nonzero_hardware. auto.
Qed.

(** X3. A GEMM sweep that returns a record has a profile without a zero
    capacity or a zero DMA rate.  For dimensions, element size and tile side
    of magnitude at most [2^64] (zero and negative ones included) and a rate
    of magnitude at most [2^1023] that is the only condition: the sweep
    returns exactly when it has no dimension to analyse or the three
    capacities and the rate are non-zero, and otherwise it raises
    [ZeroDivisionError]. *)
Theorem gemm_sweep_returns_iff
  (hw : HardwareConfig) (config : GEMM.GEMMConfig) :
  (forall rs,
     GEMM.analyze hw config = Ok rs -> GEMM.dimensions config <> [] ->
     nonzero_hardware hw)
  /\ (fits 1023 (dma_transfer_rate hw) ->
      (forall dim, In dim (GEMM.dimensions config) ->
                   gemm_in_range config dim) ->
      ((exists rs, GEMM.analyze hw config = Ok rs)
       <-> (GEMM.dimensions config = [] \/ nonzero_hardware hw))
      /\ (GEMM.dimensions config <> [] -> ~ nonzero_hardware hw ->
          GEMM.analyze hw config = Raise ZeroDivisionError)).
Proof.
  assert (Hnec : forall rs,
            GEMM.analyze hw config = Ok rs ->
            GEMM.dimensions config <> [] -> nonzero_hardware hw).
  { intros rs H Hne. apply gemm_sweep_pointwise in H.
    destruct (GEMM.dimensions config) as [ | dim dims]; [congruence | ].
    inversion H as [ | x r xs rs' Hr _]; subst.
    apply (gemm_point_nonzero hw config dim r Hr). }
  split; [exact Hnec | ].
  intros Hrf Hin. split.
  - split.
    + intros (rs & H).
      destruct (GEMM.dimensions config) as [ | dim dims] eqn:E;
        [left; reflexivity | right].
      apply (Hnec rs H). discriminate.
    + intros [E | Hnz]; unfold GEMM.analyze.
      * rewrite E. cbn [for_each]. eauto.
      * apply for_each_defined. intros dim Hd.
        apply gemm_point_returns; [exact Hnz | exact Hrf | apply Hin, Hd].
  - intros Hne Hz. unfold GEMM.analyze.
    apply for_each_raises; [ | exact Hne].
    intros dim Hd. apply gemm_point_raises; [exact Hz | exact Hrf | ].
    apply Hin, Hd.
Qed.

Lemma default_gemm_in_range (tiling : option Z) (dim : Z) :
  match tiling with Some t => fits 64 t | None => True end ->
  fits 64 dim -> gemm_in_range (gemm_tiled_by tiling) dim.
Proof.
  intros Ht Hd. unfold gemm_in_range.
  split; [exact Hd | split; [ | exact Ht]].
  unfold fits. cbn. discriminate.
Qed.

Lemma gemm_sweep_returns_iff_witness :
  GEMM.analyze (HardwareConfig_init [("dma_transfer_rate", 0)]%string)
    (gemm_tiled_by None)
  = Raise ZeroDivisionError.
Proof.
  apply (proj2 (gemm_sweep_returns_iff
                  (HardwareConfig_init [("dma_transfer_rate", 0)]%string)
                  (gemm_tiled_by None))).
  - unfold fits. cbn. discriminate.
  - intros dim Hd. apply (default_gemm_in_range None); [exact I | ].
    unfold fits. cbn in Hd.
    repeat (destruct Hd as [<- | Hd]; [cbn; discriminate | ]).
    destruct Hd.
  - discriminate.
  - unfold nonzero_hardware. cbn. intros (_ & _ & _ & H). apply H.
    reflexivity.
Defined.

Lemma for_each_nothing {A B : Type} (xs : list A) :
  for_each (fun _ : A => @Ok (list B) []) xs = Ok (map (fun _ => []) xs).
Proof.
  induction xs as [ | x xs IH]; cbn [for_each map bind];
    [reflexivity | rewrite IH; reflexivity].
Qed.

Lemma concat_nothing {A B : Type} (xs : list A) :
  List.concat (map (fun _ : A => @nil B) xs) = [].
Proof.
  induction xs as [ | x xs IH]; cbn [map List.concat app];
    [reflexivity | exact IH].
Qed.

(** X4. A Conv sweep with no input side or no kernel side returns the
    empty list without evaluating anything, even on a profile or a workload
    on which every point would raise; with a zero stride and at least one
    input side and one kernel side it raises [ZeroDivisionError]. *)
Theorem conv_sweep_edge_cases
  (hw : HardwareConfig) (config : Conv.ConvConfig) :
  (Conv.input_dimensions config = [] \/ Conv.kernel_sizes config = [] ->
   Conv.analyze hw config = Ok [])
  /\ (Conv.stride config = 0 ->
      Conv.input_dimensions config <> [] ->
      Conv.kernel_sizes config <> [] ->
      Conv.analyze hw config = Raise ZeroDivisionError).
Proof.
  unfold Conv.analyze. split.
  - intros [E | E]; rewrite E.
    + reflexivity.
    + cbn [for_each]. rewrite for_each_nothing. cbn [bind].
      rewrite concat_nothing. reflexivity.
  - intros Hs Hd Hk.
    destruct (Conv.input_dimensions config) as [ | dim dims];
      [congruence | ].
    destruct (Conv.kernel_sizes config) as [ | k ks]; [congruence | ].
    cbn [for_each]. rewrite zero_stride_raises by exact Hs. reflexivity.
Qed.

Lemma conv_sweep_edge_cases_witness :
  Conv.analyze (HardwareConfig_init [("dma_transfer_rate", 0)]%string)
    (Conv.ConvConfig_init
       {| Conv.cd_input_dimensions := None;
          Conv.cd_kernel_sizes := Some [];
          Conv.cd_num_channels := None;
          Conv.cd_num_filters := None;
          Conv.cd_data_type_size := None;
          Conv.cd_padding := None;
          Conv.cd_stride := Some 0;
          Conv.cd_dilation := None;
          Conv.cd_groups := None;
          Conv.cd_tiling := None;
          Conv.cd_memory_pattern := None |})
  = Ok [].
Proof.
  apply (proj1 (conv_sweep_edge_cases _ _)). right. reflexivity.
Defined.


(* ================================================================== *)
(** * GEMM traffic *)
(* ================================================================== *)

Lemma tile_cover (dim t : Z) : 0 < t -> dim <= t * ((dim + t - 1) / t).
Proof.
  intros Ht.
  pose proof (Z.div_mod (dim + t - 1) t ltac:(lia)) as Hdm.
  pose proof (Z.mod_pos_bound (dim + t - 1) t Ht) as Hm.
  lia.
Qed.

Lemma tile_count_exact (c t : Z) : 0 < t -> (c * t + t - 1) / t = c.
Proof.
  intros Ht.
  replace (c * t + t - 1) with (t - 1 + c * t) by ring.
  rewrite Z.div_add by lia.
  rewrite Z.div_small by lia. reflexivity.
Qed.

Lemma tile_count_one (dim t : Z) : 0 < dim -> dim <= t -> (dim + t - 1) / t = 1.
Proof.
  intros Hd Ht. symmetry.
  apply Z.div_unique with (r := dim - 1); lia.
Qed.

(** X5. In the GEMM model tiling never saves traffic.  With a positive tile
    side [t], a non-negative dimension and element size, each of the four
    transfers (A, B, C load, C store) of a tiled run is at least one whole
    matrix, the untiled volume; it is exactly one matrix when [t] divides
    the dimension, and [t^2 * element_size], a whole tile, when the
    dimension is positive and at most [t]. *)
Theorem gemm_tiling_never_saves_traffic
  (hw : HardwareConfig) (config : GEMM.GEMMConfig) (dim t : Z)
  (r : GEMM.MemoryLatencies) :
  GEMM.tiling_size config = Some t -> 0 < t ->
  0 <= dim -> 0 <= GEMM.data_type_size config ->
  let mem_req := GEMM._calculate_memory_requirements dim config in
  GEMM.calculate_memory_access_latency hw dim mem_req config = Ok r ->
  let d := GEMM.debug_info r in
  (GEMM.matrix_a_load d = GEMM.matrix_b_load d
   /\ GEMM.matrix_b_load d = GEMM.matrix_c_load d
   /\ GEMM.matrix_c_load d = GEMM.matrix_c_store d)
  /\ GEMM.per_matrix mem_req <= GEMM.matrix_a_load d
  /\ ((t | dim) -> GEMM.matrix_a_load d = GEMM.per_matrix mem_req)
  /\ (0 < dim -> dim <= t ->
      GEMM.matrix_a_load d = t * t * GEMM.data_type_size config).
Proof.
  intros Hts Ht Hdim Hes mem_req Hr d.
  apply gemm_latency_loads_inv in Hr.
  unfold GEMM.if_tiling in Hr. rewrite Hts in Hr.
  destruct (Z.eqb_spec t 0) as [E | _]; [lia | ].
  rewrite gemm_tiled_loads_value in Hr by lia.
  apply Ok_inj in Hr. fold d in Hr.
  injection Hr as Ha Hb Hc Hs.
  set (n := (dim + t - 1) / t) in *.
  set (es := GEMM.data_type_size config) in *.
  split; [repeat split; congruence | ].
  rewrite <- Ha.
  cbn [mem_req GEMM._calculate_memory_requirements GEMM.per_matrix].
  fold es.
  split; [ | split].
  - pose proof (tile_cover dim t Ht) as Hcov. fold n in Hcov.
    assert (Hsq : dim * dim <= (t * n) * (t * n)) by nia.
    replace (t * t * es * n * n) with ((t * n) * (t * n) * es) by ring.
    apply Z.mul_le_mono_nonneg_r; assumption.
  - intros (c & Hc'). subst n. rewrite Hc'.
    rewrite tile_count_exact by exact Ht. ring.
  - intros Hpos Hle. subst n.
    rewrite tile_count_one by assumption. ring.
Qed.

Lemma gemm_tiling_never_saves_traffic_witness :
  exists r,
    GEMM.calculate_memory_access_latency reference_hardware 100
      (GEMM._calculate_memory_requirements 100 (gemm_tiled_by (Some 16)))
      (gemm_tiled_by (Some 16)) = Ok r
    /\ GEMM.per_matrix
         (GEMM._calculate_memory_requirements 100 (gemm_tiled_by (Some 16)))
       <= GEMM.matrix_a_load (GEMM.debug_info r).
Proof.
  eexists.
  assert (H : GEMM.calculate_memory_access_latency reference_hardware 100
                (GEMM._calculate_memory_requirements 100
                   (gemm_tiled_by (Some 16)))
                (gemm_tiled_by (Some 16)) = Ok _)
    by (vm_compute; reflexivity).
  split; [exact H | ].
  exact (proj1 (proj2 (gemm_tiling_never_saves_traffic reference_hardware
                         (gemm_tiled_by (Some 16)) 100 16 _
                         eq_refl eq_refl ltac:(discriminate)
                         ltac:(discriminate) H))).
Defined.


(* ================================================================== *)
(** * The two links *)
(* ================================================================== *)

Lemma conv_latency_locals (hw : HardwareConfig) (dim k : Z)
  (config : Conv.ConvConfig) (m : Conv.MemoryLatencies) :
  Conv.calculate_memory_access_latency hw dim k config = Ok m ->
  exists l,
    Conv.calculate_memory_access_latency_locals hw dim k config = Ok l
    /\ Conv.dram_to_central m = Conv.l_dram_to_central l
    /\ Conv.central_to_cgra m = Conv.l_central_to_cgra l.
Proof.
  unfold Conv.calculate_memory_access_latency. intros H.
  apply bind_ok in H as (l & Hl & H).
  apply Ok_inj in H. subst m. exists l. auto.
Qed.


Lemma scaled_transfer_hw (hw1 hw2 : HardwareConfig) (moved ws : Z) :
  cgra_sram_size hw1 = cgra_sram_size hw2 ->
  dma_transfer_rate hw1 = dma_transfer_rate hw2 ->
  scaled_transfer hw1 moved ws = scaled_transfer hw2 moved ws.
Proof.
  unfold scaled_transfer, _calculate_transfer_latency.
  intros -> ->. reflexivity.
Qed.

Lemma conv_local_link_determined (hw1 hw2 : HardwareConfig) (dim k : Z)
  (config : Conv.ConvConfig) (l1 l2 : Conv.Locals) :
  cgra_sram_size hw1 = cgra_sram_size hw2 ->
  dma_transfer_rate hw1 = dma_transfer_rate hw2 ->
  Conv.calculate_memory_access_latency_locals hw1 dim k config = Ok l1 ->
  Conv.calculate_memory_access_latency_locals hw2 dim k config = Ok l2 ->
  Conv.loads l1 = Conv.loads l2
  /\ Conv.reloads l1 = Conv.reloads l2
  /\ Conv.l_central_to_cgra l1 = Conv.l_central_to_cgra l2.
Proof.
  intros Hc Hr H1 H2.
  apply conv_locals_inv in H1
    as (_ & (Hi1 & Hk1 & Hd1 & Ho1 & Ht1) & Hl1 & Hb1 & _ & Hw1 & Hre1
        & _ & _ & Hs1).
  apply conv_locals_inv in H2
    as (_ & (Hi2 & Hk2 & Hd2 & Ho2 & Ht2) & Hl2 & Hb2 & _ & Hw2 & Hre2
        & _ & _ & Hs2).
  assert (Ei : Conv.input_size l1 = Conv.input_size l2) by congruence.
  assert (Ek : Conv.kernel_size_bytes l1 = Conv.kernel_size_bytes l2)
    by congruence.
  assert (Eo : Conv.output_size l1 = Conv.output_size l2)
    by (rewrite Ho1, Ho2, Hd1, Hd2; reflexivity).
  assert (Et : Conv.total_size l1 = Conv.total_size l2) by congruence.
  assert (El : Conv.loads l1 = Conv.loads l2).
  { rewrite Ei, Ek, Eo in Hl1.
    destruct (Conv.tiling_size config); [ | congruence].
    rewrite Hl1 in Hl2. apply Ok_inj in Hl2. exact Hl2. }
  assert (Ew : Conv.working_set l1 = Conv.working_set l2) by congruence.
  assert (Er : Conv.reloads l1 = Conv.reloads l2)
    by (rewrite Hre1, Hre2, Ew, Hc; reflexivity).
  split; [exact El | split; [exact Er | ]].
  rewrite (scaled_transfer_hw hw1 hw2 _ _ Hc Hr) in Hs1.
  rewrite Hb1, El, <- Hb2, Ew, Hs2 in Hs1.
  apply Ok_inj in Hs1. symmetry. exact Hs1.
Qed.

(** X6. Where the data is placed changes the DRAM link only.  Two
    profiles with the same local SRAM size and DMA rate, whatever their
    central SRAM and DRAM sizes, give the same central-to-local cycles, and
    for GEMM the same [debug_info] (loads, working set and reload factor),
    for the same workload point. *)
Theorem local_link_ignores_placement
  (hw1 hw2 : HardwareConfig) :
  cgra_sram_size hw1 = cgra_sram_size hw2 ->
  dma_transfer_rate hw1 = dma_transfer_rate hw2 ->
  (forall (dim : Z) (mem_req : GEMM.MemReq) (config : GEMM.GEMMConfig)
          (r1 r2 : GEMM.MemoryLatencies),
     GEMM.calculate_memory_access_latency hw1 dim mem_req config = Ok r1 ->
     GEMM.calculate_memory_access_latency hw2 dim mem_req config = Ok r2 ->
     GEMM.central_to_cgra r1 = GEMM.central_to_cgra r2
     /\ GEMM.debug_info r1 = GEMM.debug_info r2)
  /\ (forall (dim k : Z) (config : Conv.ConvConfig)
             (m1 m2 : Conv.MemoryLatencies),
        Conv.calculate_memory_access_latency hw1 dim k config = Ok m1 ->
        Conv.calculate_memory_access_latency hw2 dim k config = Ok m2 ->
        Conv.central_to_cgra m1 = Conv.central_to_cgra m2).
Proof.
  intros Hc Hr. split.
  - intros dim mem_req config r1 r2 H1 H2.
    pose proof (gemm_latency_loads_inv _ _ _ _ _ H1) as L1.
    pose proof (gemm_latency_loads_inv _ _ _ _ _ H2) as L2.
    rewrite L1 in L2. apply Ok_inj in L2. injection L2 as Ea Eb Ec Es.
    apply gemm_latency_inv in H1 as (_ & Hw1 & Hre1 & Hs1).
    apply gemm_latency_inv in H2 as (_ & Hw2 & Hre2 & Hs2).
    assert (Ew : GEMM.working_set (GEMM.debug_info r1)
                 = GEMM.working_set (GEMM.debug_info r2)) by congruence.
    assert (Er : GEMM.reloads (GEMM.debug_info r1)
                 = GEMM.reloads (GEMM.debug_info r2))
      by (rewrite Hre1, Hre2, Ew, Hc; reflexivity).
    split.
    + rewrite (scaled_transfer_hw hw1 hw2 _ _ Hc Hr) in Hs1.
      rewrite Ea, Eb, Ec, Es, Ew, Hs2 in Hs1.
      apply Ok_inj in Hs1. symmetry. exact Hs1.
    + destruct (GEMM.debug_info r1), (GEMM.debug_info r2).
      cbn [GEMM.matrix_a_load GEMM.matrix_b_load GEMM.matrix_c_load
           GEMM.matrix_c_store GEMM.working_set GEMM.reloads] in *.
      congruence.
  - intros dim k config m1 m2 H1 H2.
    apply conv_latency_locals in H1 as (l1 & H1 & _ & ->).
    apply conv_latency_locals in H2 as (l2 & H2 & _ & ->).
    apply (conv_local_link_determined hw1 hw2 dim k config l1 l2 Hc Hr H1 H2).
Qed.

Lemma local_link_ignores_placement_witness :
  exists r1 r2,
    GEMM.calculate_memory_access_latency reference_hardware 256
      (GEMM._calculate_memory_requirements 256 (gemm_tiled_by None))
      (gemm_tiled_by None) = Ok r1
    /\ GEMM.calculate_memory_access_latency
         (HardwareConfig_init [("central_sram_size", 4096)]%string) 256
         (GEMM._calculate_memory_requirements 256 (gemm_tiled_by None))
         (gemm_tiled_by None) = Ok r2
    /\ GEMM.dram_to_central r1 <> GEMM.dram_to_central r2
    /\ GEMM.central_to_cgra r1 = GEMM.central_to_cgra r2.
Proof.
  eexists. eexists.
  assert (H1 : GEMM.calculate_memory_access_latency reference_hardware 256
                 (GEMM._calculate_memory_requirements 256
                    (gemm_tiled_by None))
                 (gemm_tiled_by None) = Ok _) by (vm_compute; reflexivity).
  assert (H2 : GEMM.calculate_memory_access_latency
                 (HardwareConfig_init [("central_sram_size", 4096)]%string)
                 256
                 (GEMM._calculate_memory_requirements 256
                    (gemm_tiled_by None))
                 (gemm_tiled_by None) = Ok _) by (vm_compute; reflexivity).
  split; [exact H1 | split; [exact H2 | split; [discriminate | ]]].
  exact (proj1 (proj1 (local_link_ignores_placement
                         reference_hardware
                         (HardwareConfig_init
                            [("central_sram_size", 4096)]%string)
                         eq_refl eq_refl)
                  256 _ (gemm_tiled_by None) _ _ H1 H2)).
Defined.


Lemma transfer_int_nonneg (hw : HardwareConfig) (b c : Z) :
  0 < dma_transfer_rate hw -> 0 <= b ->
  _calculate_transfer_latency hw (PyInt b) = Ok c -> 0 <= c.
Proof.
  intros Hr Hb H. apply transfer_int_inv in H as (_ & ->).
  apply Qceiling_nonneg, round_nonneg.
  apply Qle_shift_div_l; [apply inject_Z_pos, Hr | ].
  rewrite Qmult_0_l. apply inject_Z_nonneg, Hb.
Qed.

Lemma transfer_float_nonneg (hw : HardwareConfig) (q : Q) (c : Z) :
  0 < dma_transfer_rate hw -> (0 <= q)%Q ->
  _calculate_transfer_latency hw (PyFloat q) = Ok c -> 0 <= c.
Proof.
  intros Hr Hq H. apply transfer_float_inv in H as (_ & ->).
  apply Qceiling_nonneg, round_nonneg.
  apply Qle_shift_div_l; [apply nearest64_rate_pos, Hr | ].
  rewrite Qmult_0_l. exact Hq.
Qed.

Lemma scaled_transfer_nonneg (hw : HardwareConfig) (moved ws c : Z) :
  0 < dma_transfer_rate hw -> 0 <= moved ->
  scaled_transfer hw moved ws = Ok c -> 0 <= c.
Proof.
  intros Hr Hm H. apply scaled_transfer_inv in H as (_ & _ & H).
  set (q := nearest64 (inject_Z ws / inject_Z (cgra_sram_size hw))) in *.
  destruct (Qle_bool q 1) eqn:E.
  - apply (transfer_int_nonneg hw moved c Hr Hm H).
  - assert (Hq : (1 < q)%Q).
    { apply Qnot_le_lt. intros L. apply Qle_bool_iff in L. congruence. }
    apply (transfer_float_nonneg hw _ c Hr) in H; [exact H | ].
    apply nearest64_nonneg.
    pose proof (nearest64_nonneg _ (inject_Z_nonneg moved Hm)) as N.
    set (a := nearest64 (inject_Z moved)) in *. nra.
Qed.

Lemma gemm_moved_nonneg (hw : HardwareConfig) (config : GEMM.GEMMConfig)
  (dim : Z) (r : GEMM.MemoryLatencies) :
  0 <= GEMM.data_type_size config ->
  GEMM.calculate_memory_access_latency hw dim
    (GEMM._calculate_memory_requirements dim config) config = Ok r ->
  0 <= GEMM.matrix_a_load (GEMM.debug_info r)
       + GEMM.matrix_b_load (GEMM.debug_info r)
       + GEMM.matrix_c_load (GEMM.debug_info r)
       + GEMM.matrix_c_store (GEMM.debug_info r).
Proof.
  intros Hes Hr. apply gemm_latency_loads_inv in Hr.
  unfold GEMM.if_tiling in Hr.
  assert (Hun : 0 <= dim * dim * GEMM.data_type_size config)
    by (apply Z.mul_nonneg_nonneg; [apply Z.square_nonneg | exact Hes]).
  destruct (GEMM.tiling_size config) as [t | ].
  - destruct (Z.eqb_spec t 0) as [_ | Ht].
    + apply Ok_inj in Hr. injection Hr as <- <- <- <-.
      cbn [GEMM._calculate_memory_requirements GEMM.per_matrix]. lia.
    + rewrite gemm_tiled_loads_value in Hr by exact Ht.
      apply Ok_inj in Hr. injection Hr as <- <- <- <-.
      set (n := (dim + t - 1) / t).
      assert (0 <= t * t * GEMM.data_type_size config * n * n).
      { replace (t * t * GEMM.data_type_size config * n * n)
          with ((t * n) * (t * n) * GEMM.data_type_size config) by ring.
        apply Z.mul_nonneg_nonneg; [apply Z.square_nonneg | exact Hes]. }
      lia.
  - apply Ok_inj in Hr. injection Hr as <- <- <- <-.
    cbn [GEMM._calculate_memory_requirements GEMM.per_matrix]. lia.
Qed.

Lemma square_times_nonneg (a b : Z) : 0 <= b -> 0 <= a * a * b.
Proof.
  intros Hb. apply Z.mul_nonneg_nonneg; [apply Z.square_nonneg | exact Hb].
Qed.

Lemma conv_moved_nonneg (hw : HardwareConfig) (config : Conv.ConvConfig)
  (dim k : Z) (l : Conv.Locals) :
  0 <= Conv.num_channels config -> 0 <= Conv.num_filters config ->
  0 <= Conv.data_type_size config -> 0 <= k ->
  Conv.calculate_memory_access_latency_locals hw dim k config = Ok l ->
  0 <= Conv.total_central_cgra_before l.
Proof.
  intros Hch Hnf Hes Hk Hl.
  apply conv_locals_inv in Hl
    as (_ & (Hi & Hkb & _ & Ho & _) & Hloads & Hb & _).
  assert (Ni : 0 <= Conv.input_size l).
  { rewrite Hi, <- Z.mul_assoc. apply square_times_nonneg. nia. }
  assert (Nk : 0 <= Conv.kernel_size_bytes l).
  { rewrite Hkb, <- !Z.mul_assoc, Z.mul_assoc.
    apply square_times_nonneg. nia. }
  assert (No : 0 <= Conv.output_size l).
  { rewrite Ho, <- Z.mul_assoc. apply square_times_nonneg. nia. }
  rewrite Hb. unfold Conv.loads_total.
  destruct (Conv.tiling_size config) as [[th tw] | ].
  - apply conv_tiled_loads_inv in Hloads as (_ & _ & Hn & -> & -> & ->).
    set (n := (dim + th - 1) / th * ((dim + tw - 1) / tw)) in *.
    assert (Hq : 0 <= Conv.input_size l / n * n).
    { destruct (Z.lt_trichotomy n 0) as [Hneg | [E | Hpos]]; [ | lia | ].
      - pose proof (Z.div_mod (Conv.input_size l) n ltac:(lia)) as Hdm.
        pose proof (Z.mod_neg_bound (Conv.input_size l) n Hneg) as Hm.
        lia.
      - assert (0 <= Conv.input_size l / n)
          by (apply Z.div_pos; lia).
        nia. }
    replace (Conv.input_size l / n * ((dim + th - 1) / th)
             * ((dim + tw - 1) / tw) * (1 + (k - 1)))
      with (Conv.input_size l / n * n * k) by (subst n; ring).
    nia.
  - rewrite Hloads. cbn [Conv.untiled_loads Conv.input_load
                          Conv.kernel_load Conv.output_load].
    nia.
Qed.

(** X7. With a positive DMA rate of at most [2^53], non-negative sizes
    (element size, and for Conv channels, filters and kernel side) and at
    most [2^53] bytes moved, the cycle counts are never negative and the
    DRAM link never takes longer than the local link:
    [0 <= dram_to_central <= central_to_cgra], for GEMM and for Conv, tiled
    or not. *)
Theorem dram_link_never_slower (hw : HardwareConfig) :
  0 < dma_transfer_rate hw <= 2 ^ 53 ->
  (forall (config : GEMM.GEMMConfig) (dim : Z) (r : GEMM.MemoryLatencies),
     0 <= GEMM.data_type_size config ->
     GEMM.calculate_memory_access_latency hw dim
       (GEMM._calculate_memory_requirements dim config) config = Ok r ->
     GEMM.matrix_a_load (GEMM.debug_info r)
     + GEMM.matrix_b_load (GEMM.debug_info r)
     + GEMM.matrix_c_load (GEMM.debug_info r)
     + GEMM.matrix_c_store (GEMM.debug_info r) <= 2 ^ 53 ->
     0 <= GEMM.dram_to_central r
     /\ GEMM.dram_to_central r <= GEMM.central_to_cgra r)
  /\ (forall (config : Conv.ConvConfig) (dim k : Z) (l : Conv.Locals),
        0 <= Conv.num_channels config -> 0 <= Conv.num_filters config ->
        0 <= Conv.data_type_size config -> 0 <= k ->
        Conv.calculate_memory_access_latency_locals hw dim k config = Ok l ->
        Conv.total_central_cgra_before l <= 2 ^ 53 ->
        0 <= Conv.l_dram_to_central l
        /\ Conv.l_dram_to_central l <= Conv.l_central_to_cgra l).
Proof.
  intros Hrate. split.
  - intros config dim r Hes Hr Hb.
    pose proof (gemm_moved_nonneg hw config dim r Hes Hr) as Hm.
    apply gemm_latency_inv in Hr as (Hd & _ & _ & Hs).
    pose proof (scaled_transfer_nonneg hw _ _ _ ltac:(lia) Hm Hs) as Hc0.
    destruct (_ <=? _).
    + rewrite Hd. split; [lia | exact Hc0].
    + split.
      * apply (transfer_int_nonneg hw _ _ ltac:(lia) Hm Hd).
      * apply (scaled_transfer_dominates hw _ _ _ _ Hrate
                 (conj Hm Hb) Hd Hs).
  - intros config dim k l Hch Hnf Hes Hk Hl Hb.
    pose proof (conv_moved_nonneg hw config dim k l Hch Hnf Hes Hk Hl) as Hn.
    apply conv_locals_inv in Hl
      as (_ & _ & _ & Hbefore & Hd & _ & _ & _ & _ & Hs).
    pose proof (scaled_transfer_nonneg hw _ _ _ ltac:(lia) Hn Hs) as Hc0.
    rewrite <- Hbefore in Hd.
    destruct (_ <=? _).
    + destruct Hd as (-> & _). split; [lia | exact Hc0].
    + destruct Hd as (Hd & _). split.
      * apply (transfer_int_nonneg hw _ _ ltac:(lia) Hn Hd).
      * apply (scaled_transfer_dominates hw _ _ _ _ Hrate
                 (conj Hn Hb) Hd Hs).
Qed.

Lemma dram_link_never_slower_witness :
  (exists r,
     GEMM.calculate_memory_access_latency reference_hardware 256
       (GEMM._calculate_memory_requirements 256 (gemm_tiled_by None))
       (gemm_tiled_by None) = Ok r
     /\ GEMM.dram_to_central r = 65536
     /\ 0 <= GEMM.dram_to_central r
     /\ GEMM.dram_to_central r <= GEMM.central_to_cgra r)
  /\ (exists l,
        Conv.calculate_memory_access_latency_locals
          (HardwareConfig_init [("central_sram_size", 1)]%string) 128 3
          (conv_default_tile 16) = Ok l
        /\ 0 <= Conv.l_dram_to_central l
        /\ Conv.l_dram_to_central l <= Conv.l_central_to_cgra l).
Proof.
  split.
  - eexists.
    assert (H : GEMM.calculate_memory_access_latency reference_hardware 256
                  (GEMM._calculate_memory_requirements 256
                     (gemm_tiled_by None))
                  (gemm_tiled_by None) = Ok _)
      by (vm_compute; reflexivity).
    split; [exact H | split; [reflexivity | ]].
    apply (proj1 (dram_link_never_slower reference_hardware
                    ltac:(split; [reflexivity | discriminate]))
             (gemm_tiled_by None) 256 _ ltac:(discriminate) H).
    apply Z.leb_le. vm_compute. reflexivity.
  - eexists.
    assert (H : Conv.calculate_memory_access_latency_locals
                  (HardwareConfig_init [("central_sram_size", 1)]%string)
                  128 3 (conv_default_tile 16) = Ok _)
      by (vm_compute; reflexivity).
    split; [exact H | ].
    apply (proj2 (dram_link_never_slower
                    (HardwareConfig_init [("central_sram_size", 1)]%string)
                    ltac:(split; [reflexivity | discriminate]))
             (conv_default_tile 16) 128 3 _
             ltac:(discriminate) ltac:(discriminate) ltac:(discriminate)
             ltac:(discriminate) H).
    apply Z.leb_le. vm_compute. reflexivity.
Defined.




(* ================================================================== *)
(** * Utilization and placement *)
(* ================================================================== *)

Lemma utilization_central_saturates (hw : HardwareConfig) (t : Z)
  (u : Utilization) :
  0 < central_sram_size hw -> central_sram_size hw < t ->
  _calculate_memory_utilization hw t = Ok u ->
  util_central_sram u = PyFloat 1.
Proof.
  intros Hc Ht Hu.
  apply utilization_inv in Hu as (_ & ->).
  cbv beta iota delta [util_central_sram].
  rewrite min_one.
  assert (H : Qle_bool 1
                (nearest64 (inject_Z t / inject_Z (central_sram_size hw)))
              = true).
  { apply Qle_bool_iff, nearest64_ge_1.
    apply Qle_shift_div_l; [apply inject_Z_pos, Hc | ].
    rewrite Qmult_1_l, <- Zle_Qle. lia. }
  rewrite H. reflexivity.
Qed.

(** X9. In every result record the central-SRAM utilization and the DRAM
    latency agree on the placement: if [dram_to_central] is not 0 the
    utilization of the central SRAM is exactly [1.0], so a utilization
    below [1.0] means that nothing went through DRAM (central SRAM size
    positive; GEMM and Conv). *)
Theorem dram_traffic_means_saturated_central (hw : HardwareConfig) :
  0 < central_sram_size hw ->
  (forall (config : GEMM.GEMMConfig) (dim : Z) (r : GEMM.Result),
     GEMM.analyze_point hw config dim = Ok r ->
     (lat_dram_to_central (GEMM.latencies r) <> 0 ->
      util_central_sram (GEMM.utilization r) = PyFloat 1)
     /\ (lt (util_central_sram (GEMM.utilization r)) (PyFloat 1) = true ->
         lat_dram_to_central (GEMM.latencies r) = 0))
  /\ (forall (config : Conv.ConvConfig) (dim k : Z) (r : Conv.Result),
        Conv.analyze_point hw config dim k = Ok r ->
        (lat_dram_to_central (Conv.latencies r) <> 0 ->
         util_central_sram (Conv.utilization r) = PyFloat 1)
        /\ (lt (util_central_sram (Conv.utilization r)) (PyFloat 1) = true ->
            lat_dram_to_central (Conv.latencies r) = 0)).
Proof.
  intros Hc.
  assert (Hcontra : forall (d : Z) (u : number),
            (d <> 0 -> u = PyFloat 1) ->
            lt u (PyFloat 1) = true -> d = 0).
  { intros d u H Hlt. destruct (Z.eq_dec d 0) as [E | E]; [exact E | ].
    rewrite (H E) in Hlt. discriminate. }
  split.
  - intros config dim r Hr.
    apply gemm_point_inv in Hr as (l & u & t & Hl & Hu & _ & ->).
    apply gemm_latencies_inv in Hl as (ml & Hml & ->).
    apply gemm_latency_inv in Hml as (Hd & _).
    cbn [GEMM.latencies GEMM.utilization lat_dram_to_central].
    assert (H : GEMM.dram_to_central ml <> 0 ->
                util_central_sram u = PyFloat 1).
    { intros Hnz.
      cbn [GEMM._calculate_memory_requirements GEMM.per_matrix GEMM.total]
        in Hd, Hu.
      destruct (Z.leb_spec (dim * dim * GEMM.data_type_size config * 3)
                  (central_sram_size hw)) as [_ | Hbig]; [congruence | ].
      apply (utilization_central_saturates hw _ u Hc Hbig Hu). }
    split; [exact H | apply Hcontra, H].
  - intros config dim k r Hr.
    apply conv_point_inv in Hr as (m & l & u & t & Hm & Hl & Hu & _ & ->).
    apply conv_latencies_inv in Hl as (loc & Hloc & ->).
    cbn [Conv.latencies Conv.utilization lat_dram_to_central].
    assert (H : Conv.l_dram_to_central loc <> 0 ->
                util_central_sram u = PyFloat 1).
    { intros Hnz.
      apply conv_mem_req_inv in Hm as (_ & Hi & Hk & Ho & Ht).
      apply conv_locals_inv in Hloc
        as (_ & (Hli & Hlk & Hld & Hlo & Hlt) & _ & _ & Hd & _).
      assert (Et : Conv.total_size loc = Conv.total m).
      { rewrite Hlt, Ht, Hli, Hlk, Hlo, Hld, Hi, Hk, Ho. reflexivity. }
      rewrite Et in Hd.
      destruct (Z.leb_spec (Conv.total m) (central_sram_size hw))
        as [_ | Hbig]; [destruct Hd; congruence | ].
      apply (utilization_central_saturates hw _ u Hc Hbig Hu). }
    split; [exact H | apply Hcontra, H].
Qed.

Lemma dram_traffic_means_saturated_central_witness :
  exists r,
    GEMM.analyze_point reference_hardware (gemm_tiled_by None) 256 = Ok r
    /\ lat_dram_to_central (GEMM.latencies r) <> 0
    /\ util_central_sram (GEMM.utilization r) = PyFloat 1.
Proof.
  eexists.
  assert (H : GEMM.analyze_point reference_hardware (gemm_tiled_by None) 256
              = Ok _) by (vm_compute; reflexivity).
  assert (Hnz : 65536 <> 0) by discriminate.
  split; [exact H | split; [exact Hnz | ]].
  exact (proj1 (proj1 (dram_traffic_means_saturated_central
                         reference_hardware eq_refl)
                  (gemm_tiled_by None) 256 _ H) Hnz).
Defined.


(* ================================================================== *)
(** * Monotonicity *)
(* ================================================================== *)

(** With the same working set, a larger total never takes fewer cycles. *)
Lemma scaled_transfer_mono_moved (hw : HardwareConfig)
  (m1 m2 ws c1 c2 : Z) :
  0 < dma_transfer_rate hw -> 0 <= m1 <= m2 ->
  scaled_transfer hw m1 ws = Ok c1 ->
  scaled_transfer hw m2 ws = Ok c2 ->
  c1 <= c2.
Proof.
  intros Hr Hm H1 H2.
  apply scaled_transfer_inv in H1 as (_ & _ & H1).
  apply scaled_transfer_inv in H2 as (_ & _ & H2).
  set (q := nearest64 (inject_Z ws / inject_Z (cgra_sram_size hw))) in *.
  assert (M : (inject_Z m1 <= inject_Z m2)%Q) by (rewrite <- Zle_Qle; lia).
  pose proof (inject_Z_nonneg m1 ltac:(lia)) as M0.
  pose proof (nearest64_mono _ _ M) as NM.
  pose proof (nearest64_nonneg _ M0) as N0.
  destruct (Qle_bool q 1) eqn:E.
  - apply (transfer_int_mono hw m1 m2); (lia || assumption).
  - assert (L : (1 < q)%Q).
    { apply Qnot_le_lt. intros L. apply Qle_bool_iff in L. congruence. }
    apply (transfer_float_mono hw) with (3 := H1) (4 := H2); [lia | ].
    apply nearest64_mono.
    set (a := nearest64 (inject_Z m1)) in *.
    set (b := nearest64 (inject_Z m2)) in *.
    nra.
Qed.

(** Rounding to a float is monotone, infinities included. *)
Lemma round_float_mono (x y : Q) :
  (x <= y)%Q -> below (round_float y) (round_float x) = false.
Proof.
  intros Hxy. pose proof (round_mono x y Hxy) as Hr.
  pose proof (pow2_pos 1024) as Hp.
  unfold round_float, overflows, is_negative.
  set (rx := round x) in *. set (ry := round y) in *.
  destruct (Qle_bool (pow2 1024) (Qabs ry)) eqn:Oy;
    destruct (Qle_bool (pow2 1024) (Qabs rx)) eqn:Ox; cbn [below].
  - destruct (Qle_bool 0 ry) eqn:Sy; [reflexivity | ].
    destruct (Qle_bool 0 rx) eqn:Sx; [ | reflexivity].
    apply Qle_bool_iff in Sx.
    assert (H0 : (0 <= ry)%Q) by lra.
    apply Qle_bool_iff in H0. congruence.
  - destruct (Qle_bool 0 ry) eqn:Sy; [reflexivity | exfalso].
    assert (Ny : (ry < 0)%Q).
    { apply Qnot_le_lt. intros L. apply Qle_bool_iff in L. congruence. }
    apply Qle_bool_iff in Oy. rewrite Qabs_neg in Oy by lra.
    assert (H : (pow2 1024 <= Qabs rx)%Q) by (rewrite Qabs_neg by lra; lra).
    apply Qle_bool_iff in H. congruence.
  - destruct (Qle_bool 0 rx) eqn:Sx; [exfalso | reflexivity].
    apply Qle_bool_iff in Sx. apply Qle_bool_iff in Ox.
    rewrite Qabs_pos in Ox by exact Sx.
    assert (H : (pow2 1024 <= Qabs ry)%Q) by (rewrite Qabs_pos by lra; lra).
    apply Qle_bool_iff in H. congruence.
  - assert (H : (Qred rx <= Qred ry)%Q) by (rewrite !Qred_correct; exact Hr).
    apply Qle_bool_iff in H. rewrite H. reflexivity.
Qed.

Lemma conv_tiled_moves_less (dim k th tw i kb o : Z) (loads : Conv.Loads) :
  0 < dim -> 0 < th -> 0 < tw -> 1 <= k -> 0 <= i -> 0 <= o ->
  Conv.tiled_loads dim k (th, tw) i kb o = Ok loads ->
  Conv.loads_total loads <= Conv.loads_total (Conv.untiled_loads k i kb o).
Proof.
  intros Hd Hh Hw Hk Hi Ho Hl.
  apply conv_tiled_loads_inv in Hl as (_ & _ & _ & Hin & Hke & Hou).
  pose proof (conv_tile_count_positive dim th Hd Hh) as Nh.
  pose proof (conv_tile_count_positive dim tw Hd Hw) as Nw.
  set (nh := (dim + th - 1) / th) in *.
  set (nw := (dim + tw - 1) / tw) in *.
  assert (Hn : 0 < nh * nw) by nia.
  pose proof (Z.mul_div_le i (nh * nw) Hn) as Hfloor.
  assert (Hq : 0 <= i / (nh * nw)) by (apply Z.div_pos; lia).
  unfold Conv.loads_total.
  rewrite Hin, Hke, Hou.
  cbn [Conv.untiled_loads Conv.input_load Conv.kernel_load Conv.output_load].
  replace (i / (nh * nw) * nh * nw * (1 + (k - 1)))
    with (nh * nw * (i / (nh * nw)) * k) by ring.
  assert (nh * nw * (i / (nh * nw)) * k <= i * k) by nia.
  assert (i * k <= i * k * k) by nia.
  lia.
Qed.


(** X10. Switching tiling on never slows a Conv point down in this model,
    for totals and rates that binary64 holds exactly.  With positive local
    SRAM size, a positive DMA rate of at most [2^53], positive input side
    and tile sides, a kernel side of at least 1, non-negative channels,
    filters and element size, and at most [2^53] bytes moved by the tiled
    run, the tiled run moves no more bytes before the reload factor, has no
    larger working set, and needs no more central-to-local and
    DRAM-to-central cycles than the same workload untiled. *)
Theorem conv_tiling_never_slower
  (hw : HardwareConfig) (config : Conv.ConvConfig) (dim k : Z)
  (tiled untiled : Conv.Locals) :
  0 < cgra_sram_size hw -> 0 < dma_transfer_rate hw <= 2 ^ 53 ->
  0 < dim -> conv_tiles_positive config -> 1 <= k ->
  0 <= Conv.num_channels config -> 0 <= Conv.num_filters config ->
  0 <= Conv.data_type_size config ->
  Conv.calculate_memory_access_latency_locals hw dim k config = Ok tiled ->
  Conv.calculate_memory_access_latency_locals hw dim k
    (without_tiling config) = Ok untiled ->
  Conv.total_central_cgra_before tiled <= 2 ^ 53 ->
  Conv.total_central_cgra_before tiled <= Conv.total_central_cgra_before untiled
  /\ Conv.working_set tiled <= Conv.working_set untiled
  /\ Conv.l_central_to_cgra tiled <= Conv.l_central_to_cgra untiled
  /\ Conv.l_dram_to_central tiled <= Conv.l_dram_to_central untiled.
Proof.
  intros Hcap Hrate Hdim Htiles Hk Hch Hnf Hes Ht Hu Hbound.
  assert (Hk0 : 0 <= k) by lia.
  pose proof (conv_moved_nonneg hw config dim k tiled Hch Hnf Hes Hk0 Ht) as Nt.
  apply conv_locals_inv in Ht
    as (_ & (Hi1 & Hk1 & Hd1 & Ho1 & Ht1) & Hl1 & Hb1 & Hdr1 & Hw1 & _
        & _ & _ & Hs1).
  apply conv_locals_inv in Hu
    as (_ & (Hi2 & Hk2 & Hd2 & Ho2 & Ht2) & Hl2 & Hb2 & Hdr2 & Hw2 & _
        & _ & _ & Hs2).
  cbn [without_tiling Conv.num_channels Conv.num_filters
       Conv.data_type_size Conv.padding Conv.stride Conv.tiling_size]
    in Hi2, Hk2, Hd2, Ho2, Hl2.
  unfold conv_working_set in Hw2.
  cbn [without_tiling Conv.tiling_size] in Hw2.
  assert (Ei : Conv.input_size tiled = Conv.input_size untiled) by congruence.
  assert (Ek : Conv.kernel_size_bytes tiled = Conv.kernel_size_bytes untiled)
    by congruence.
  assert (Eo : Conv.output_size tiled = Conv.output_size untiled)
    by (rewrite Ho1, Ho2, Hd1, Hd2; reflexivity).
  assert (Et : Conv.total_size tiled = Conv.total_size untiled) by congruence.
  assert (Ni : 0 <= Conv.input_size tiled).
  { rewrite Hi1, <- Z.mul_assoc. apply square_times_nonneg. nia. }
  assert (No : 0 <= Conv.output_size tiled).
  { rewrite Ho1, <- Z.mul_assoc. apply square_times_nonneg. nia. }
  assert (Hmoved : Conv.total_central_cgra_before tiled
                   <= Conv.total_central_cgra_before untiled).
  { rewrite Hb1, Hb2, Hl2, <- Ei, <- Ek, <- Eo.
    unfold conv_tiles_positive in Htiles.
    destruct (Conv.tiling_size config) as [[th tw] | ].
    - destruct Htiles as (Hth & Htw).
      apply (conv_tiled_moves_less dim k th tw _ _ _ _
               Hdim Hth Htw Hk Ni No Hl1).
    - rewrite Hl1. lia. }
  assert (Hws : Conv.working_set tiled <= Conv.working_set untiled).
  { rewrite Hw1, Hw2, <- Et. unfold conv_working_set.
    destruct (Conv.tiling_size config) as [[th tw] | ]; lia. }
  split; [exact Hmoved | split; [exact Hws | split]].
  - apply (scaled_transfer_mono hw _ _ _ _ _ _ Hcap Hrate
             (conj Nt Hmoved) Hbound Hws Hs1 Hs2).
  - rewrite <- Et in Hdr2.
    destruct (Conv.total_size tiled <=? central_sram_size hw).
    + destruct Hdr1 as (-> & _). destruct Hdr2 as (-> & _). lia.
    + destruct Hdr1 as (D1 & _). destruct Hdr2 as (D2 & _).
      rewrite <- Hb1 in D1. rewrite <- Hb2 in D2.
      apply (transfer_int_mono hw _ _ _ _ ltac:(lia) Hmoved D1 D2).
Qed.

Lemma conv_tiling_never_slower_witness :
  exists tiled untiled,
    Conv.calculate_memory_access_latency_locals reference_hardware 128 3
      (conv_default_tile 16) = Ok tiled
    /\ Conv.calculate_memory_access_latency_locals reference_hardware 128 3
         (without_tiling (conv_default_tile 16)) = Ok untiled
    /\ Conv.l_central_to_cgra tiled <= Conv.l_central_to_cgra untiled
    /\ Conv.l_dram_to_central tiled <= Conv.l_dram_to_central untiled.
Proof.
  eexists. eexists.
  assert (Ht : Conv.calculate_memory_access_latency_locals
                 reference_hardware 128 3 (conv_default_tile 16) = Ok _)
    by (vm_compute; reflexivity).
  assert (Hu : Conv.calculate_memory_access_latency_locals
                 reference_hardware 128 3
                 (without_tiling (conv_default_tile 16)) = Ok _)
    by (vm_compute; reflexivity).
  split; [exact Ht | split; [exact Hu | ]].
  apply (conv_tiling_never_slower reference_hardware
           (conv_default_tile 16) 128 3 _ _
           eq_refl ltac:(split; [reflexivity | discriminate])
           eq_refl (conj eq_refl eq_refl)
           ltac:(discriminate) ltac:(discriminate)
           ltac:(discriminate) ltac:(discriminate) Ht Hu).
  apply Z.leb_le. vm_compute. reflexivity.
Defined.

Lemma square_monotone (a b : Z) : 0 <= a -> a <= b -> a * a <= b * b.
Proof. intros; nia. Qed.

Lemma gemm_traffic_monotone (hw : HardwareConfig) (config : GEMM.GEMMConfig)
  (d1 d2 : Z) (r1 r2 : GEMM.MemoryLatencies) :
  0 <= GEMM.data_type_size config ->
  (forall t, GEMM.tiling_size config = Some t -> 0 <= t) ->
  0 <= d1 -> d1 <= d2 ->
  GEMM.calculate_memory_access_latency hw d1
    (GEMM._calculate_memory_requirements d1 config) config = Ok r1 ->
  GEMM.calculate_memory_access_latency hw d2
    (GEMM._calculate_memory_requirements d2 config) config = Ok r2 ->
  GEMM.matrix_a_load (GEMM.debug_info r1)
  + GEMM.matrix_b_load (GEMM.debug_info r1)
  + GEMM.matrix_c_load (GEMM.debug_info r1)
  + GEMM.matrix_c_store (GEMM.debug_info r1)
  <= GEMM.matrix_a_load (GEMM.debug_info r2)
     + GEMM.matrix_b_load (GEMM.debug_info r2)
     + GEMM.matrix_c_load (GEMM.debug_info r2)
     + GEMM.matrix_c_store (GEMM.debug_info r2)
  /\ GEMM.working_set (GEMM.debug_info r1)
     <= GEMM.working_set (GEMM.debug_info r2).
Proof.
  intros Hes Htile H0 Hle H1 H2.
  pose proof (square_monotone d1 d2 H0 Hle) as Hsq.
  assert (Hun : d1 * d1 * GEMM.data_type_size config
                <= d2 * d2 * GEMM.data_type_size config)
    by (apply Z.mul_le_mono_nonneg_r; assumption).
  pose proof (gemm_latency_loads_inv _ _ _ _ _ H1) as L1.
  pose proof (gemm_latency_loads_inv _ _ _ _ _ H2) as L2.
  apply gemm_latency_inv in H1 as (_ & W1 & _).
  apply gemm_latency_inv in H2 as (_ & W2 & _).
  rewrite W1, W2.
  unfold GEMM.if_tiling in L1, L2. unfold gemm_working_set.
  cbn [GEMM._calculate_memory_requirements GEMM.per_matrix] in *.
  destruct (GEMM.tiling_size config) as [t | ] eqn:E.
  - destruct (Z.eqb_spec t 0) as [_ | Ht].
    + apply Ok_inj in L1. injection L1 as <- <- <- <-.
      apply Ok_inj in L2. injection L2 as <- <- <- <-.
      cbn [GEMM.untiled_loads GEMM.a_load GEMM.b_load GEMM.c_load
           GEMM.c_store]. lia.
    + assert (Hpos : 0 < t) by (specialize (Htile t eq_refl); lia).
      rewrite gemm_tiled_loads_value in L1, L2 by exact Ht.
      apply Ok_inj in L1. injection L1 as <- <- <- <-.
      apply Ok_inj in L2. injection L2 as <- <- <- <-.
      assert (Hn : (d1 + t - 1) / t <= (d2 + t - 1) / t)
        by (apply Z.div_le_mono; lia).
      assert (Hn0 : 0 <= (d1 + t - 1) / t) by (apply Z.div_pos; lia).
      set (n1 := (d1 + t - 1) / t) in *.
      set (n2 := (d2 + t - 1) / t) in *.
      pose proof (square_monotone n1 n2 Hn0 Hn) as Hnsq.
      assert (Hk : 0 <= t * t * GEMM.data_type_size config)
        by (apply square_times_nonneg, Hes).
      assert (t * t * GEMM.data_type_size config * (n1 * n1)
              <= t * t * GEMM.data_type_size config * (n2 * n2))
        by (apply Z.mul_le_mono_nonneg_l; assumption).
      replace (t * t * GEMM.data_type_size config * n1 * n1)
        with (t * t * GEMM.data_type_size config * (n1 * n1)) by ring.
      replace (t * t * GEMM.data_type_size config * n2 * n2)
        with (t * t * GEMM.data_type_size config * (n2 * n2)) by ring.
      lia.
  - apply Ok_inj in L1. injection L1 as <- <- <- <-.
    apply Ok_inj in L2. injection L2 as <- <- <- <-.
    cbn [GEMM.untiled_loads GEMM.a_load GEMM.b_load GEMM.c_load
         GEMM.c_store]. lia.
Qed.

Lemma cube_monotone (a b : Z) : 0 <= a -> a <= b -> a * a * a <= b * b * b.
Proof.
  intros Ha Hab. pose proof (square_monotone a b Ha Hab). nia.
Qed.

(** X14. A larger GEMM never takes fewer cycles, for totals and rates that
    binary64 holds exactly.  For one hardware profile (positive local SRAM
    size and DMA rate) and one configuration (non-negative element size and
    tile side), if [0 <= d1 <= d2] then the DRAM-to-central cycles, the
    central-to-local cycles, the computation cycles and the total of
    dimension [d1] are at most those of [d2]; without tiling this needs the
    four matrices of [d1] to take at most [2^53] bytes and a rate of at
    most [2^53], with tiling nothing more. *)
Theorem gemm_latency_monotone_in_dimension
  (hw : HardwareConfig) (config : GEMM.GEMMConfig) (d1 d2 : Z)
  (r1 r2 : GEMM.Result) :
  0 < cgra_sram_size hw -> 0 < dma_transfer_rate hw ->
  0 <= GEMM.data_type_size config ->
  (forall t, GEMM.tiling_size config = Some t -> 0 <= t) ->
  0 <= d1 -> d1 <= d2 ->
  GEMM.if_tiling (GEMM.tiling_size config) (fun _ => True)
    (4 * GEMM.per_matrix (GEMM._calculate_memory_requirements d1 config)
     <= 2 ^ 53
     /\ dma_transfer_rate hw <= 2 ^ 53) ->
  GEMM.analyze_point hw config d1 = Ok r1 ->
  GEMM.analyze_point hw config d2 = Ok r2 ->
  lat_dram_to_central (GEMM.latencies r1)
    <= lat_dram_to_central (GEMM.latencies r2)
  /\ lat_central_to_cgra (GEMM.latencies r1)
     <= lat_central_to_cgra (GEMM.latencies r2)
  /\ lt (lat_computation (GEMM.latencies r2))
        (lat_computation (GEMM.latencies r1)) = false
  /\ lt (GEMM.total_latency r2) (GEMM.total_latency r1) = false.
Proof.
  intros Hcap Hrate Hes Htile H0 Hle Hexact H1 H2.
  apply gemm_point_inv in H1 as (l1 & u1 & t1 & Hl1 & _ & Hsum1 & ->).
  apply gemm_point_inv in H2 as (l2 & u2 & t2 & Hl2 & _ & Hsum2 & ->).
  apply gemm_latencies_inv in Hl1 as (m1 & Hm1 & ->).
  apply gemm_latencies_inv in Hl2 as (m2 & Hm2 & ->).
  unfold latencies_values in Hsum1, Hsum2.
  cbn [lat_dram_to_central lat_central_to_cgra lat_computation]
    in Hsum1, Hsum2.
  apply sum_float_inv in Hsum1 as (s1 & _ & -> & ->).
  apply sum_float_inv in Hsum2 as (s2 & _ & -> & ->).
  cbn [GEMM.latencies GEMM.total_latency lat_dram_to_central
       lat_central_to_cgra lat_computation].
  destruct (gemm_traffic_monotone hw config d1 d2 m1 m2
              Hes Htile H0 Hle Hm1 Hm2) as (Hmoved & Hws).
  pose proof (gemm_moved_nonneg hw config d1 m1 Hes Hm1) as N1.
  pose proof (gemm_moved_nonneg hw config d2 m2 Hes Hm2) as N2.
  pose proof (gemm_latency_loads_inv _ _ _ _ _ Hm1) as L1.
  apply gemm_latency_inv in Hm1 as (D1 & W1 & _ & S1).
  apply gemm_latency_inv in Hm2 as (D2 & W2 & _ & S2).
  cbn [GEMM._calculate_memory_requirements GEMM.per_matrix]
    in D1, D2, W1, W2, Hexact, L1.
  assert (Hdram : GEMM.dram_to_central m1 <= GEMM.dram_to_central m2).
  { pose proof (square_monotone d1 d2 H0 Hle) as Hsq.
    assert (Hfoot : d1 * d1 * GEMM.data_type_size config * 3
                    <= d2 * d2 * GEMM.data_type_size config * 3).
    { apply Z.mul_le_mono_nonneg_r; [lia | ].
      apply Z.mul_le_mono_nonneg_r; assumption. }
    destruct (Z.leb_spec (d1 * d1 * GEMM.data_type_size config * 3)
                (central_sram_size hw));
      destruct (Z.leb_spec (d2 * d2 * GEMM.data_type_size config * 3)
                  (central_sram_size hw)); try lia.
    - rewrite D1. apply (transfer_int_nonneg hw _ _ Hrate N2 D2).
    - apply (transfer_int_mono hw _ _ _ _ Hrate Hmoved D1 D2). }
  assert (Hcentral : GEMM.central_to_cgra m1 <= GEMM.central_to_cgra m2).
  { unfold GEMM.if_tiling in Hexact, L1. unfold gemm_working_set in W1, W2.
    destruct (GEMM.tiling_size config) as [t | ].
    - destruct (Z.eqb_spec t 0) as [_ | Ht].
      + destruct Hexact as (Hb & Hr).
        apply Ok_inj in L1. injection L1 as Ea Eb Ec Es.
        assert (Hb' : GEMM.matrix_a_load (GEMM.debug_info m1)
                      + GEMM.matrix_b_load (GEMM.debug_info m1)
                      + GEMM.matrix_c_load (GEMM.debug_info m1)
                      + GEMM.matrix_c_store (GEMM.debug_info m1) <= 2 ^ 53)
          by lia.
        apply (scaled_transfer_mono hw _ _ _ _ _ _ Hcap (conj Hrate Hr)
                 (conj N1 Hmoved) Hb' Hws S1 S2).
      + rewrite W1 in S1. rewrite W2 in S2.
        apply (scaled_transfer_mono_moved hw _ _ _ _ _ Hrate
                 (conj N1 Hmoved) S1 S2).
    - destruct Hexact as (Hb & Hr).
      apply Ok_inj in L1. injection L1 as Ea Eb Ec Es.
      assert (Hb' : GEMM.matrix_a_load (GEMM.debug_info m1)
                    + GEMM.matrix_b_load (GEMM.debug_info m1)
                    + GEMM.matrix_c_load (GEMM.debug_info m1)
                    + GEMM.matrix_c_store (GEMM.debug_info m1) <= 2 ^ 53)
        by lia.
      apply (scaled_transfer_mono hw _ _ _ _ _ _ Hcap (conj Hrate Hr)
               (conj N1 Hmoved) Hb' Hws S1 S2). }
  assert (Hcomp :
    (nearest64 (inject_Z (2 * d1 * d1 * d1) / inject_Z 4)
     <= nearest64 (inject_Z (2 * d2 * d2 * d2) / inject_Z 4))%Q).
  { apply nearest64_mono, Qdiv_le_mono; [reflexivity | ].
    rewrite <- Zle_Qle.
    pose proof (cube_monotone d1 d2 H0 Hle). lia. }
  split; [exact Hdram | split; [exact Hcentral | split]].
  - unfold lt, PyFloat. cbn [exact below].
    apply Qle_bool_iff in Hcomp. rewrite Hcomp. reflexivity.
  - unfold lt, PyFloat. cbn [exact fadd].
    apply round_float_mono.
    apply Qplus_le_compat; [ | exact Hcomp].
    apply nearest64_mono. rewrite <- Zle_Qle. lia.
Qed.

Lemma gemm_latency_monotone_in_dimension_witness :
  exists r1 r2,
    GEMM.analyze_point reference_hardware (gemm_tiled_by None) 100 = Ok r1
    /\ GEMM.analyze_point reference_hardware (gemm_tiled_by None) 300
       = Ok r2
    /\ lat_dram_to_central (GEMM.latencies r1)
       <= lat_dram_to_central (GEMM.latencies r2)
    /\ lat_central_to_cgra (GEMM.latencies r1)
       <= lat_central_to_cgra (GEMM.latencies r2).
Proof.
  eexists. eexists.
  assert (H1 : GEMM.analyze_point reference_hardware
                 (gemm_tiled_by None) 100 = Ok _)
    by (vm_compute; reflexivity).
  assert (H2 : GEMM.analyze_point reference_hardware
                 (gemm_tiled_by None) 300 = Ok _)
    by (vm_compute; reflexivity).
  assert (Ht : forall t, GEMM.tiling_size (gemm_tiled_by None) = Some t
                         -> 0 <= t).
  { intros t E. discriminate E. }
  split; [exact H1 | split; [exact H2 | ]].
  destruct (gemm_latency_monotone_in_dimension reference_hardware
              (gemm_tiled_by None) 100 300 _ _
              eq_refl eq_refl ltac:(discriminate) Ht
              ltac:(discriminate) ltac:(discriminate)
              ltac:(split; apply Z.leb_le; vm_compute; reflexivity)
              H1 H2)
    as (Hd & Hc & _).
  split; [exact Hd | exact Hc].
Defined.

(* ================================================================== *)
(** * Loading the profile and choosing the plot *)
(* ================================================================== *)

Lemma lookup_bind_found {A B : Type} (m : Main.lookup A)
  (k : A -> Main.lookup B) (b : B) :
  Main.lookup_bind m k = Main.Found b ->
  exists a, m = Main.Found a /\ k a = Main.Found b.
Proof.
  destruct m as [a | key]; cbn [Main.lookup_bind]; intros H;
    [eauto | discriminate].
Qed.

Lemma item_found {A : Type} (o : option A) (key : string) (a : A) :
  Main.item o key = Main.Found a -> o = Some a.
Proof.
  destruct o; cbn [Main.item]; intros H; [ | discriminate].
  injection H as ->. reflexivity.
Qed.

(** X11. The profile [main] builds comes from the hardware file alone: a
    complete file yields its sizes scaled to bytes (MB and KB), its
    latencies, rate and frequencies unchanged, and no default of
    [HardwareConfig]; [bits_per_cycle] does not enter the profile, yet a file
    without it is rejected with [KeyError]; and every file that loads is a
    complete one. *)
Theorem profile_comes_from_the_file
  (dram_mb dram_lat central_kb central_lat cgra_kb cgra_lat rate : Z)
  (bus cgra : Z) :
  (forall bits : Z,
     Main.load_hardware
       (hardware_file dram_mb dram_lat central_kb central_lat cgra_kb
          cgra_lat rate (Some bits) bus cgra)
     = Main.Found
         {| dram_size := dram_mb * 1024 * 1024;
            central_sram_size := central_kb * 1024;
            cgra_sram_size := cgra_kb * 1024;
            dram_latency := dram_lat;
            central_sram_latency := central_lat;
            cgra_sram_latency := cgra_lat;
            dma_transfer_rate := rate;
            bus_frequency := bus;
            cgra_frequency := cgra |})
  /\ Main.load_hardware
       (hardware_file dram_mb dram_lat central_kb central_lat cgra_kb
          cgra_lat rate None bus cgra)
     = Main.KeyError "bits_per_cycle"
  /\ (forall (y : Main.HwConfigYaml) (hw : HardwareConfig),
        Main.load_hardware y = Main.Found hw ->
        exists a b c d e f g h i j,
          y = hardware_file a b c d e f g (Some h) i j).
Proof.
  split; [intros bits; reflexivity | split; [reflexivity | ]].
  intros y hw H.
  unfold Main.load_hardware, Main.convert_hw_config in H.
  apply lookup_bind_found in H as (dict & H & _).
  repeat match type of H with
         | Main.lookup_bind (Main.item _ _) _ = Main.Found _ =>
             let v := fresh "v" in
             let E := fresh "E" in
             apply lookup_bind_found in H as (v & E & H);
             apply item_found in E
         end.
  destruct y as [hardware]; cbn [Main.y_hardware] in *. subst hardware.
  repeat match goal with
         | H : Some _ = Some _ |- _ => injection H as H
         | H : ?x = Some _ |- _ => is_var x; subst x
         | H : ?x = _ |- _ => is_var x; subst x
         | H : _ = ?x |- _ => is_var x; subst x
         | m : Main.HardwareYaml |- _ =>
             destruct m;
             cbn [Main.y_dram Main.y_central_sram Main.y_cgra_sram Main.y_dma
                  Main.y_bits_per_cycle Main.y_bus_frequency
                  Main.y_cgra_frequency] in *
         | m : Main.MemoryYaml |- _ =>
             destruct m; cbn [Main.y_size Main.y_latency] in *
         | m : Main.DmaYaml |- _ =>
             destruct m; cbn [Main.y_transfer_rate] in *
         end.
  do 10 eexists. unfold hardware_file. reflexivity.
Qed.

Lemma profile_comes_from_the_file_witness :
  exists a b c d e f g h i j,
    hardware_file 32 100 512 10 32 1 16 (Some 64) 100 100
    = hardware_file a b c d e f g (Some h) i j.
Proof.
  exact (proj2 (proj2 (profile_comes_from_the_file 0 0 0 0 0 0 0 0 0))
           (hardware_file 32 100 512 10 32 1 16 (Some 64) 100 100)
           reference_hardware eq_refl).
Defined.

Lemma upper_char_is_not_o (c : ascii) : Main.upper_char c <> "o"%char.
Proof.
  destruct c as [[] [] [] [] [] [] [] []]; vm_compute; discriminate.
Qed.

(** X12. [main] never reaches the Conv-specific plot.  It passes
    [args.operation.upper()] to [plot_results], which calls
    [plot_conv_results] only for the string ["Conv"]; no upper-cased ASCII
    string equals it (in particular ["conv"] becomes ["CONV"]), so every run,
    Conv included, takes the generic body. *)
Theorem main_takes_the_generic_plot (operation : string) :
  Main.main_plot_body operation = Main.GenericPlot
  /\ Main.upper operation <> "Conv"%string
  /\ Main.plot_results_body "Conv" = Main.ConvPlot.
Proof.
  assert (H : Main.upper operation <> "Conv"%string).
  { destruct operation as [ | c0 [ | c1 rest]]; cbn [Main.upper];
      try discriminate.
    intros E. injection E as _ E1 _.
    exact (upper_char_is_not_o c1 E1). }
  split; [ | split; [exact H | reflexivity]].
  unfold Main.main_plot_body, Main.plot_results_body.
  destruct (String.eqb_spec (Main.upper operation) "Conv") as [E | _];
    [contradiction | reflexivity].
Qed.


(* ================================================================== *)
(** * Splitting a transfer *)
(* ================================================================== *)





(* ================================================================== *)
(** * Degenerate Conv inputs *)
(* ================================================================== *)

Lemma conv_no_tiles_raises (dim k th tw i kb o : Z) :
  0 < th -> - th < dim -> dim <= 0 ->
  Conv.tiled_loads dim k (th, tw) i kb o = Raise ZeroDivisionError.
Proof.
  intros Hth Hlo Hhi. unfold Conv.tiled_loads.
  rewrite (floordiv_nonzero _ th) by lia. cbn [bind].
  rewrite (Z.div_small (dim + th - 1) th) by lia.
  destruct (Z.eq_dec tw 0) as [-> | Ntw]; [reflexivity | ].
  rewrite (floordiv_nonzero _ tw) by exact Ntw.
  cbn [bind]. rewrite Z.mul_0_l. reflexivity.
Qed.

Lemma untiled_in_range (config : Conv.ConvConfig) (dim k : Z) :
  conv_in_range config dim k -> conv_in_range (without_tiling config) dim k.
Proof.
  unfold conv_in_range, without_tiling.
  cbn [Conv.num_channels Conv.num_filters Conv.data_type_size Conv.padding
       Conv.stride Conv.tiling_size].
  intros (Fd & Fk & Fc & Ff & Fe & Fp & Fs & _). auto 10.
Qed.

(** X15. A tiled Conv needs at least one tile.  With a positive tile
    height [th] and an input side in [(-th, 0]], the tile count is 0 and the
    traffic computation raises [ZeroDivisionError], whatever the hardware;
    the same workload untiled, with parameters of magnitude at most [2^64]
    and a non-zero stride, returns a result on a bounded profile. *)
Theorem tiled_conv_without_tiles_raises
  (hw : HardwareConfig) (config : Conv.ConvConfig) (dim k th tw : Z) :
  Conv.tiling_size config = Some (th, tw) ->
  0 < th -> - th < dim -> dim <= 0 ->
  Conv.calculate_memory_access_latency hw dim k config
  = Raise ZeroDivisionError
  /\ (bounded_hardware hw -> conv_in_range config dim k ->
      Conv.stride config <> 0 ->
      exists m,
        Conv.calculate_memory_access_latency hw dim k
          (without_tiling config) = Ok m).
Proof.
  intros Ht Hth Hlo Hhi. split.
  - unfold Conv.calculate_memory_access_latency,
      Conv.calculate_memory_access_latency_locals.
    rewrite Ht.
    destruct (Z.eq_dec (Conv.stride config) 0) as [Es | Ns].
    + rewrite Es. reflexivity.
    + rewrite floordiv_nonzero by exact Ns.
      cbn [bind]. cbv zeta.
      rewrite conv_no_tiles_raises by assumption.
      match goal with
      | |- context [if ?c then _ else _] => destruct c
      end; reflexivity.
  - intros Hhw Hin Hs.
    destruct (bounded_hardware_rate hw Hhw) as (Hr & Hrf).
    destruct (bounded_hardware_nonzero hw Hhw) as (_ & _ & Hl & _).
    destruct (conv_locals_returns hw dim k (without_tiling config)
                Hl Hr Hrf (untiled_in_range config dim k Hin) Hs I)
      as (l & Hloc & _).
    unfold Conv.calculate_memory_access_latency. rewrite Hloc.
    cbn [bind]. eauto.
Qed.

Lemma tiled_conv_without_tiles_raises_witness :
  Conv.calculate_memory_access_latency reference_hardware 0 3
    (conv_default_tile 1) = Raise ZeroDivisionError.
Proof.
  exact (proj1 (tiled_conv_without_tiles_raises reference_hardware
                  (conv_default_tile 1) 0 3 32 32
                  eq_refl eq_refl eq_refl ltac:(discriminate))).
Defined.


(** X16. Sufficient conditions for a Conv sweep to return: a bounded
    profile, a non-zero stride, positive input sides, when tiling is on
    positive tile sides, and parameters of magnitude at most [2^64].  Within
    that range no kernel side, padding, channel or filter count is rejected:
    the sweep returns one record for every pair of an input side and a
    kernel side. *)
Theorem conv_sweep_returns
  (hw : HardwareConfig) (config : Conv.ConvConfig) :
  bounded_hardware hw -> Conv.stride config <> 0 ->
  Forall (fun dim => 0 < dim) (Conv.input_dimensions config) ->
  conv_tiles_positive config ->
  (forall dim k,
     In dim (Conv.input_dimensions config) ->
     In k (Conv.kernel_sizes config) -> conv_in_range config dim k) ->
  exists rs,
    Conv.analyze hw config = Ok rs
    /\ List.length rs
       = (List.length (Conv.input_dimensions config)
          * List.length (Conv.kernel_sizes config))%nat.
Proof.
  intros Hhw Hs Hdims Ht Hin.
  assert (Hrows : exists rows,
    for_each
      (fun dim =>
         for_each (Conv.analyze_point hw config dim)
           (Conv.kernel_sizes config))
      (Conv.input_dimensions config) = Ok rows).
  { apply for_each_defined. intros dim Hd.
    apply for_each_defined. intros k Hk.
    apply conv_point_ok; try assumption.
    - apply Hin; assumption.
    - rewrite Forall_forall in Hdims. apply Hdims, Hd. }
  destruct Hrows as (rows & Hrows).
  assert (H : Conv.analyze hw config = Ok (List.concat rows))
    by (unfold Conv.analyze; rewrite Hrows; reflexivity).
  exists (List.concat rows). split; [exact H | ].
  clear Hrows.
  unfold Conv.analyze in H.
  apply bind_ok in H as (rows' & Hrows' & H).
  apply Ok_inj in H. rewrite <- H.
  apply for_each_ok_iff in Hrows'.
  rewrite <- length_prod.
  symmetry. eapply Forall2_length.
  apply (Forall2_concat_product
           (fun dim k r => Conv.analyze_point hw config dim k = Ok r)).
  eapply Forall2_impl; [ | exact Hrows'].
  intros dim row Hrow. apply for_each_ok_iff, Hrow.
Qed.

Lemma conv_sweep_returns_witness :
  exists rs,
    Conv.analyze reference_hardware (conv_default_tile 16) = Ok rs
    /\ List.length rs = 4%nat.
Proof.
  assert (Hdims : Forall (fun dim => 0 < dim)
                    (Conv.input_dimensions (conv_default_tile 16)))
    by (repeat constructor).
  apply (conv_sweep_returns reference_hardware (conv_default_tile 16)
           reference_hardware_bounded ltac:(discriminate) Hdims
           (conj eq_refl eq_refl)).
  intros dim k Hd Hk. cbn in Hd, Hk.
  destruct Hk as [<- | []].
  unfold conv_in_range, fits.
  repeat (destruct Hd as [<- | Hd];
          [cbn; repeat split; discriminate | ]).
  destruct Hd.
Defined.
